(** * Diverce: the conversion pipeline, repository acquisition and job store

    A shallow embedding of the core of the Diverce migration tool:

    - [src/app/lib/conversion-pipeline.ts]  the seven-step conversion pipeline,
    - [src/app/lib/git-utils.ts]            clone / branch / commit-and-push,
    - [src/app/api/convert/route.ts]        the job store and the orchestrator,
    - the status feed ([GET] of the convert/status route).

    JavaScript values are modelled by inductive types, the file system by
    finite maps from paths to contents, and everything outside the repository
    (node's [path], [fs], [child_process], [JSON], simple-git, the Vercel
    client) by the fields of one record of oracles, [Env].  Code that can throw
    runs in a state-and-exception monad. *)

From stdpp Require Import gmap strings list fin_maps countable.
From Stdlib Require Import ZArith Ascii String.

Local Open Scope string_scope.

(** ** JavaScript strings *)

(** A string is the UTF-8 encoding of a JavaScript string, byte by byte, as
    the string literals of this file are; the quote, backslash and line-feed
    characters are built from their codes. *)
Definition dq : string := String "034"%char "".
Definition bsl : string := String "092"%char "".
Definition nl : string := String "010"%char "".

(** [cat [a; b; c]] is the template literal [`${a}${b}${c}`]. *)
Definition cat (parts : list string) : string := String.concat "" parts.

(** [quoted s] is [s] between double quotes. *)
Definition quoted (s : string) : string := dq +:+ s +:+ dq.

(** [s.includes(needle)] *)
Fixpoint includes (s needle : string) : bool :=
  String.prefix needle s ||
  match s with
  | EmptyString => false
  | String _ s' => includes s' needle
  end.

(** [s.startsWith(p)] *)
Definition startsWith (s p : string) : bool := String.prefix p s.

(** White space as [String.prototype.trim] sees it: the WhiteSpace and
    LineTerminator characters of the language.  TAB, LF, VT, FF, CR and SPACE
    are one byte each. *)
Definition is_white (a : ascii) : bool :=
  let n := nat_of_ascii a in
  ((9 <=? n)%nat && (n <=? 13)%nat) || (n =? 32)%nat.

(** U+00A0, the no-break space, is the two bytes C2 A0. *)
Definition is_white2 (a b : ascii) : bool :=
  (nat_of_ascii a =? 194)%nat && (nat_of_ascii b =? 160)%nat.

(** Three bytes each: U+1680 (E1 9A 80), U+2000 to U+200A (E2 80 80 to
    E2 80 8A), the line and paragraph separators U+2028 and U+2029
    (E2 80 A8, E2 80 A9), U+202F (E2 80 AF), U+205F (E2 81 9F), U+3000
    (E3 80 80) and the byte order mark U+FEFF (EF BB BF). *)
Definition is_white3 (a b c : ascii) : bool :=
  let x := nat_of_ascii a in
  let y := nat_of_ascii b in
  let z := nat_of_ascii c in
  ((x =? 225) && (y =? 154) && (z =? 128))%nat
  || ((x =? 226) && (y =? 128)
      && (((128 <=? z) && (z <=? 138)) || (z =? 168) || (z =? 169) || (z =? 175)))%nat
  || ((x =? 226) && (y =? 129) && (z =? 159))%nat
  || ((x =? 227) && (y =? 128) && (z =? 128))%nat
  || ((x =? 239) && (y =? 187) && (z =? 191))%nat.

Fixpoint trimStart (s : string) : string :=
  match s with
  | EmptyString => EmptyString
  | String a s1 =>
      if is_white a then trimStart s1
      else
        match s1 with
        | EmptyString => s
        | String b s2 =>
            if is_white2 a b then trimStart s2
            else
              match s2 with
              | EmptyString => s
              | String c s3 => if is_white3 a b c then trimStart s3 else s
              end
        end
  end.

(** [s] is made of white space only. *)
Definition blank (s : string) : bool := String.eqb (trimStart s) "".

(** The longest suffix of white space is cut off. *)
Fixpoint trimEnd (s : string) : string :=
  match s with
  | EmptyString => EmptyString
  | String a s' => if blank s then EmptyString else String a (trimEnd s')
  end.

(** [s.trim()] *)
Definition trim (s : string) : string := trimEnd (trimStart s).

(** A byte that continues a multi-byte character. *)
Definition continuation (a : ascii) : bool :=
  (128 <=? nat_of_ascii a)%nat && (nat_of_ascii a <=? 191)%nat.

(** The first byte of [s], if any, does not continue a character. *)
Definition starts_clean (s : string) : bool :=
  match s with
  | EmptyString => true
  | String a _ => negb (continuation a)
  end.

(** One step of [trimStart]: what follows the white-space character [s]
    begins with, if it begins with one. *)
Definition peel (s : string) : option string :=
  match s with
  | EmptyString => None
  | String a s1 =>
      if is_white a then Some s1
      else
        match s1 with
        | EmptyString => None
        | String b s2 =>
            if is_white2 a b then Some s2
            else
              match s2 with
              | EmptyString => None
              | String c s3 => if is_white3 a b c then Some s3 else None
              end
        end
  end.

(** The no-break space U+00A0 and the byte order mark U+FEFF. *)
Definition nbsp : string := String "194"%char (String "160"%char "").
Definition bom : string := String "239"%char (String "187"%char (String "191"%char "")).

(** The character class of the URL clean-up: the single and the double
    quote. *)
Definition is_quote (a : ascii) : bool :=
  Ascii.eqb a "'"%char || Ascii.eqb a "034"%char.

(** [s.replace(/[quotes]/g, '')]: every quote character is dropped. *)
Fixpoint remove_quotes (s : string) : string :=
  match s with
  | EmptyString => EmptyString
  | String a s' =>
      if is_quote a then remove_quotes s' else String a (remove_quotes s')
  end.

(** Truthiness of a [string | undefined] and of a [boolean | undefined]. *)
Definition truthy_str (s : option string) : bool :=
  match s with
  | Some s => negb (String.eqb s "")
  | None => false
  end.

Definition truthy_bool (b : option bool) : bool :=
  match b with
  | Some b => b
  | None => false
  end.

(** ** Thrown values *)

(** What a [catch] clause receives: an [Error] with its message, or some
    other value.  [error_message] is the recurring
    [error instanceof Error ? error.message : 'Unknown error']. *)
Inductive thrown : Type :=
| JsError (message : string)
| NonError (text : string).

Definition error_message (e : thrown) : string :=
  match e with
  | JsError m => m
  | NonError _ => "Unknown error"
  end.

(** [error instanceof Error ? error : new Error(fallback)] *)
Definition as_error (fallback : string) (e : thrown) : thrown :=
  match e with
  | JsError _ => e
  | NonError _ => JsError fallback
  end.

(** [error instanceof Error ? error.message : String(error)] *)
Definition error_text (e : thrown) : string :=
  match e with
  | JsError m => m
  | NonError text => text
  end.

(** ** Computations with state and exceptions *)

Definition Comp (S A : Type) : Type := S -> (thrown + A) * S.

Definition ret {S A : Type} (a : A) : Comp S A := fun s => (inr a, s).

Definition throw {S A : Type} (e : thrown) : Comp S A := fun s => (inl e, s).

Definition bind {S A B : Type} (m : Comp S A) (k : A -> Comp S B) : Comp S B :=
  fun s =>
    match m s with
    | (inr a, s') => k a s'
    | (inl e, s') => (inl e, s')
    end.

(** [try { m } catch (e) { h e }] *)
Definition try_catch {S A : Type} (m : Comp S A) (h : thrown -> Comp S A) : Comp S A :=
  fun s =>
    match m s with
    | (inl e, s') => h e s'
    | (inr a, s') => (inr a, s')
    end.

Definition gets {S A : Type} (f : S -> A) : Comp S A := fun s => (inr (f s), s).

Definition modify {S : Type} (f : S -> S) : Comp S unit := fun s => (inr tt, f s).

(** A value that is either thrown or returned, without state. *)
Definition lift_sum {S A : Type} (r : thrown + A) : Comp S A := fun s => (r, s).

(** [when c m] is [if (c) { m }]. *)
Definition when {S : Type} (c : bool) (m : Comp S unit) : Comp S unit :=
  if c then m else ret tt.

Declare Scope comp_scope.
Delimit Scope comp_scope with comp.
Notation "x <- m ;; k" := (bind m (fun x => k))
  (at level 100, m at next level, right associativity) : comp_scope.
Notation "m ;; k" := (bind m (fun _ => k))
  (at level 100, right associativity) : comp_scope.
Local Open Scope comp_scope.

(** ** JSON values *)

(** The values [JSON.parse] returns.  An object keeps its members in
    insertion order, as [JSON.stringify] prints them.  Numbers are
    integer-valued: the code only ever tests a number for truthiness. *)
#[local] Set Warnings "-register-all".
Inductive json : Type :=
| JNull
| JBool (b : bool)
| JNum (n : Z)
| JStr (s : string)
| JArr (items : list json)
| JObj (members : list (string * json)).

(** A JavaScript value read from a member: [None] is [undefined]. *)
Definition truthy (v : option json) : bool :=
  match v with
  | None => false
  | Some JNull => false
  | Some (JBool b) => b
  | Some (JNum n) => negb (n =? 0)%Z
  | Some (JStr s) => negb (String.eqb s "")
  | Some (JArr _) => true
  | Some (JObj _) => true
  end.

Fixpoint assoc_get (k : string) (ms : list (string * json)) : option json :=
  match ms with
  | [] => None
  | (k', v) :: ms' => if String.eqb k k' then Some v else assoc_get k ms'
  end.

(** Assignment to a member: an existing key keeps its place, a new key goes
    last. *)
Fixpoint assoc_set (k : string) (v : json) (ms : list (string * json)) : list (string * json) :=
  match ms with
  | [] => [(k, v)]
  | (k', v') :: ms' =>
      if String.eqb k k' then (k, v) :: ms' else (k', v') :: assoc_set k v ms'
  end.

(** [delete obj[k]] *)
Fixpoint assoc_del (k : string) (ms : list (string * json)) : list (string * json) :=
  match ms with
  | [] => []
  | (k', v') :: ms' =>
      if String.eqb k k' then assoc_del k ms' else (k', v') :: assoc_del k ms'
  end.

(** [v[k]] for a [v] that is neither [null] nor [undefined], and a key [k]
    that no built-in prototype defines (every key the pipeline reads is a
    package-manifest key): only an object has it. *)
Definition member (v : json) (k : string) : option json :=
  match v with
  | JObj ms => assoc_get k ms
  | _ => None
  end.

(** [v.k]: reading a member of [null] throws a [TypeError]. *)
Definition member_strict (v : json) (k : string) : thrown + option json :=
  match v with
  | JNull => inl (JsError (cat ["Cannot read properties of null (reading '"; k; "')"]))
  | _ => inr (member v k)
  end.

(** [v?.k] *)
Definition member_opt (v : option json) (k : string) : option json :=
  match v with
  | None => None
  | Some JNull => None
  | Some v => member v k
  end.

(** [obj.k = v], as [JSON.stringify] later sees [obj].  A property set on an
    array under a name that is no index is not serialised; on a primitive
    the assignment throws (the module is in strict mode). *)
Definition set_member (obj : json) (k : string) (v : json) : thrown + json :=
  match obj with
  | JObj ms => inr (JObj (assoc_set k v ms))
  | JArr _ => inr obj
  | JNull => inl (JsError (cat ["Cannot set properties of null (setting '"; k; "')"]))
  | _ => inl (JsError (cat ["Cannot create property '"; k; "' on a primitive value"]))
  end.

(** ** The world outside the process *)

(** A directory is a plain directory or the work tree of a git repository. *)
Inductive dirkind : Type :=
| PlainDir
| GitRepo.

(** The simple-git commands the code issues, each with the directory of its
    [simpleGit(dir)] instance. *)
Inductive git_cmd : Type :=
| GitCheckIsRepo (dir : string)
| GitCheckout (dir branch : string)
| GitPull (dir : string)
| GitClone (url dir : string) (args : list string)
| GitCheckoutLocalBranch (dir name : string)
| GitAdd (dir what : string)
| GitCommit (dir msg : string)
| GitPush (dir remote ref : string).

(** Calls that leave the process, in the order they were made. *)
Inductive call : Type :=
| CallExec (cmd cwd : string)
| CallGit (c : git_cmd)
| CallRm (path : string)
| CallMkdir (path : string).

(** [files] are the regular files by path, [dirs] the directories the code
    tests or creates, [calls] the history of external calls. *)
Record World : Type := mkWorld {
  files : gmap string string;
  dirs : gmap string dirkind;
  calls : list call
}.

(** What [promisify(exec)] settles with: the standard output, or a rejection
    carrying the exit code and a message. *)
Inductive exec_result : Type :=
| ExecOk (stdout : string)
| ExecFailed (code : nat) (message : string).

(** A project as the Vercel client returns it (the fields the core reads). *)
Module GitRepository.
Record t : Type := mk {
  type : string;
  repo : string;
  url : string;
  defaultBranch : string
}.
End GitRepository.

Module Link.
Record t : Type := mk {
  type : string;
  org : string;
  repo : string;
  productionBranch : string
}.
End Link.

Module Project.
Record t : Type := mk {
  name : string;
  gitRepository : option GitRepository.t;
  link : option Link.t
}.
End Project.

(** Everything the repository does not define.  A process or git command
    answers with its outcome and with the regular files it leaves behind;
    an [fs] call answers with the error it throws, if any. *)
Record Env : Type := mkEnv {
  (* path.join(...segments) *)
  path_join : list string -> string;
  (* JSON.parse(text) *)
  JSON_parse : string -> thrown + json;
  (* JSON.stringify(value, null, 2) *)
  JSON_stringify : json -> string;
  (* promisify(exec)(cmd, { cwd }) *)
  execAsync : string -> string -> World -> exec_result * gmap string string;
  (* fs.writeFileSync(path, _) *)
  write_error : string -> World -> option thrown;
  (* fs.mkdirSync(path, { recursive: true }) *)
  mkdir_error : string -> World -> option thrown;
  (* fs.rmSync(path, { recursive: true, force: true }) *)
  rm_error : string -> World -> option thrown;
  (* a simple-git command *)
  git_run : git_cmd -> World -> option thrown * gmap string string;
  (* getDefaultVercelClient().getProject(id) *)
  getProject : string -> thrown + Project.t;
  (* process.env.LOCAL_STORAGE_PATH *)
  LOCAL_STORAGE_PATH : option string;
  (* git rev-parse --is-inside-work-tree in a directory that is no
     repository itself: whether the work tree of another repository
     encloses it *)
  inside_work_tree : string -> World -> bool
}.

(** [fs.existsSync(p)] *)
Definition existsSync (p : string) (w : World) : bool :=
  match files w !! p, dirs w !! p with
  | None, None => false
  | _, _ => true
  end.

(** [fs.readFileSync(p, 'utf8')] *)
Definition readFileSync (p : string) : Comp World string :=
  fun w =>
    match files w !! p with
    | Some text => (inr text, w)
    | None =>
        match dirs w !! p with
        | Some _ => (inl (JsError "EISDIR: illegal operation on a directory, read"), w)
        | None =>
            (inl (JsError (cat ["ENOENT: no such file or directory, open '"; p; "'"])), w)
        end
    end.

Section FileSystem.
Variable E : Env.

(** [fs.writeFileSync(p, text)] *)
Definition writeFileSync (p text : string) : Comp World unit :=
  fun w =>
    match dirs w !! p with
    | Some _ =>
        (inl (JsError (cat ["EISDIR: illegal operation on a directory, open '"; p; "'"])), w)
    | None =>
        match write_error E p w with
        | Some e => (inl e, w)
        | None => (inr tt, mkWorld (<[p := text]> (files w)) (dirs w) (calls w))
        end
    end.

(** [await execAsync(cmd, { cwd })]: the call is recorded, the files are
    those the process leaves, and a failed process rejects with an
    [Error]. *)
Definition exec (cmd cwd : string) : Comp World string :=
  fun w =>
    let '(r, fs') := execAsync E cmd cwd w in
    let w' := mkWorld fs' (dirs w) (calls w ++ [CallExec cmd cwd]) in
    match r with
    | ExecOk out => (inr out, w')
    | ExecFailed _ msg => (inl (JsError msg), w')
    end.
End FileSystem.

(** ** The conversion pipeline (conversion-pipeline.ts) *)

Module ConversionOptions.
Record t : Type := mk {
  projectPath : string;
  projectName : string;
  enableKVCache : option bool;
  kvNamespaceId : option string;
  packageJsonPath : option string
}.
End ConversionOptions.

Module ConversionResult.
Record t : Type := mk {
  success : bool;
  message : string;
  logs : list string
}.
End ConversionResult.

(** A string interpolated into a template literal. *)
Definition interpolate (s : option string) : string :=
  match s with
  | Some s => s
  | None => "undefined"
  end.

Module ConversionPipeline.

(** The instance: [this.logs] and the world it acts on; [this.options] is
    the parameter [o] of every method. *)
Record state : Type := mkState {
  logs : list string;
  world : World
}.

Definition in_world {A : Type} (m : Comp World A) : Comp state A :=
  fun s =>
    let '(r, w) := m (world s) in
    (r, mkState (logs s) w).

Definition log (message : string) : Comp state unit :=
  modify (fun s => mkState (logs s ++ [message]) (world s)).

Definition grep_edge_cmd : string :=
  cat ["grep -r "; dq; "export const runtime = "; bsl; dq; "edge"; bsl; dq; dq;
       " --include="; quoted "*.js"; " --include="; quoted "*.jsx";
       " --include="; quoted "*.ts"; " --include="; quoted "*.tsx"; " ."].

Definition npm_install_cmd : string :=
  "npm install --save-dev @opennextjs/cloudflare@latest wrangler@latest".

Definition sed_edge_cmd : string :=
  "find . -type f -name '*.js' -o -name '*.jsx' -o -name '*.ts' -o -name '*.tsx' | xargs -I{} sed -i '' 's/export const runtime = .edge.;/\/\/ Removed edge runtime declaration/g' {}".

Definition nextOnPages : string := "@cloudflare/next-on-pages".

(** The text of open-next.config.ts. *)
Definition openNextConfig (o : ConversionOptions.t) : string :=
  cat ["import { defineCloudflareConfig } from "; quoted "@opennextjs/cloudflare"; ";"; nl;
       (if truthy_bool (ConversionOptions.enableKVCache o)
        then cat ["import kvIncrementalCache from ";
                  quoted "@opennextjs/cloudflare/overrides/incremental-cache/kv-incremental-cache"; ";"]
        else "");
       nl; nl;
       "export default defineCloudflareConfig({"; nl;
       (if truthy_bool (ConversionOptions.enableKVCache o)
        then "  incrementalCache: kvIncrementalCache,"
        else "");
       nl;
       "});"; nl].

(** The value of [kv_namespaces] in wrangler.jsonc. *)
Definition kvNamespaces (o : ConversionOptions.t) : string :=
  if truthy_bool (ConversionOptions.enableKVCache o)
     && truthy_str (ConversionOptions.kvNamespaceId o)
  then cat ["["; nl;
            "  {"; nl;
            "    "; quoted "binding"; ": "; quoted "NEXT_CACHE_WORKERS_KV"; ","; nl;
            "    "; quoted "id"; ": "; quoted (interpolate (ConversionOptions.kvNamespaceId o)); nl;
            "  }"; nl;
            "]"]
  else "[]".

(** The text of wrangler.jsonc. *)
Definition wranglerConfig (o : ConversionOptions.t) : string :=
  cat ["{"; nl;
       "  "; quoted "$schema"; ": "; quoted "node_modules/wrangler/config-schema.json"; ","; nl;
       "  "; quoted "main"; ": "; quoted ".open-next/worker.js"; ","; nl;
       "  "; quoted "name"; ": "; quoted (ConversionOptions.projectName o); ","; nl;
       "  "; quoted "compatibility_date"; ": "; quoted "2024-12-30"; ","; nl;
       "  "; quoted "compatibility_flags"; ": ["; quoted "nodejs_compat"; "],"; nl;
       "  "; quoted "assets"; ": {"; nl;
       "    "; quoted "directory"; ": "; quoted ".open-next/assets"; ","; nl;
       "    "; quoted "binding"; ": "; quoted "ASSETS"; nl;
       "  },"; nl;
       "  "; quoted "kv_namespaces"; ": "; kvNamespaces o; nl;
       "}"; nl].

Definition previewScript : string := "opennextjs-cloudflare build && wrangler dev".
Definition deployScript : string := "opennextjs-cloudflare build && wrangler deploy".
Definition typegenScript : string :=
  "wrangler types --env-interface CloudflareEnv cloudflare-env.d.ts".

(** Lines 214-217 of [updatePackageJson], on the parsed manifest. *)
Definition setScripts (packageJson : json) : thrown + json :=
  match member_strict packageJson "scripts" with
  | inl e => inl e
  | inr s0 =>
      let scripts := if truthy s0 then default (JObj []) s0 else JObj [] in
      match set_member packageJson "scripts" scripts with
      | inl e => inl e
      | inr packageJson1 =>
          match set_member scripts "preview" (JStr previewScript) with
          | inl e => inl e
          | inr s1 =>
              match set_member s1 "deploy" (JStr deployScript) with
              | inl e => inl e
              | inr s2 =>
                  match set_member s2 "cf-typegen" (JStr typegenScript) with
                  | inl e => inl e
                  | inr s3 => set_member packageJson1 "scripts" s3
                  end
              end
          end
      end
  end.

(** [delete packageJson[group]['@cloudflare/next-on-pages']], reached only
    when that member is truthy, hence when [packageJson[group]] is an
    object. *)
Definition deleteNextOnPages (packageJson : json) (group : string) : json :=
  match packageJson, member packageJson group with
  | JObj ms, Some (JObj deps) => JObj (assoc_set group (JObj (assoc_del nextOnPages deps)) ms)
  | _, _ => packageJson
  end.

Section Methods.
Variable E : Env.
Variable o : ConversionOptions.t.

Definition getPackageJsonPath : string :=
  if truthy_str (ConversionOptions.packageJsonPath o)
  then path_join E [ConversionOptions.projectPath o;
                    interpolate (ConversionOptions.packageJsonPath o);
                    "package.json"]
  else path_join E [ConversionOptions.projectPath o; "package.json"].

(** The directory of the manifest: [installDir], [configDir] and
    [searchDir] of the source. *)
Definition manifestDir : string :=
  if truthy_str (ConversionOptions.packageJsonPath o)
  then path_join E [ConversionOptions.projectPath o;
                    interpolate (ConversionOptions.packageJsonPath o)]
  else ConversionOptions.projectPath o.

(** Lines 88-108 of [verifyNextJsProject]: the manifest. *)
Definition verifyManifest : Comp state unit :=
  log "Verifying Next.js project..." ;;
  let packageJsonPath := getPackageJsonPath in
  when (truthy_str (ConversionOptions.packageJsonPath o))
       (log (cat ["Using custom package.json path: ";
                  interpolate (ConversionOptions.packageJsonPath o)])) ;;
  found <- gets (fun s => existsSync packageJsonPath (world s)) ;;
  when (negb found)
       (throw (JsError (cat ["Could not find package.json at "; packageJsonPath]))) ;;
  text <- in_world (readFileSync packageJsonPath) ;;
  packageJson <- lift_sum (JSON_parse E text) ;;
  dependencies <- lift_sum (member_strict packageJson "dependencies") ;;
  (if truthy (member_opt dependencies "next")
   then ret tt
   else
     devDependencies <- lift_sum (member_strict packageJson "devDependencies") ;;
     when (negb (truthy (member_opt devDependencies "next")))
          (throw (JsError
             "This project does not appear to be a Next.js project (next package not found)"))) ;;
  log "Next.js project verified ✅".

(** Lines 110-124 of [verifyNextJsProject]: the scan for the edge
    runtime declaration. *)
Definition scanEdgeRuntime : Comp state unit :=
  log "Checking for Edge Runtime usage..." ;;
  try_catch
    (stdout <- in_world (exec E grep_edge_cmd (ConversionOptions.projectPath o)) ;;
     if negb (String.eqb (trim stdout) "")
     then log "⚠️ WARNING: Edge Runtime usage detected. These will be removed during conversion."
     else log "No Edge Runtime usage detected ✅")
    (fun _ => log "No Edge Runtime usage detected ✅").

Definition verifyNextJsProject : Comp state unit :=
  verifyManifest ;;
  scanEdgeRuntime.

Definition installDependencies : Comp state unit :=
  log "Installing OpenNext dependencies..." ;;
  try_catch
    (let installDir := manifestDir in
     when (truthy_str (ConversionOptions.packageJsonPath o))
          (log (cat ["Installing dependencies in custom directory: "; installDir])) ;;
     in_world (exec E npm_install_cmd installDir) ;;
     log "Dependencies installed successfully ✅")
    (fun error =>
       throw (JsError (cat ["Failed to install dependencies: "; error_message error]))).

Definition openNextConfigPath : string :=
  path_join E [manifestDir; "open-next.config.ts"].

Definition createOpenNextConfig : Comp state unit :=
  log "Creating or updating open-next.config.ts..." ;;
  let configPath := openNextConfigPath in
  let config := openNextConfig o in
  in_world (writeFileSync E configPath config) ;;
  log "open-next.config.ts created/updated ✅".

Definition wranglerPath : string :=
  path_join E [manifestDir; "wrangler.jsonc"].

Definition createWranglerConfig : Comp state unit :=
  log "Creating or updating wrangler.jsonc..." ;;
  let config := wranglerConfig o in
  in_world (writeFileSync E wranglerPath config) ;;
  log "wrangler.jsonc created/updated ✅".

Definition updatePackageJson : Comp state unit :=
  log "Updating package.json scripts..." ;;
  let packageJsonPath := getPackageJsonPath in
  text <- in_world (readFileSync packageJsonPath) ;;
  packageJson <- lift_sum (JSON_parse E text) ;;
  packageJson <- lift_sum (setScripts packageJson) ;;
  in_world (writeFileSync E packageJsonPath (JSON_stringify E packageJson)) ;;
  log "package.json scripts updated ✅".

(** One of the two [if] blocks of [removeConflictingReferences]; it
    returns the manifest object as the block leaves it. *)
Definition removeFromGroup (packageJsonPath group : string) (packageJson : json)
  : Comp state json :=
  dependencies <- lift_sum (member_strict packageJson group) ;;
  if truthy (member_opt dependencies nextOnPages)
  then
    let packageJson := deleteNextOnPages packageJson group in
    log (cat ["Removed @cloudflare/next-on-pages from "; group]) ;;
    in_world (writeFileSync E packageJsonPath (JSON_stringify E packageJson)) ;;
    ret packageJson
  else ret packageJson.

Definition removeConflictingReferences : Comp state unit :=
  log "Removing conflicting references..." ;;
  let packageJsonPath := getPackageJsonPath in
  text <- in_world (readFileSync packageJsonPath) ;;
  packageJson <- lift_sum (JSON_parse E text) ;;
  packageJson <- removeFromGroup packageJsonPath "dependencies" packageJson ;;
  packageJson <- removeFromGroup packageJsonPath "devDependencies" packageJson ;;
  let searchDir := manifestDir in
  try_catch
    (in_world (exec E sed_edge_cmd searchDir) ;;
     log "Removed edge runtime declarations from files")
    (fun _ =>
       log "Note: Could not automatically remove edge runtime declarations. You may need to remove these manually.") ;;
  log "Conflicting references removed ✅".

Definition rootGitignore : string :=
  path_join E [ConversionOptions.projectPath o; ".gitignore"].

Definition subfolderGitignore : string :=
  path_join E [ConversionOptions.projectPath o;
               interpolate (ConversionOptions.packageJsonPath o);
               ".gitignore"].

(** Whether [updateGitignore] switches to the ignore file of the
    subfolder. *)
Definition usesSubfolderGitignore (w : World) : bool :=
  truthy_str (ConversionOptions.packageJsonPath o)
  && negb (existsSync rootGitignore w)
  && existsSync subfolderGitignore w.

Definition gitignoreEntry : string :=
  cat [nl; "# OpenNext build output"; nl; ".open-next"; nl].

Definition updateGitignore : Comp state unit :=
  log "Updating .gitignore..." ;;
  sub <- gets (fun s => usesSubfolderGitignore (world s)) ;;
  let gitignorePath := if sub then subfolderGitignore else rootGitignore in
  when sub
       (log (cat ["Using .gitignore from subfolder: ";
                  interpolate (ConversionOptions.packageJsonPath o); "/.gitignore"])) ;;
  found <- gets (fun s => existsSync gitignorePath (world s)) ;;
  content <- (if found
              then in_world (readFileSync gitignorePath)
              else log "No existing .gitignore found, creating a new one" ;; ret "") ;;
  if negb (includes content ".open-next")
  then
    in_world (writeFileSync E gitignorePath (content +:+ gitignoreEntry)) ;;
    log "Added .open-next to .gitignore ✅"
  else log ".open-next already in .gitignore ✅".

Definition run : Comp state ConversionResult.t :=
  try_catch
    (log "Starting conversion pipeline..." ;;
     verifyNextJsProject ;;
     installDependencies ;;
     createOpenNextConfig ;;
     createWranglerConfig ;;
     updatePackageJson ;;
     removeConflictingReferences ;;
     updateGitignore ;;
     log "Conversion completed successfully! 🎉" ;;
     ls <- gets logs ;;
     ret (ConversionResult.mk true
            "Project successfully converted to use @opennextjs/cloudflare" ls))
    (fun error =>
       let errorMessage := error_message error in
       log (cat ["Error during conversion: "; errorMessage]) ;;
       ls <- gets logs ;;
       ret (ConversionResult.mk false (cat ["Conversion failed: "; errorMessage]) ls)).

(** [await new ConversionPipeline(o).run()] on the current world. *)
Definition runPipeline : Comp World ConversionResult.t :=
  fun w =>
    let '(r, s) := run (mkState [] w) in
    (r, world s).
End Methods.
End ConversionPipeline.

(** ** Repository acquisition (git-utils.ts) *)

Module CloneOptions.
Record t : Type := mk {
  repoUrl : string;
  projectId : string;
  branch : option string;
  storagePath : string
}.
End CloneOptions.

Module CloneResult.
Record t : Type := mk {
  success : bool;
  path : string;
  message : string;
  error : option thrown
}.
End CloneResult.

Module GitUtils.

(** [p] is [dir] or lies below it. *)
Definition under (dir p : string) : bool :=
  String.eqb p dir || String.prefix (dir +:+ "/") p.

Definition is_repo (w : World) (dir : string) : bool :=
  match dirs w !! dir with
  | Some GitRepo => true
  | _ => false
  end.

(** [repoUrl.trim().replace(/[quotes]/g, '')] *)
Definition cleanRepoUrl (repoUrl : string) : string :=
  remove_quotes (trim repoUrl).

(** The message of the outer [catch] of [cloneRepository]. *)
Definition classify (errorMessage : string) : string :=
  if includes errorMessage "Authentication failed"
  then "Authentication failed. This may be a private repository that requires credentials."
  else if includes errorMessage "not found"
  then "Repository not found. Please verify the URL is correct."
  else if includes errorMessage "already exists"
  then "Directory already exists and is not empty."
  else errorMessage.

Section Functions.
Variable E : Env.

(** A simple-git command.  The call is recorded and the files are those
    git leaves; a clone that succeeds makes its target a repository. *)
Definition git (c : git_cmd) : Comp World unit :=
  fun w =>
    let '(err, fs') := git_run E c w in
    let ds :=
      match c, err with
      | GitClone _ dir _, None => <[dir := GitRepo]> (dirs w)
      | _, _ => dirs w
      end in
    let w' := mkWorld fs' ds (calls w ++ [CallGit c]) in
    match err with
    | Some e => (inl e, w')
    | None => (inr tt, w')
    end.

(** [simpleGit(dir)]: the instance exists only for a directory. *)
Definition simpleGit (dir : string) : Comp World unit :=
  fun w =>
    match dirs w !! dir with
    | Some _ => (inr tt, w)
    | None =>
        (inl (JsError "Cannot use simple-git on a directory that does not exist"), w)
    end.

(** [await localGit.checkIsRepo()]: simple-git asks git whether the
    directory is inside a work tree, which is so for a repository and for a
    directory below the work tree of another one. *)
Definition checkIsRepo (dir : string) : Comp World bool :=
  inside <- gets (fun w => is_repo w dir || inside_work_tree E dir w) ;;
  git (GitCheckIsRepo dir) ;;
  ret inside.

(** [fs.mkdirSync(p, { recursive: true })] *)
Definition mkdirSync (p : string) : Comp World unit :=
  fun w =>
    let cs := (calls w ++ [CallMkdir p])%list in
    match mkdir_error E p w with
    | Some e => (inl e, mkWorld (files w) (dirs w) cs)
    | None => (inr tt, mkWorld (files w) (<[p := PlainDir]> (dirs w)) cs)
    end.

(** [fs.rmSync(p, { recursive: true, force: true })]: on success nothing
    is left at [p] or below it. *)
Definition rmSync (p : string) : Comp World unit :=
  fun w =>
    let cs := (calls w ++ [CallRm p])%list in
    match rm_error E p w with
    | Some e => (inl e, mkWorld (files w) (dirs w) cs)
    | None =>
        (inr tt,
         mkWorld (filter (fun kv => under p kv.1 = false) (files w))
                 (filter (fun kv => under p kv.1 = false) (dirs w))
                 cs)
    end.

(** Lines 56-99: the local path exists.  [Some r] is an early
    [return r]; [None] falls through to the clone. *)
Definition refreshExisting (projectDir : string) (branch : option string)
  : Comp World (option CloneResult.t) :=
  try_catch
    (simpleGit projectDir ;;
     isRepo <- checkIsRepo projectDir ;;
     if isRepo
     then
       when (truthy_str branch)
            (try_catch (git (GitCheckout projectDir (interpolate branch)))
                       (fun _ => ret tt)) ;;
       git (GitPull projectDir) ;;
       ret (Some (CloneResult.mk true projectDir
                    "Repository already exists locally. Pulled latest changes." None))
     else
       rmSync projectDir ;;
       ret None)
    (fun _ =>
       try_catch
         (rmSync projectDir ;;
          ret None)
         (fun rmError =>
            ret (Some (CloneResult.mk false projectDir
                         (cat ["Failed to prepare directory for cloning: ";
                               error_message rmError])
                         (Some (as_error "Unknown error" rmError)))))).

(** Lines 102-123: the clone itself. *)
Definition freshClone (repoUrl projectDir : string) (branch : option string)
  : Comp World CloneResult.t :=
  let cleanRepoUrl := cleanRepoUrl repoUrl in
  (if truthy_str branch
   then git (GitClone cleanRepoUrl projectDir ["-b"; interpolate branch])
   else git (GitClone cleanRepoUrl projectDir [])) ;;
  ret (CloneResult.mk true projectDir "Repository cloned successfully." None).

Definition cloneRepository (options : CloneOptions.t) : Comp World CloneResult.t :=
  let repoUrl := CloneOptions.repoUrl options in
  let projectId := CloneOptions.projectId options in
  let branch := CloneOptions.branch options in
  let storagePath := CloneOptions.storagePath options in
  let projectDir := path_join E [storagePath; projectId] in
  storageFound <- gets (existsSync storagePath) ;;
  early <- (if negb storageFound
            then
              try_catch
                (mkdirSync storagePath ;;
                 ret None)
                (fun error =>
                   ret (Some (CloneResult.mk false projectDir
                                (cat ["Failed to create storage directory: ";
                                      error_message error])
                                (Some (as_error "Unknown error" error)))))
            else ret None) ;;
  match early with
  | Some r => ret r
  | None =>
      try_catch
        (found <- gets (existsSync projectDir) ;;
         early <- (if found then refreshExisting projectDir branch else ret None) ;;
         match early with
         | Some r => ret r
         | None => freshClone repoUrl projectDir branch
         end)
        (fun error =>
           let errorMessage := classify (error_message error) in
           ret (CloneResult.mk false projectDir
                  (cat ["Failed to clone repository: "; errorMessage])
                  (Some (as_error errorMessage error))))
  end.

Definition createBranch (projectPath branchName : string) : Comp World bool :=
  try_catch
    (simpleGit projectPath ;;
     git (GitCheckoutLocalBranch projectPath branchName) ;;
     ret true)
    (fun _ => ret false).

Definition commitAndPush (projectPath message : string) : Comp World bool :=
  try_catch
    (simpleGit projectPath ;;
     git (GitAdd projectPath ".") ;;
     git (GitCommit projectPath message) ;;
     git (GitPush projectPath "origin" "HEAD") ;;
     ret true)
    (fun _ => ret false).
End Functions.
End GitUtils.

(** ** The job store and the orchestrator (api/convert/route.ts) *)

Inductive Status : Type :=
| idle
| cloning
| converting
| success
| failed.

(** [success] and [failed] are the terminal states. *)
Definition terminal (s : Status) : bool :=
  match s with
  | success | failed => true
  | _ => false
  end.

Module Job.
Record t : Type := mk {
  status : Status;
  logs : list string;
  message : option string;
  result : option ConversionResult.t;
  error : option string
}.
End Job.

(** ** The store object *)

(** [global.conversionStore] is a plain object.  Its entries are its own
    properties, one job by project identity.  A property read that finds no
    entry goes on to the prototype of the object.  That is
    [Object.prototype], with the methods named below and the accessor
    [__proto__], until an assignment to [__proto__] installs a job in its
    place: the assignment of a job under that name does not add an entry, it
    sets the prototype, and the members of that job are then found before
    those of [Object.prototype].  The map keeps the installed job under the
    key [__proto__], where a read of that name finds it. *)
Definition objectPrototypeMethods : list string :=
  ["constructor"; "__defineGetter__"; "__defineSetter__"; "hasOwnProperty";
   "__lookupGetter__"; "__lookupSetter__"; "isPrototypeOf"; "propertyIsEnumerable";
   "toString"; "valueOf"; "toLocaleString"].

Definition status_name (s : Status) : string :=
  match s with
  | idle => "idle"
  | cloning => "cloning"
  | converting => "converting"
  | success => "success"
  | failed => "failed"
  end.

(** What a read finds in the prototype: a method of [Object.prototype],
    [Object.prototype] itself, or a member of the installed job (its status,
    message or error, its log, its result). *)
Inductive inherited : Type :=
| Method (name : string)
| ObjectPrototype
| Text (s : string)
| Lines (l : list string)
| Outcome (r : ConversionResult.t).

(** [global.conversionStore[k]] *)
Inductive found : Type :=
| Entry (job : Job.t)
| Inherited (v : inherited)
| Undefined.

Definition jobMember (job : Job.t) (k : string) : option inherited :=
  if String.eqb k "status" then Some (Text (status_name (Job.status job)))
  else if String.eqb k "logs" then Some (Lines (Job.logs job))
  else if String.eqb k "message" then Text <$> Job.message job
  else if String.eqb k "result" then Outcome <$> Job.result job
  else if String.eqb k "error" then Text <$> Job.error job
  else None.

Definition lookup (store : gmap string Job.t) (k : string) : found :=
  match store !! k with
  | Some job => Entry job
  | None =>
      if String.eqb k "__proto__" then Inherited ObjectPrototype
      else
        match store !! "__proto__" ≫= (fun job => jobMember job k) with
        | Some v => Inherited v
        | None =>
            if bool_decide (k ∈ objectPrototypeMethods)
            then Inherited (Method k)
            else Undefined
        end
  end.

(** Truthiness of what a read finds: of the values above only the empty
    string is falsy. *)
Definition truthy_found (f : found) : bool :=
  match f with
  | Entry _ => true
  | Inherited (Text s) => negb (String.eqb s "")
  | Inherited _ => true
  | Undefined => false
  end.

(** The [options] object of a start request. *)
Module StartOptions.
Record t : Type := mk {
  enableKVCache : option bool;
  kvNamespaceId : option string;
  createBranch : option bool;
  branchName : option string;
  commitAndPush : option bool;
  packageJsonPath : option string
}.
End StartOptions.

Module ConvertRoute.

(** What happens to the store during a run, in program order: a write to
    the entry of a project (with the entry as the write leaves it), or
    an [await], where the event loop may run other tasks. *)
Inductive event : Type :=
| Mutated (projectId : string) (job : Job.t)
| Awaited.

(** [global.conversionStore], the world, and the history of the run. *)
Record state : Type := mkState {
  store : gmap string Job.t;
  world : World;
  events : list event
}.

Inductive response : Type :=
| Json (status : nat) (body : string).

Definition in_world {A : Type} (m : Comp World A) : Comp state A :=
  fun s =>
    let '(r, w) := m (world s) in
    (r, mkState (store s) w (events s)).

Definition await : Comp state unit :=
  modify (fun s => mkState (store s) (world s) (events s ++ [Awaited])).

(** [global.conversionStore[projectId] = job] *)
Definition put (projectId : string) (job : Job.t) : Comp state unit :=
  modify (fun s => mkState (<[projectId := job]> (store s)) (world s)
                           (events s ++ [Mutated projectId job])).

(** A write to the result object of the installed job. *)
Definition amend (result : ConversionResult.t) : Comp state unit :=
  fun s =>
    match store s !! "__proto__" with
    | Some job =>
        put "__proto__" (Job.mk (Job.status job) (Job.logs job) (Job.message job)
                                (Some result) (Job.error job)) s
    | None => (inr tt, s)
    end.

(** [global.conversionStore[projectId].logs.push(...messages)].  Where the
    store has no entry, the receiver is [undefined] or an inherited value;
    of these only a result object has a log. *)
Definition push (projectId : string) (messages : list string) : Comp state unit :=
  fun s =>
    match lookup (store s) projectId with
    | Entry job =>
        put projectId (Job.mk (Job.status job) (Job.logs job ++ messages) (Job.message job)
                              (Job.result job) (Job.error job)) s
    | Inherited (Outcome r) =>
        amend (ConversionResult.mk (ConversionResult.success r) (ConversionResult.message r)
                 (ConversionResult.logs r ++ messages)) s
    | Inherited _ =>
        (inl (JsError "Cannot read properties of undefined (reading 'push')"), s)
    | Undefined =>
        (inl (JsError "Cannot read properties of undefined (reading 'logs')"), s)
    end.

(** [global.conversionStore[projectId].member = value]: [set] is what the
    assignment does to a job, [setOutcome] what it does to a result object.
    Where the store has no entry, the assignment throws on [undefined] and
    on a string (the module is in strict mode); on a method, on
    [Object.prototype] and on an array it sets a property of a built-in
    object or of the log array, which the state does not keep.  A run that
    a start request begins never comes here: it finds the entry the request
    has made. *)
Definition assign (projectId : string) (set : Job.t -> Job.t)
  (setOutcome : ConversionResult.t -> ConversionResult.t) : Comp state unit :=
  fun s =>
    match lookup (store s) projectId with
    | Entry job => put projectId (set job) s
    | Inherited (Outcome r) => amend (setOutcome r) s
    | Inherited (Text _) =>
        (inl (JsError "Cannot create property on a string"), s)
    | Inherited _ => (inr tt, s)
    | Undefined =>
        (inl (JsError "Cannot set properties of undefined"), s)
    end.

(** [global.conversionStore[projectId].status = status]; a result object
    has no member of that name in [ConversionResult.t], nor of the names
    [result] and [error]. *)
Definition setStatus (projectId : string) (status : Status) : Comp state unit :=
  assign projectId
    (fun job => Job.mk status (Job.logs job) (Job.message job) (Job.result job) (Job.error job))
    (fun r => r).

(** [global.conversionStore[projectId].message = message] *)
Definition setMessage (projectId message : string) : Comp state unit :=
  assign projectId
    (fun job => Job.mk (Job.status job) (Job.logs job) (Some message)
                       (Job.result job) (Job.error job))
    (fun r => ConversionResult.mk (ConversionResult.success r) message (ConversionResult.logs r)).

(** [global.conversionStore[projectId].result = result] *)
Definition setResult (projectId : string) (result : ConversionResult.t) : Comp state unit :=
  assign projectId
    (fun job => Job.mk (Job.status job) (Job.logs job) (Job.message job)
                       (Some result) (Job.error job))
    (fun r => r).

(** [global.conversionStore[projectId].error = errorMsg] *)
Definition setError (projectId errorMsg : string) : Comp state unit :=
  assign projectId
    (fun job => Job.mk (Job.status job) (Job.logs job) (Job.message job)
                       (Job.result job) (Some errorMsg))
    (fun r => r).

Definition safelyUpdateConversionStatus
  (projectId : string) (status : Status) (message : string) (error : option thrown)
  : Comp state unit :=
  present <- gets (fun s => truthy_found (lookup (store s) projectId)) ;;
  when (negb present) (put projectId (Job.mk idle [] None None None)) ;;
  setStatus projectId status ;;
  setMessage projectId message ;;
  push projectId [message] ;;
  match error with
  | Some error =>
      let errorMsg := error_text error in
      push projectId [cat ["Error details: "; errorMsg]] ;;
      setError projectId errorMsg
  | None => ret tt
  end.

(** The options the orchestrator hands to the pipeline (lines 176-181). *)
Definition pipelineOptions (projectPath : string) (project : Project.t)
  (options : StartOptions.t) : ConversionOptions.t :=
  ConversionOptions.mk projectPath (Project.name project)
    (StartOptions.enableKVCache options) (StartOptions.kvNamespaceId options) None.

(** Lines 92-104: a repository described by the link field. *)
Definition repositoryOfLink (l : Link.t) : GitRepository.t :=
  GitRepository.mk (Link.type l)
    (cat [Link.org l; "/"; Link.repo l])
    (cat ["https://github.com/"; Link.org l; "/"; Link.repo l])
    (Link.productionBranch l).

Definition hasLinkRepository (project : Project.t) : bool :=
  match Project.link project with
  | Some l => String.eqb (Link.type l) "github"
  | None => false
  end.

Section Handlers.
Variable E : Env.

(** [options.member]: the request body may carry no [options].  The first
    member access, [options.createBranch] on line 163, throws then; every
    later access finds the object. *)
Definition optionsOf (options : option StartOptions.t) : Comp state StartOptions.t :=
  match options with
  | Some options => ret options
  | None => throw (JsError "Cannot read properties of undefined (reading 'createBranch')")
  end.

(** Lines 174-201: the pipeline, the optional publication and the final
    status. *)
Definition convertAndFinish (projectId : string) (project : Project.t)
  (projectPath : string) (options : StartOptions.t) : Comp state unit :=
  push projectId ["Starting conversion pipeline..."] ;;
  let pipeline := pipelineOptions projectPath project options in
  await ;;
  result <- in_world (ConversionPipeline.runPipeline E pipeline) ;;
  push projectId (ConversionResult.logs result) ;;
  when (ConversionResult.success result && truthy_bool (StartOptions.commitAndPush options))
       (push projectId ["Committing and pushing changes..."] ;;
        await ;;
        commitResult <- in_world (GitUtils.commitAndPush E projectPath
                                    "Convert to @opennextjs/cloudflare") ;;
        if commitResult
        then push projectId ["Changes committed and pushed successfully"]
        else push projectId ["Warning: Failed to commit and push changes"]) ;;
  setStatus projectId (if ConversionResult.success result then success else failed) ;;
  setMessage projectId (ConversionResult.message result) ;;
  setResult projectId result.

(** Lines 116-172: acquisition and the optional branch.  [Some] carries
    the checkout path on to the pipeline; [None] is the early [return]
    after a failed clone. *)
Definition acquire (projectId : string) (project : Project.t)
  (gitRepository : GitRepository.t) (options : option StartOptions.t)
  : Comp state (option string) :=
  push projectId [cat ["Fetching project details for "; Project.name project; "..."]] ;;
  push projectId [cat ["Repository: "; GitRepository.repo gitRepository]] ;;
  let storagePath :=
    if truthy_str (LOCAL_STORAGE_PATH E)
    then interpolate (LOCAL_STORAGE_PATH E)
    else "./tmp/projects" in
  let repoUrl := GitRepository.url gitRepository in
  let defaultBranch := GitRepository.defaultBranch gitRepository in
  let reformat :=
    String.eqb (GitRepository.type gitRepository) "github"
    && negb (startsWith repoUrl "https://")
    && negb (startsWith repoUrl "git@") in
  let formattedRepoUrl :=
    if reformat
    then cat ["https://github.com/"; GitRepository.repo gitRepository; ".git"]
    else repoUrl in
  when reformat
       (push projectId [cat ["Using formatted GitHub URL: "; formattedRepoUrl]]) ;;
  push projectId [cat ["Cloning repository from "; formattedRepoUrl; "..."]] ;;
  await ;;
  cloneResult <- in_world (GitUtils.cloneRepository E
                             (CloneOptions.mk formattedRepoUrl projectId
                                              (Some defaultBranch) storagePath)) ;;
  if negb (CloneResult.success cloneResult)
  then
    safelyUpdateConversionStatus projectId failed
      (cat ["Failed to clone repository: "; CloneResult.message cloneResult])
      (CloneResult.error cloneResult) ;;
    ret None
  else
    push projectId [CloneResult.message cloneResult] ;;
    setStatus projectId converting ;;
    let projectPath := CloneResult.path cloneResult in
    options <- optionsOf options ;;
    when (truthy_bool (StartOptions.createBranch options)
          && truthy_str (StartOptions.branchName options))
         (let branchName := interpolate (StartOptions.branchName options) in
          push projectId [cat ["Creating branch: "; branchName; "..."]] ;;
          await ;;
          branchCreated <- in_world (GitUtils.createBranch E projectPath branchName) ;;
          if negb branchCreated
          then push projectId [cat ["Warning: Failed to create branch "; branchName;
                                    ". Continuing on current branch."]]
          else push projectId [cat ["Created branch: "; branchName]]) ;;
    ret (Some projectPath).

(** Lines 87-172: everything before the pipeline.  [Some] carries the
    project and the checkout path on; [None] is an early [return]. *)
Definition prepare (projectId : string) (options : option StartOptions.t)
  : Comp state (option (Project.t * string)) :=
  await ;;
  project <- lift_sum (getProject E projectId) ;;
  let hasGitRepository := bool_decide (is_Some (Project.gitRepository project)) in
  let fromLink := negb hasGitRepository && hasLinkRepository project in
  let gitRepository :=
    match Project.link project with
    | Some l => if fromLink then Some (repositoryOfLink l) else Project.gitRepository project
    | None => Project.gitRepository project
    end in
  match Project.link project with
  | Some l =>
      when fromLink
           (push projectId [cat ["Detected Git repository from link field: ";
                                 Link.org l; "/"; Link.repo l]])
  | None => ret tt
  end ;;
  match gitRepository with
  | None =>
      safelyUpdateConversionStatus projectId failed
        "No git repository found for this project"
        (Some (JsError "Project doesn't have a connected Git repository")) ;;
      ret None
  | Some gitRepository =>
      acquired <- acquire projectId project gitRepository options ;;
      match acquired with
      | None => ret None
      | Some projectPath => ret (Some (project, projectPath))
      end
  end.

Definition startConversion (projectId : string) (options : option StartOptions.t)
  : Comp state unit :=
  try_catch
    (prepared <- prepare projectId options ;;
     match prepared with
     | None => ret tt
     | Some (project, projectPath) =>
         options <- optionsOf options ;;
         convertAndFinish projectId project projectPath options
     end)
    (fun error =>
       let errorMessage := error_message error in
       safelyUpdateConversionStatus projectId failed
         (cat ["Conversion process failed unexpectedly: "; errorMessage])
         (Some error)).

(** The start request.  [startConversion] is not awaited by the handler;
    the state returned is the one its background task ends in. *)
Definition POST (projectId : option string) (options : option StartOptions.t)
  : Comp state response :=
  if negb (truthy_str projectId)
  then ret (Json 400 "Project ID is required")
  else
    let projectId := interpolate projectId in
    put projectId (Job.mk cloning ["Initializing conversion process..."] None None None) ;;
    startConversion projectId options ;;
    ret (Json 200 "Conversion process started").
End Handlers.
End ConvertRoute.

(** ** The status feed (GET of the status route) *)

Module StatusFeed.


(** What the controller enqueues: the serialisation of a job, or that of an
    inherited value (for a method that is [undefined]). *)
Inductive sent : Type :=
| Snapshot (job : Job.t)
| Value (v : inherited).

Inductive response : Type :=
| BadRequest (error : string)
| Stream (snapshots : list sent) (closed : bool).




End StatusFeed.

(** ** Definitions that follow the specification *)





(** ** A concrete environment *)

(** An environment in which everything can be evaluated: [path.join] puts a
    slash between its segments, every process, git command and [fs] call
    succeeds and leaves the files as they are (the scan for the edge runtime
    finds nothing), and the serialiser is a bijection between JSON values and
    texts (a string of binary digits rather than JSON syntax). *)
Module Demo.

Fixpoint json_to_tree (j : json) : gen_tree (bool + Z + string) :=
  match j with
  | JNull => GenNode 0 []
  | JBool b => GenLeaf (inl (inl b))
  | JNum n => GenLeaf (inl (inr n))
  | JStr s => GenLeaf (inr s)
  | JArr l => GenNode 1 (map json_to_tree l)
  | JObj ms => GenNode 2 (map (fun '(k, v) => GenNode 3 [GenLeaf (inr k); json_to_tree v]) ms)
  end.

Fixpoint tree_to_json (t : gen_tree (bool + Z + string)) : option json :=
  match t with
  | GenLeaf (inl (inl b)) => Some (JBool b)
  | GenLeaf (inl (inr n)) => Some (JNum n)
  | GenLeaf (inr s) => Some (JStr s)
  | GenNode 0 [] => Some JNull
  | GenNode 1 ts => JArr <$> mapM tree_to_json ts
  | GenNode 2 ts =>
      JObj <$> mapM (fun t =>
                       match t with
                       | GenNode 3 [GenLeaf (inr k); tv] =>
                           match tree_to_json tv with
                           | Some v => Some (k, v)
                           | None => None
                           end
                       | _ => None
                       end) ts
  | _ => None
  end.

Fixpoint pos_bits (p : positive) : string :=
  match p with
  | xH => ""
  | xO p => String "0" (pos_bits p)
  | xI p => String "1" (pos_bits p)
  end.

Fixpoint bits_pos (s : string) : option positive :=
  match s with
  | EmptyString => Some xH
  | String c s =>
      match bits_pos s with
      | Some p =>
          if Ascii.eqb c "0" then Some (xO p)
          else if Ascii.eqb c "1" then Some (xI p)
          else None
      | None => None
      end
  end.

Definition stringify (j : json) : string := pos_bits (encode (json_to_tree j)).

Definition parse (text : string) : thrown + json :=
  match bits_pos text with
  | Some p =>
      match decode p with
      | Some t =>
          match tree_to_json t with
          | Some j => inr j
          | None => inl (JsError "Unexpected token in JSON")
          end
      | None => inl (JsError "Unexpected token in JSON")
      end
  | None => inl (JsError "Unexpected token in JSON")
  end.

Definition join (segments : list string) : string := String.concat "/" segments.

(** The scan finds nothing ([grep] exits with 1); every other command
    succeeds silently. *)
Definition exec (cmd cwd : string) (w : World) : exec_result * gmap string string :=
  if String.eqb cmd ConversionPipeline.grep_edge_cmd
  then (ExecFailed 1 (cat ["Command failed: "; cmd]), files w)
  else (ExecOk "", files w).

Definition shop : Project.t :=
  Project.mk "shop"
    (Some (GitRepository.mk "github" "acme/shop" "https://github.com/acme/shop" "main"))
    None.

Definition env : Env :=
  mkEnv join parse stringify exec
        (fun _ _ => None) (fun _ _ => None) (fun _ _ => None)
        (fun _ w => (None, files w))
        (fun _ => inr shop)
        (Some "/store")
        (fun _ _ => false).

(** A manifest of a Next.js project that still uses next-on-pages. *)
Definition manifest : json :=
  JObj [("name", JStr "shop");
        ("dependencies", JObj [("next", JStr "14.0.0");
                               ("@cloudflare/next-on-pages", JStr "1.0.0")]);
        ("scripts", JObj [("dev", JStr "next dev"); ("deploy", JStr "vercel deploy")])].

(** A manifest without the framework. *)
Definition plainManifest : json :=
  JObj [("name", JStr "shop"); ("dependencies", JObj [("react", JStr "18.2.0")])].

(** A checkout of [manifest] below the storage root. *)
Definition checkout (m : json) : World :=
  mkWorld {[ "/store/prj_1/package.json" := stringify m ]}
          {[ "/store" := PlainDir; "/store/prj_1" := GitRepo ]}
          [].

Definition options (cache : option bool) (ns : option string) : ConversionOptions.t :=
  ConversionOptions.mk "/store/prj_1" "shop" cache ns None.

End Demo.

(** A start request's options with another manifest sub-path. *)
Definition withSubPath (subPath : option string) (options : StartOptions.t) : StartOptions.t :=
  StartOptions.mk (StartOptions.enableKVCache options) (StartOptions.kvNamespaceId options)
    (StartOptions.createBranch options) (StartOptions.branchName options)
    (StartOptions.commitAndPush options) subPath.

(** Following the spec's words (4.1 and 8): the URL is trimmed and the quote
    characters surrounding it are stripped, and nothing else. *)
Fixpoint stripQuotesStart (s : string) : string :=
  match s with
  | EmptyString => EmptyString
  | String a s' => if is_quote a then stripQuotesStart s' else s
  end.

Fixpoint stripQuotesEnd (s : string) : string :=
  match s with
  | EmptyString => EmptyString
  | String a s' =>
      match stripQuotesEnd s' with
      | EmptyString => if is_quote a then EmptyString else String a EmptyString
      | t => String a t
      end
  end.

Definition sanitizeSurrounding (repoUrl : string) : string :=
  stripQuotesEnd (stripQuotesStart (trim repoUrl)).

(** Every character of [s] satisfies [p]. *)
Fixpoint all_chars (p : ascii -> bool) (s : string) : bool :=
  match s with
  | EmptyString => true
  | String a s' => p a && all_chars p s'
  end.

(** The two log lines of the scan. *)
Definition edgeWarning : string :=
  "⚠️ WARNING: Edge Runtime usage detected. These will be removed during conversion.".

Definition edgeAbsent : string := "No Edge Runtime usage detected ✅".

(** The line the scan logs for each outcome of the search process. *)
Definition scanLine (r : exec_result) : string :=
  match r with
  | ExecOk stdout => if negb (String.eqb (trim stdout) "") then edgeWarning else edgeAbsent
  | ExecFailed _ _ => edgeAbsent
  end.

(** Following the spec's words (4.2, step 1): a failed scan says no matches
    found when the search exits with status 1; any other failure is a tooling
    error. *)
Definition noMatchesFound (r : exec_result) : bool :=
  match r with
  | ExecFailed code _ => (code =? 1)%nat
  | ExecOk _ => false
  end.

Definition toolingError (r : exec_result) : bool :=
  match r with
  | ExecFailed code _ => negb (code =? 1)%nat
  | ExecOk _ => false
  end.

(** [Demo.env] with a search process that breaks:  [grep] exits with
    status 2. *)
Definition brokenGrepEnv : Env :=
  mkEnv Demo.join Demo.parse Demo.stringify
        (fun cmd cwd w => (ExecFailed 2 "grep: ./app: Permission denied", files w))
        (fun _ _ => None) (fun _ _ => None) (fun _ _ => None)
        (fun _ w => (None, files w))
        (fun _ => inr Demo.shop)
        (Some "/store")
        (fun _ _ => false).

(** A state of the orchestrator, described from the state [s] a stretch of
    the run started in: the entry of the project is now [job], the world is
    [w], and the events [evs] have been added. *)
Definition ran (projectId : string) (job : Job.t) (w : World)
  (evs : list ConvertRoute.event) (s : ConvertRoute.state) : ConvertRoute.state :=
  ConvertRoute.mkState (<[projectId := job]> (ConvertRoute.store s)) w
    (ConvertRoute.events s ++ evs).

(** The log line for the outcome of the commit and push. *)
Definition commitLine (commitResult : bool) : string :=
  if commitResult
  then "Changes committed and pushed successfully"
  else "Warning: Failed to commit and push changes".

(** [Demo.env] with a remote that refuses the push. *)
Definition pushFailsEnv : Env :=
  mkEnv Demo.join Demo.parse Demo.stringify Demo.exec
        (fun _ _ => None) (fun _ _ => None) (fun _ _ => None)
        (fun c w =>
           match c with
           | GitPush _ _ _ => (Some (JsError "remote: Permission to acme/shop.git denied"), files w)
           | _ => (None, files w)
           end)
        (fun _ => inr Demo.shop)
        (Some "/store")
        (fun _ _ => false).

(** A start request that asks for the commit and push. *)
Definition publishOptions : StartOptions.t :=
  StartOptions.mk (Some false) (Some "") (Some false) (Some "cloudflare-migration")
                  (Some true) (Some "").

(** The store and world a start request finds. *)
Definition freshState (w : World) : ConvertRoute.state :=
  ConvertRoute.mkState ∅ w [].

(** The state a start request for project prj_1 leaves when it hands over
    to [startConversion]: the entry has just been created. *)
Definition requested (w : World) : ConvertRoute.state :=
  ConvertRoute.mkState
    {[ "prj_1" := Job.mk cloning ["Initializing conversion process..."] None None None ]}
    w
    [ConvertRoute.Mutated "prj_1"
       (Job.mk cloning ["Initializing conversion process..."] None None None)].

(** The value a computation returned ([d] when it threw). *)
Definition returned {A : Type} (d : A) (r : thrown + A) : A :=
  match r with
  | inr a => a
  | inl _ => d
  end.

(** The git call of [cloneRepository] for the cleaned URL: the branch, when
    there is one, is a separate pair of arguments. *)
Definition cloneCall (E : Env) (options : CloneOptions.t) : call :=
  CallGit (GitClone (GitUtils.cleanRepoUrl (CloneOptions.repoUrl options))
             (path_join E [CloneOptions.storagePath options; CloneOptions.projectId options])
             (if truthy_str (CloneOptions.branch options)
              then ["-b"; interpolate (CloneOptions.branch options)]
              else [])).


(** A storage root in which the directory of project prj_1 is left over from
    an interrupted clone: it is there, and it is no repository. *)
Definition leftover : World :=
  mkWorld {[ "/store/prj_1/README.md" := "# shop" ]}
          {[ "/store" := PlainDir; "/store/prj_1" := PlainDir ]}
          [].

Definition shopClone : CloneOptions.t :=
  CloneOptions.mk "https://github.com/acme/shop" "prj_1" (Some "main") "/store".

(** Following the spec's words (4.2): the seven steps, in their fixed
    order. *)
Definition steps (E : Env) (o : ConversionOptions.t)
  : list (Comp ConversionPipeline.state unit) :=
  [ConversionPipeline.verifyNextJsProject E o;
   ConversionPipeline.installDependencies E o;
   ConversionPipeline.createOpenNextConfig E o;
   ConversionPipeline.createWranglerConfig E o;
   ConversionPipeline.updatePackageJson E o;
   ConversionPipeline.removeConflictingReferences E o;
   ConversionPipeline.updateGitignore E o].

(** Following the spec's words: the steps are executed strictly in order,
    each on the state the one before it left, and the first step that fails
    aborts all later ones.  The result is the error of the failing step, if
    any, the number of steps completed, and the state reached. *)
Fixpoint runSteps (l : list (Comp ConversionPipeline.state unit))
  (s : ConversionPipeline.state) : option thrown * nat * ConversionPipeline.state :=
  match l with
  | [] => (None, 0, s)
  | step :: later =>
      match step s with
      | (inl e, s') => (Some e, 0, s')
      | (inr _, s') =>
          let '(outcome, n, s'') := runSteps later s' in
          (outcome, S n, s'')
      end
  end.

(** Following the spec's words: the run reports success after a final
    success line, or failure with the accumulated log. *)
Definition report (outcome : option thrown) (logs : list string) : ConversionResult.t :=
  match outcome with
  | None =>
      ConversionResult.mk true "Project successfully converted to use @opennextjs/cloudflare"
        (logs ++ ["Conversion completed successfully! 🎉"])
  | Some e =>
      ConversionResult.mk false (cat ["Conversion failed: "; error_message e])
        (logs ++ [cat ["Error during conversion: "; error_message e]])
  end.

(** The message of step 1 for a manifest without the framework. *)
Definition notNextJs : string :=
  "This project does not appear to be a Next.js project (next package not found)".

(** The log lines of step 1 up to the look at the manifest. *)
Definition verifyingLines (o : ConversionOptions.t) : list string :=
  "Verifying Next.js project..."
  :: (if truthy_str (ConversionOptions.packageJsonPath o)
      then [cat ["Using custom package.json path: ";
                 interpolate (ConversionOptions.packageJsonPath o)]]
      else []).

(** What [run] returns after the steps have run: the report, with the
    instance's log equal to the reported one. *)
Definition concluded (r : option thrown * nat * ConversionPipeline.state)
  : (thrown + ConversionResult.t) * ConversionPipeline.state :=
  let '(outcome, _, s') := r in
  let result := report outcome (ConversionPipeline.logs s') in
  (inr result,
   ConversionPipeline.mkState (ConversionResult.logs result) (ConversionPipeline.world s')).

(** The state of the pipeline after its opening log line. *)
Definition started (s : ConversionPipeline.state) : ConversionPipeline.state :=
  ConversionPipeline.mkState
    (ConversionPipeline.logs s ++ ["Starting conversion pipeline..."])
    (ConversionPipeline.world s).

#[global] Instance Status_eq_dec : EqDecision Status.
Proof. solve_decision. Defined.





(** [Demo.env] with a project that has no repository connected. *)
Definition noRepositoryEnv : Env :=
  mkEnv Demo.join Demo.parse Demo.stringify Demo.exec
        (fun _ _ => None) (fun _ _ => None) (fun _ _ => None)
        (fun _ w => (None, files w))
        (fun _ => inr (Project.mk "shop" None None))
        (Some "/store")
        (fun _ _ => false).

(** A computation started in a state with [P] returns [a] in a state with
    [Q a], or throws in a state with [X]. *)
Definition triple {S A : Type} (P : S -> Prop) (m : Comp S A)
  (Q : A -> S -> Prop) (X : S -> Prop) : Prop :=
  forall s, P s ->
    match m s with
    | (inr a, s') => Q a s'
    | (inl _, s') => X s'
    end.



(** The files the pipeline writes: the manifest, the two generated
    configuration files and the ignore files it may choose between. *)
Definition tracked (E : Env) (o : ConversionOptions.t) : list string :=
  [ConversionPipeline.getPackageJsonPath E o;
   ConversionPipeline.openNextConfigPath E o;
   ConversionPipeline.wranglerPath E o;
   ConversionPipeline.rootGitignore E o]
  ++ (if truthy_str (ConversionOptions.packageJsonPath o)
      then [ConversionPipeline.subfolderGitignore E o]
      else []).

(** The ignore file [updateGitignore] settles on in the world [w]. *)
Definition gitignorePath (E : Env) (o : ConversionOptions.t) (w : World) : string :=
  if ConversionPipeline.usesSubfolderGitignore E o w
  then ConversionPipeline.subfolderGitignore E o
  else ConversionPipeline.rootGitignore E o.

(** The manifest objects the pipeline prints: what [JSON.parse] returned,
    with the scripts set and next-on-pages removed, or not. *)
Inductive printable (E : Env) : json -> Prop :=
| printable_parsed (text : string) (v : json) :
    JSON_parse E text = inr v -> printable E v
| printable_scripts (v v' : json) :
    printable E v -> ConversionPipeline.setScripts v = inr v' -> printable E v'
| printable_removed (v : json) (group : string) :
    printable E v -> printable E (ConversionPipeline.deleteNextOnPages v group).

(** [JSON.parse] reads back what [JSON.stringify] printed, for the objects
    the pipeline prints. *)
Definition round_trip (E : Env) : Prop :=
  forall j, printable E j -> JSON_parse E (JSON_stringify E j) = inr j.

(** The scan for the edge runtime in the project directory leaves the files
    the pipeline writes as they are.  So does the removal of the edge
    runtime declarations in the directory of the manifest, where the
    build-adapter config (the one file of the pipeline with a name the
    removal goes through) has its generated text, which has no such
    declaration. *)
Definition searchesKeep (E : Env) (o : ConversionOptions.t) : Prop :=
  forall w p,
    In p (tracked E o) ->
    (execAsync E ConversionPipeline.grep_edge_cmd (ConversionOptions.projectPath o) w).2 !! p
    = files w !! p
    /\ (files w !! ConversionPipeline.openNextConfigPath E o
        = Some (ConversionPipeline.openNextConfig o) ->
        (execAsync E ConversionPipeline.sed_edge_cmd (ConversionPipeline.manifestDir E o) w).2 !! p
        = files w !! p).

(** The installation has nothing left to do on a checkout whose tracked
    files are those of [w1]: it leaves them as they are. *)
Definition installSettled (E : Env) (o : ConversionOptions.t) (w1 : World) : Prop :=
  forall w p,
    (forall q, In q (tracked E o) -> files w !! q = files w1 !! q) ->
    In p (tracked E o) ->
    (execAsync E ConversionPipeline.npm_install_cmd (ConversionPipeline.manifestDir E o) w).2 !! p
    = files w !! p.

(** The manifest object needs no removal of next-on-pages from [group]. *)
Definition clean (packageJson : json) (group : string) : Prop :=
  truthy (member_opt (member packageJson group) ConversionPipeline.nextOnPages) = false.

(** The three assignments of [updatePackageJson] to the scripts object. *)
Definition setThree (scripts : json) : thrown + json :=
  match set_member scripts "preview" (JStr ConversionPipeline.previewScript) with
  | inl e => inl e
  | inr s1 =>
      match set_member s1 "deploy" (JStr ConversionPipeline.deployScript) with
      | inl e => inl e
      | inr s2 => set_member s2 "cf-typegen" (JStr ConversionPipeline.typegenScript)
      end
  end.

(** A checkout as a successful run leaves it: both configuration files have
    their generated text, the manifest is the print of an object of the
    pipeline whose scripts are set and which has no next-on-pages left, and
    the ignore file has the entry. *)
Definition converted (E : Env) (o : ConversionOptions.t) (w : World) : Prop :=
  files w !! ConversionPipeline.openNextConfigPath E o
  = Some (ConversionPipeline.openNextConfig o)
  /\ files w !! ConversionPipeline.wranglerPath E o
     = Some (ConversionPipeline.wranglerConfig o)
  /\ (exists packageJson,
        files w !! ConversionPipeline.getPackageJsonPath E o
        = Some (JSON_stringify E packageJson)
        /\ printable E packageJson
        /\ ConversionPipeline.setScripts packageJson = inr packageJson
        /\ clean packageJson "dependencies"
        /\ clean packageJson "devDependencies")
  /\ (exists content,
        files w !! gitignorePath E o w = Some content
        /\ includes content ".open-next" = true).

(** The world [w] has the directories and the tracked files of [w1]. *)
Definition agrees (E : Env) (o : ConversionOptions.t) (w1 w : World) : Prop :=
  dirs w = dirs w1
  /\ forall p, In p (tracked E o) -> files w !! p = files w1 !! p.

(** What an installation does to a manifest object: the two packages are
    listed among the devDependencies. *)
Definition addDevDependencies (ms : list (string * json)) : list (string * json) :=
  let dev := match assoc_get "devDependencies" ms with
             | Some (JObj d) => d
             | _ => []
             end in
  assoc_set "devDependencies"
    (JObj (assoc_set "wrangler" (JStr "^4.0.0")
             (assoc_set "@opennextjs/cloudflare" (JStr "^1.0.0") dev)))
    ms.

(** [Demo.exec] with an installation that rewrites the manifest of its
    working directory. *)
Definition installingExec (cmd cwd : string) (w : World) : exec_result * gmap string string :=
  if String.eqb cmd ConversionPipeline.npm_install_cmd
  then
    let manifestPath := Demo.join [cwd; "package.json"] in
    match files w !! manifestPath with
    | Some text =>
        match Demo.parse text with
        | inr (JObj ms) =>
            (ExecOk "added 2 packages",
             <[manifestPath := Demo.stringify (JObj (addDevDependencies ms))]> (files w))
        | _ => (ExecFailed 1 "npm ERR! code EJSONPARSE", files w)
        end
    | None => (ExecFailed 254 "npm ERR! code ENOENT", files w)
    end
  else Demo.exec cmd cwd w.

Definition installingEnv : Env :=
  mkEnv Demo.join Demo.parse Demo.stringify installingExec
        (fun _ _ => None) (fun _ _ => None) (fun _ _ => None)
        (fun _ w => (None, files w))
        (fun _ => inr Demo.shop)
        (Some "/store")
        (fun _ _ => false).

(** The clone command of [cloneRepository]: [cloneCall] is the call of it. *)
Definition cloneCommand (E : Env) (options : CloneOptions.t) : git_cmd :=
  GitClone (GitUtils.cleanRepoUrl (CloneOptions.repoUrl options))
    (path_join E [CloneOptions.storagePath options; CloneOptions.projectId options])
    (if truthy_str (CloneOptions.branch options)
     then ["-b"; interpolate (CloneOptions.branch options)]
     else []).

(** The checkout that precedes the pull of an existing repository, when a
    branch is given. *)
Definition checkoutCalls (projectDir : string) (branch : option string) : list call :=
  if truthy_str branch
  then [CallGit (GitCheckout projectDir (interpolate branch))]
  else [].

(** [Demo.env] with a remote that cannot be pulled from. *)
Definition pullFailsEnv : Env :=
  mkEnv Demo.join Demo.parse Demo.stringify Demo.exec
        (fun _ _ => None) (fun _ _ => None) (fun _ _ => None)
        (fun c w =>
           match c with
           | GitPull _ => (Some (JsError "fatal: unable to access the remote"), files w)
           | _ => (None, files w)
           end)
        (fun _ => inr Demo.shop)
        (Some "/store")
        (fun _ _ => false).

(** [Demo.env] with a storage root that cannot be created. *)
Definition readOnlyEnv : Env :=
  mkEnv Demo.join Demo.parse Demo.stringify Demo.exec
        (fun _ _ => None)
        (fun p _ => Some (JsError (cat ["EROFS: read-only file system, mkdir '"; p; "'"])))
        (fun _ _ => None)
        (fun _ w => (None, files w))
        (fun _ => inr Demo.shop)
        (Some "/store")
        (fun _ _ => false).

(** [Demo.env] with a remote that does not know the repository. *)
Definition unknownRepositoryEnv : Env :=
  mkEnv Demo.join Demo.parse Demo.stringify Demo.exec
        (fun _ _ => None) (fun _ _ => None) (fun _ _ => None)
        (fun c w =>
           match c with
           | GitClone _ _ _ =>
               (Some (JsError "remote: Repository not found."), files w)
           | _ => (None, files w)
           end)
        (fun _ => inr Demo.shop)
        (Some "/store")
        (fun _ _ => false).

(** A world without anything in it, and one with the storage root only. *)
Definition emptyWorld : World := mkWorld ∅ ∅ [].

Definition storageOnly : World := mkWorld ∅ {[ "/store" := PlainDir ]} [].

(** Lines 121-146 of [startConversion]: the options of the clone, for the
    repository [g] of project [projectId]. *)
Definition cloneOptionsFor (E : Env) (projectId : string) (g : GitRepository.t)
  : CloneOptions.t :=
  let repoUrl := GitRepository.url g in
  CloneOptions.mk
    (if String.eqb (GitRepository.type g) "github"
        && negb (startsWith repoUrl "https://")
        && negb (startsWith repoUrl "git@")
     then cat ["https://github.com/"; GitRepository.repo g; ".git"]
     else repoUrl)
    projectId
    (Some (GitRepository.defaultBranch g))
    (if truthy_str (LOCAL_STORAGE_PATH E)
     then interpolate (LOCAL_STORAGE_PATH E)
     else "./tmp/projects").

(** What [safelyUpdateConversionStatus] makes of an entry. *)
Definition safelyUpdated (status : Status) (message : string) (error : option thrown)
  (job : Job.t) : Job.t :=
  Job.mk status
    (Job.logs job ++ [message]
     ++ match error with
        | Some e => [cat ["Error details: "; error_text e]]
        | None => []
        end)
    (Some message)
    (Job.result job)
    (match error with
     | Some e => Some (error_text e)
     | None => Job.error job
     end).


(** The log of the entry after the writes [evs], when it was [init] before
    them. *)
Fixpoint lastLogs (init : list string) (evs : list ConvertRoute.event) : list string :=
  match evs with
  | [] => init
  | ConvertRoute.Awaited :: later => lastLogs init later
  | ConvertRoute.Mutated _ job :: later => lastLogs (Job.logs job) later
  end.

(** Every write of [evs] is to the entry of [projectId], and leaves a log
    that begins with the log the write before it left ([init] for the first
    one). *)
Fixpoint appendOnly (projectId : string) (init : list string)
  (evs : list ConvertRoute.event) : bool :=
  match evs with
  | [] => true
  | ConvertRoute.Awaited :: later => appendOnly projectId init later
  | ConvertRoute.Mutated p job :: later =>
      String.eqb p projectId
      && bool_decide (init `prefix_of` Job.logs job)
      && appendOnly projectId (Job.logs job) later
  end.

(** The run of [projectId] has so far only appended to the log: the events
    since [past] are append-only from [init], and the entry has the log the
    last of them left. *)
Definition growing (projectId : string) (past : list ConvertRoute.event)
  (init : list string) (s : ConvertRoute.state) : Prop :=
  exists job evs,
    ConvertRoute.store s !! projectId = Some job
    /\ ConvertRoute.events s = (past ++ evs)%list
    /\ appendOnly projectId init evs = true
    /\ lastLogs init evs = Job.logs job.

(** [Demo.env] with a repository that already has the branch. *)
Definition branchExistsEnv : Env :=
  mkEnv Demo.join Demo.parse Demo.stringify Demo.exec
        (fun _ _ => None) (fun _ _ => None) (fun _ _ => None)
        (fun c w =>
           match c with
           | GitCheckoutLocalBranch _ name =>
               (Some (JsError (cat ["fatal: a branch named '"; name; "' already exists"])),
                files w)
           | _ => (None, files w)
           end)
        (fun _ => inr Demo.shop)
        (Some "/store")
        (fun _ _ => false).

(** A start request that asks for a branch. *)
Definition branchOptions : StartOptions.t :=
  StartOptions.mk None None (Some true) (Some "cloudflare-migration") None None.

(** [Demo.env] with a package registry that cannot be reached. *)
Definition registryDownEnv : Env :=
  mkEnv Demo.join Demo.parse Demo.stringify
        (fun cmd cwd w =>
           if String.eqb cmd ConversionPipeline.npm_install_cmd
           then (ExecFailed 1 "npm ERR! network request failed", files w)
           else Demo.exec cmd cwd w)
        (fun _ _ => None) (fun _ _ => None) (fun _ _ => None)
        (fun _ w => (None, files w))
        (fun _ => inr Demo.shop)
        (Some "/store")
        (fun _ _ => false).

(** [unknownRepositoryEnv] with a project that is known by its link only. *)
Definition linkedEnv : Env :=
  mkEnv Demo.join Demo.parse Demo.stringify Demo.exec
        (fun _ _ => None) (fun _ _ => None) (fun _ _ => None)
        (fun c w =>
           match c with
           | GitClone _ _ _ =>
               (Some (JsError "remote: Repository not found."), files w)
           | _ => (None, files w)
           end)
        (fun _ => inr (Project.mk "shop" None (Some (Link.mk "github" "acme" "shop" "main"))))
        (Some "/store")
        (fun _ _ => false).







(** Following the property's words: the commands of [commitAndPush] in
    their order. *)
Definition publishCommands (projectPath message : string) : list git_cmd :=
  [GitAdd projectPath "."; GitCommit projectPath message; GitPush projectPath "origin" "HEAD"].

(** Following the property's words: the commands are run in order, each in
    the world the one before it left, up to the first one that fails.  The
    result is the number of commands run, whether all of them went through,
    and the world reached. *)
Fixpoint runUntilFailure (E : Env) (cs : list git_cmd) (w : World) : nat * bool * World :=
  match cs with
  | [] => (0, true, w)
  | c :: later =>
      match GitUtils.git E c w with
      | (inl _, w') => (1, false, w')
      | (inr _, w') =>
          let '(n, ok, w'') := runUntilFailure E later w' in
          (S n, ok, w'')
      end
  end.

(** * Proofs *)

(** ** Running computations *)

Ltac comp_unfold :=
  unfold when in *;
  unfold bind, ret, throw, try_catch, gets, modify, lift_sum in *.

Lemma bind_run {S A B : Type} (m : Comp S A) (k : A -> Comp S B) (s : S) :
  bind m k s =
  match m s with
  | (inr a, s') => k a s'
  | (inl e, s') => (inl e, s')
  end.
Proof. reflexivity. Qed.

Lemma try_catch_run {S A : Type} (m : Comp S A) (h : thrown -> Comp S A) (s : S) :
  try_catch m h s =
  match m s with
  | (inl e, s') => h e s'
  | (inr a, s') => (inr a, s')
  end.
Proof. reflexivity. Qed.

Lemma bind_ok {S A B : Type} (m : Comp S A) (k : A -> Comp S B) (s s' : S) (a : A) :
  m s = (inr a, s') -> bind m k s = k a s'.
Proof. intros H. unfold bind. by rewrite H. Qed.

Lemma bind_fail {S A B : Type} (m : Comp S A) (k : A -> Comp S B) (s s' : S) (e : thrown) :
  m s = (inl e, s') -> bind m k s = (inl e, s').
Proof. intros H. unfold bind. by rewrite H. Qed.

Lemma try_ok {S A : Type} (m : Comp S A) (h : thrown -> Comp S A) (s s' : S) (a : A) :
  m s = (inr a, s') -> try_catch m h s = (inr a, s').
Proof. intros H. unfold try_catch. by rewrite H. Qed.

Lemma try_fail {S A : Type} (m : Comp S A) (h : thrown -> Comp S A) (s s' : S) (e : thrown) :
  m s = (inl e, s') -> try_catch m h s = h e s'.
Proof. intros H. unfold try_catch. by rewrite H. Qed.

(** ** Strings *)

Lemma append_cons (x : ascii) (a b : string) : String x a +:+ b = String x (a +:+ b).
Proof. reflexivity. Qed.

Lemma append_nil_l (a : string) : "" +:+ a = a.
Proof. reflexivity. Qed.

Lemma append_nil_r (a : string) : a +:+ "" = a.
Proof. induction a as [| c a IH]; [reflexivity |]. by rewrite append_cons, IH. Qed.

Lemma append_assoc (a b c : string) : (a +:+ b) +:+ c = a +:+ (b +:+ c).
Proof. induction a as [| x a IH]; [reflexivity |]. by rewrite !append_cons, IH. Qed.




(** ** C2: the cache flag and the two generated configs *)

Section GeneratedConfigs.
Variable E : Env.
Variable o : ConversionOptions.t.

Lemma writeFileSync_ok p text w w' :
  writeFileSync E p text w = (inr tt, w') ->
  files w' = <[p := text]> (files w) /\ dirs w' = dirs w /\ calls w' = calls w.
Proof.
  unfold writeFileSync.
  destruct (dirs w !! p); [discriminate |].
  destruct (write_error E p w); [discriminate |].
  intros [= <-]. done.
Qed.


Lemma createWranglerConfig_writes s s' :
  ConversionPipeline.createWranglerConfig E o s = (inr tt, s') ->
  files (ConversionPipeline.world s') !! ConversionPipeline.wranglerPath E o
  = Some (ConversionPipeline.wranglerConfig o).
Proof.
  unfold ConversionPipeline.createWranglerConfig, ConversionPipeline.log,
    ConversionPipeline.in_world.
  comp_unfold. simpl.
  destruct (writeFileSync E _ _ _) as [[e | []] w'] eqn:Hw; [discriminate |].
  intros [= <-]. simpl.
  apply writeFileSync_ok in Hw as (-> & _ & _). simpl.
  apply lookup_insert_eq.
Qed.

Lemma createOpenNextConfig_writes s s' :
  ConversionPipeline.createOpenNextConfig E o s = (inr tt, s') ->
  files (ConversionPipeline.world s') !! ConversionPipeline.openNextConfigPath E o
  = Some (ConversionPipeline.openNextConfig o).
Proof.
  unfold ConversionPipeline.createOpenNextConfig, ConversionPipeline.log,
    ConversionPipeline.in_world.
  comp_unfold. simpl.
  destruct (writeFileSync E _ _ _) as [[e | []] w'] eqn:Hw; [discriminate |].
  intros [= <-]. simpl.
  apply writeFileSync_ok in Hw as (-> & _ & _). simpl.
  apply lookup_insert_eq.
Qed.


End GeneratedConfigs.

Section Printing.







End Printing.




(** ** C10: the manifest sub-path of a start request *)

(** C10.  The orchestrator builds the pipeline's options without a manifest
    sub-path, whatever sub-path the start request carries.  The pipeline
    therefore takes the manifest, both generated config files and the ignore
    file from the checkout root, and a start request behaves the same for
    every sub-path in its options. *)
Theorem orchestrator_drops_manifest_subpath (E : Env) (projectPath : string)
  (project : Project.t) (options : StartOptions.t) (subPath : option string) :
  let po := ConvertRoute.pipelineOptions projectPath project (withSubPath subPath options) in
  ConversionOptions.packageJsonPath po = None
  /\ po = ConvertRoute.pipelineOptions projectPath project options
  /\ ConversionPipeline.manifestDir E po = projectPath
  /\ ConversionPipeline.getPackageJsonPath E po = path_join E [projectPath; "package.json"]
  /\ ConversionPipeline.openNextConfigPath E po
     = path_join E [projectPath; "open-next.config.ts"]
  /\ ConversionPipeline.wranglerPath E po = path_join E [projectPath; "wrangler.jsonc"]
  /\ ConversionPipeline.rootGitignore E po = path_join E [projectPath; ".gitignore"]
  /\ (forall w, ConversionPipeline.usesSubfolderGitignore E po w = false)
  /\ (forall projectId,
        ConvertRoute.convertAndFinish E projectId project projectPath (withSubPath subPath options)
        = ConvertRoute.convertAndFinish E projectId project projectPath options)
  /\ (forall projectId,
        ConvertRoute.startConversion E projectId (Some (withSubPath subPath options))
        = ConvertRoute.startConversion E projectId (Some options)).
Proof.
  cbv zeta. repeat split; reflexivity.
Qed.

(** ** C8: the feed before any job exists *)






(** ** C5: the URL handed to git clone *)

Section Trimming.

Lemma is_white2_continuation a b : is_white2 a b = true -> continuation b = true.
Proof.
  unfold is_white2, continuation.
  intros [_ Hb%Nat.eqb_eq]%andb_prop. by rewrite Hb.
Qed.

Ltac bools :=
  repeat match goal with
         | H : (_ || _) = true |- _ => apply orb_prop in H as [H | H]
         | H : (_ && _) = true |- _ => apply andb_prop in H as [H ?]
         | H : (_ =? _)%nat = true |- _ => apply Nat.eqb_eq in H
         | H : (_ <=? _)%nat = true |- _ => apply Nat.leb_le in H
         end.

Lemma is_white3_continuation a b c :
  is_white3 a b c = true -> continuation b = true /\ continuation c = true.
Proof.
  unfold is_white3, continuation. cbv zeta.
  intros H. bools.
  all: split; apply andb_true_intro; split; apply Nat.leb_le; lia.
Qed.

Lemma is_white_clean a : is_white a = true -> continuation a = false.
Proof.
  unfold is_white, continuation. cbv zeta. intros H.
  apply andb_false_iff. left. apply Nat.leb_gt. bools; lia.
Qed.

Lemma is_white2_clean a b : is_white2 a b = true -> continuation a = false.
Proof.
  unfold is_white2, continuation.
  intros [Ha%Nat.eqb_eq _]%andb_prop. by rewrite Ha.
Qed.

Lemma is_white3_clean a b c : is_white3 a b c = true -> continuation a = false.
Proof.
  unfold is_white3, continuation. cbv zeta. intros H.
  apply andb_false_iff. right. apply Nat.leb_gt. bools; lia.
Qed.

Lemma trimStart_peel s :
  trimStart s = match peel s with Some r => trimStart r | None => s end.
Proof.
  destruct s as [| a [| b [| c s3]]]; simpl; try reflexivity.
  - by destruct (is_white a).
  - destruct (is_white a); [done |]. by destruct (is_white2 a b).
  - destruct (is_white a); [done |]. destruct (is_white2 a b); [done |].
    by destruct (is_white3 a b c).
Qed.

Lemma peel_length s r : peel s = Some r -> String.length r < String.length s.
Proof.
  destruct s as [| a [| b [| c s3]]]; simpl; try done.
  all: repeat case_match; intros [= <-]; simpl; lia.
Qed.

Lemma peel_app s r x : peel s = Some r -> peel (s +:+ x) = Some (r +:+ x).
Proof.
  destruct s as [| a [| b [| c s3]]]; simpl; try done.
  all: repeat case_match; try done; by intros [= <-].
Qed.

Lemma peel_starts_clean s r : peel s = Some r -> starts_clean s = true.
Proof.
  destruct s as [| a [| b [| c s3]]]; simpl; try done.
  all: repeat case_match; try done; intros _.
  all: first [ by erewrite is_white_clean
             | by erewrite is_white2_clean
             | by erewrite is_white3_clean ].
Qed.

(** A string that does not begin with white space still does not when a
    string that begins with a whole character is put behind it. *)
Lemma peel_stuck_app s x :
  s <> "" -> peel s = None -> starts_clean x = true -> peel (s +:+ x) = None.
Proof.
  intros Hne Hs Hx.
  destruct s as [| a [| b [| c s3]]]; [done | | |]; simpl in *.
  - destruct (is_white a); [done |].
    destruct x as [| b [| c x]]; [done | |]; simpl in *.
    + destruct (is_white2 a b) eqn:Hab; [| done].
      by rewrite (is_white2_continuation _ _ Hab) in Hx.
    + destruct (is_white2 a b) eqn:Hab.
      { by rewrite (is_white2_continuation _ _ Hab) in Hx. }
      destruct (is_white3 a b c) eqn:Habc; [| done].
      by rewrite (proj1 (is_white3_continuation _ _ _ Habc)) in Hx.
  - destruct (is_white a); [done |]. destruct (is_white2 a b); [done |].
    destruct x as [| c x]; [done |]; simpl in *.
    destruct (is_white3 a b c) eqn:Habc; [| done].
    by rewrite (proj2 (is_white3_continuation _ _ _ Habc)) in Hx.
  - destruct (is_white a); [done |]. destruct (is_white2 a b); [done |].
    by destruct (is_white3 a b c).
Qed.

(** Induction along [trimStart], one white-space character at a time. *)
Lemma peel_ind (P : string -> Prop) :
  (forall s, peel s = None -> P s) ->
  (forall s r, peel s = Some r -> P r -> P s) ->
  forall s, P s.
Proof.
  intros Hstuck Hstep s.
  remember (String.length s) as n eqn:Hn.
  revert s Hn. induction n as [n IH] using lt_wf_ind. intros s ->.
  destruct (peel s) as [r |] eqn:Hp; [| by apply Hstuck].
  apply (Hstep s r Hp). apply (IH (String.length r)); [by apply peel_length | reflexivity].
Qed.

Lemma trimStart_stuck s : peel (trimStart s) = None.
Proof.
  induction s as [s Hs | s r Hp IH] using peel_ind; rewrite trimStart_peel.
  - by rewrite Hs.
  - by rewrite Hp.
Qed.

Lemma trimStart_idem s : trimStart (trimStart s) = trimStart s.
Proof. rewrite (trimStart_peel (trimStart s)). by rewrite trimStart_stuck. Qed.

Lemma blank_peel s r : peel s = Some r -> blank s = blank r.
Proof. intros H. unfold blank. by rewrite (trimStart_peel s), H. Qed.

Lemma blank_stuck s : peel s = None -> s <> "" -> blank s = false.
Proof.
  intros H Hne. unfold blank. rewrite trimStart_peel, H.
  by apply String.eqb_neq.
Qed.

Lemma blank_starts_clean w : blank w = true -> starts_clean w = true.
Proof.
  intros H. destruct (peel w) as [r |] eqn:Hp; [by eapply peel_starts_clean |].
  destruct w; [done |]. by rewrite blank_stuck in H.
Qed.

(** White space in front of a string is trimmed off. *)
Lemma trimStart_blank_app w s : blank w = true -> trimStart (w +:+ s) = trimStart s.
Proof.
  induction w as [w Hw | w r Hp IH] using peel_ind; intros Hblank.
  - destruct w; [done |]. by rewrite blank_stuck in Hblank.
  - rewrite (trimStart_peel (w +:+ s)), (peel_app w r s Hp).
    apply IH. by rewrite <- (blank_peel w r Hp).
Qed.

(** White space behind a string does not make it white. *)
Lemma blank_app_blank x w : blank w = true -> blank (x +:+ w) = blank x.
Proof.
  intros Hw. induction x as [x Hx | x r Hp IH] using peel_ind.
  - destruct x as [| a x]; [exact Hw |].
    rewrite (blank_stuck (String a x)) by done.
    apply blank_stuck; [| done].
    apply peel_stuck_app; [done | done | by apply blank_starts_clean].
  - by rewrite (blank_peel _ _ (peel_app x r w Hp)), (blank_peel x r Hp).
Qed.

Lemma trimEnd_blank w : blank w = true -> trimEnd w = "".
Proof. intros H. destruct w; [done |]. simpl. by rewrite H. Qed.

(** White space behind a string is trimmed off. *)
Lemma trimEnd_app_blank s w : blank w = true -> trimEnd (s +:+ w) = trimEnd s.
Proof.
  intros Hw. induction s as [| a s IH]; [by apply trimEnd_blank |].
  rewrite append_cons. cbn [trimEnd]. rewrite IH.
  by rewrite <- append_cons, (blank_app_blank _ w Hw).
Qed.

(** What [trimStart] and [trimEnd] remove is white space. *)
Lemma peel_split s r : peel s = Some r -> exists c, s = c +:+ r /\ peel c = Some "".
Proof.
  destruct s as [| a s1]; [done |]. simpl.
  destruct (is_white a) eqn:Ha.
  { intros [= <-]. exists (String a ""). simpl. by rewrite Ha. }
  destruct s1 as [| b s2]; [done |].
  destruct (is_white2 a b) eqn:Hab.
  { intros [= <-]. exists (String a (String b "")). simpl. by rewrite Ha, Hab. }
  destruct s2 as [| c s3]; [done |].
  destruct (is_white3 a b c) eqn:Habc; [| done].
  intros [= <-]. exists (String a (String b (String c ""))). simpl.
  by rewrite Ha, Hab, Habc.
Qed.

Lemma trimStart_split s : exists w, s = w +:+ trimStart s /\ blank w = true.
Proof.
  induction s as [s Hs | s r Hp (w & Hr & Hw)] using peel_ind.
  - exists "". split; [| reflexivity]. rewrite trimStart_peel. by rewrite Hs.
  - rewrite (trimStart_peel s), Hp.
    destruct (peel_split s r Hp) as (c & -> & Hc).
    exists (c +:+ w). split.
    + by rewrite append_assoc, <- Hr.
    + rewrite (blank_peel _ _ (peel_app c "" w Hc)). exact Hw.
Qed.

Lemma trimEnd_split s : exists w, s = trimEnd s +:+ w /\ blank w = true.
Proof.
  induction s as [| a s (w & Hs & Hw)].
  - by exists "".
  - cbn [trimEnd]. destruct (blank (String a s)) eqn:Hb.
    + by exists (String a s).
    + exists w. split; [| done]. by rewrite append_cons, <- Hs.
Qed.

Lemma trimEnd_idem s : trimEnd (trimEnd s) = trimEnd s.
Proof.
  induction s as [| a s IH]; [reflexivity |].
  cbn [trimEnd]. destruct (blank (String a s)) eqn:Hb; [reflexivity |].
  cbn [trimEnd]. rewrite IH.
  destruct (trimEnd_split s) as (w & Hs & Hw).
  assert (Hsame : blank (String a (trimEnd s)) = false).
  { rewrite <- (blank_app_blank (String a (trimEnd s)) w Hw).
    by rewrite append_cons, <- Hs. }
  by rewrite Hsame.
Qed.

Lemma trimStart_length (s : string) : String.length (trimStart s) <= String.length s.
Proof.
  induction s as [s Hs | s r Hp IH] using peel_ind; rewrite trimStart_peel.
  - by rewrite Hs.
  - rewrite Hp. apply peel_length in Hp. lia.
Qed.

Lemma trimEnd_length (s : string) : String.length (trimEnd s) <= String.length s.
Proof.
  induction s as [| a s IH]; [done |].
  cbn [trimEnd]. destruct (blank (String a s)); simpl; lia.
Qed.

Lemma length_append (a b : string) :
  String.length (a +:+ b) = String.length a + String.length b.
Proof. induction a as [| x a IH]; [reflexivity |]. rewrite append_cons. simpl. by rewrite IH. Qed.

(** A string that [trim] leaves alone has no white space at either end. *)
Lemma trim_fixed (u : string) : trim u = u -> trimStart u = u /\ trimEnd u = u.
Proof.
  unfold trim. intros H.
  assert (Hlen : String.length (trimStart u) = String.length u).
  { pose proof (trimStart_length u). pose proof (trimEnd_length (trimStart u)).
    rewrite H in *. lia. }
  assert (Hs : trimStart u = u).
  { destruct (trimStart_split u) as (w & Hu & _).
    assert (Hw : String.length w = 0).
    { apply (f_equal String.length) in Hu. rewrite length_append in Hu. lia. }
    destruct w; [| discriminate]. by rewrite Hu at 2. }
  split; [exact Hs |]. by rewrite Hs in H.
Qed.

(** [trim] leaves no white space at either end: trimming again changes
    nothing. *)
Lemma trim_idem u : trim (trim u) = trim u.
Proof.
  unfold trim.
  assert (Hstart : trimStart (trimEnd (trimStart u)) = trimEnd (trimStart u)).
  { destruct (trimEnd_split (trimStart u)) as (w & Ht & Hw).
    rewrite (trimStart_peel (trimEnd (trimStart u))).
    destruct (peel (trimEnd (trimStart u))) as [r |] eqn:Hp; [| reflexivity].
    pose proof (peel_app _ _ w Hp) as Happ. rewrite <- Ht in Happ.
    by rewrite trimStart_stuck in Happ. }
  by rewrite Hstart, trimEnd_idem.
Qed.

Lemma quote_not_white (a : ascii) : is_quote a = true -> forall s, peel (String a s) = None.
Proof.
  unfold is_quote. intros [H | H]%orb_prop s; apply Ascii.eqb_eq in H; subst.
  all: by destruct s as [| b [| c s]].
Qed.

Lemma quote_clean (a : ascii) : is_quote a = true -> continuation a = false.
Proof.
  unfold is_quote. intros [H | H]%orb_prop; apply Ascii.eqb_eq in H; by subst.
Qed.

(** A string that begins with a quote is not white. *)
Lemma blank_quote a s : is_quote a = true -> blank (String a s) = false.
Proof. intros H. apply blank_stuck; [by apply quote_not_white | done]. Qed.

(** A string that ends with quotes is not white. *)
Lemma blank_app_quotes x q :
  q <> "" -> all_chars is_quote q = true -> blank (x +:+ q) = false.
Proof.
  intros Hne Hq. destruct q as [| a q]; [done |].
  simpl in Hq. apply andb_prop in Hq as [Ha _].
  induction x as [x Hx | x r Hp IH] using peel_ind.
  - destruct x as [| b x]; [by apply blank_quote |].
    apply blank_stuck; [| done].
    apply peel_stuck_app; [done | done |].
    simpl. by rewrite (quote_clean a Ha).
  - by rewrite (blank_peel _ _ (peel_app x r _ Hp)).
Qed.

Lemma trimEnd_quotes_app q t :
  all_chars is_quote q = true -> trimEnd t = t -> trimEnd (q +:+ t) = q +:+ t.
Proof.
  intros Hq Ht. induction q as [| a q IH]; [exact Ht |].
  simpl in Hq. apply andb_prop in Hq as [Ha Hq].
  rewrite append_cons. cbn [trimEnd]. rewrite (blank_quote a _ Ha).
  by rewrite (IH Hq).
Qed.

Lemma trimEnd_app_quotes s q :
  q <> "" -> all_chars is_quote q = true -> trimEnd (s +:+ q) = s +:+ q.
Proof.
  intros Hne Hq. induction s as [| a s IH].
  - rewrite append_nil_l.
    pose proof (trimEnd_quotes_app q "" Hq eq_refl) as H.
    by rewrite append_nil_r in H.
  - rewrite append_cons. cbn [trimEnd]. rewrite IH.
    by rewrite <- append_cons, (blank_app_quotes _ q Hne Hq).
Qed.

Lemma remove_quotes_app (a b : string) :
  remove_quotes (a +:+ b) = remove_quotes a +:+ remove_quotes b.
Proof.
  induction a as [| x a IH]; [reflexivity |].
  rewrite ?append_cons. simpl. destruct (is_quote x); [exact IH |].
  by rewrite ?append_cons, IH.
Qed.

Lemma remove_quotes_quotes (q : string) :
  all_chars is_quote q = true -> remove_quotes q = "".
Proof.
  induction q as [| a q IH]; [reflexivity |].
  simpl. intros [Ha Hq]%andb_prop. by rewrite Ha, IH.
Qed.

Lemma remove_quotes_clean (s : string) :
  all_chars (fun a => negb (is_quote a)) (remove_quotes s) = true.
Proof.
  induction s as [| a s IH]; [reflexivity |].
  simpl. destruct (is_quote a) eqn:Ha; [exact IH |].
  simpl. by rewrite Ha, IH.
Qed.

Lemma remove_quotes_none (s : string) :
  all_chars (fun a => negb (is_quote a)) s = true -> remove_quotes s = s.
Proof.
  induction s as [| a s IH]; [reflexivity |].
  simpl. intros [Ha Hs]%andb_prop. apply negb_true_iff in Ha.
  by rewrite Ha, (IH Hs).
Qed.

(** The characters [remove_quotes] keeps are those that are no quotes, in
    their order. *)
Lemma remove_quotes_filter (s : string) :
  list_ascii_of_string (remove_quotes s)
  = List.filter (fun a => negb (is_quote a)) (list_ascii_of_string s).
Proof.
  induction s as [| a s IH]; [reflexivity |].
  simpl. destruct (is_quote a); simpl; by rewrite IH.
Qed.

(** A URL between quote characters, with nothing white at its own ends, and
    white space around the quotes: [trim] removes the white space only. *)
Lemma trim_padded (w1 q1 u q2 w2 : string) :
  blank w1 = true ->
  blank w2 = true ->
  all_chars is_quote q1 = true ->
  all_chars is_quote q2 = true ->
  trim u = u ->
  trim (w1 +:+ q1 +:+ u +:+ q2 +:+ w2) = q1 +:+ u +:+ q2.
Proof.
  intros Hw1 Hw2 Hq1 Hq2 [Hus Hue]%trim_fixed.
  unfold trim. rewrite (trimStart_blank_app w1 _ Hw1).
  replace (q1 +:+ u +:+ q2 +:+ w2) with ((q1 +:+ u +:+ q2) +:+ w2)
    by (by rewrite !append_assoc).
  assert (Hend : trimEnd (q1 +:+ u +:+ q2) = q1 +:+ u +:+ q2).
  { apply trimEnd_quotes_app; [done |].
    destruct q2 as [| b q2]; [by rewrite append_nil_r |].
    by apply trimEnd_app_quotes. }
  assert (Hstart : q1 +:+ u +:+ q2 <> "" ->
                   peel ((q1 +:+ u +:+ q2) +:+ w2) = None).
  { intros Hne. destruct q1 as [| a q1].
    - rewrite append_nil_l in *. destruct u as [| c u].
      + rewrite append_nil_l in *. destruct q2 as [| b q2]; [done |].
        simpl in Hq2. apply andb_prop in Hq2 as [Hb _].
        rewrite append_cons. by apply quote_not_white.
      + rewrite append_assoc. apply peel_stuck_app; [done | |].
        * rewrite <- Hus. apply trimStart_stuck.
        * destruct q2 as [| b q2]; [by apply blank_starts_clean |].
          simpl in Hq2. apply andb_prop in Hq2 as [Hb _].
          simpl. by rewrite (quote_clean b Hb).
    - simpl in Hq1. apply andb_prop in Hq1 as [Ha _].
      rewrite !append_cons. by apply quote_not_white. }
  destruct (q1 +:+ u +:+ q2) as [| c m] eqn:Hm.
  - rewrite append_nil_l. apply String.eqb_eq in Hw2. by rewrite Hw2.
  - rewrite trimStart_peel, Hstart by done.
    by rewrite (trimEnd_app_blank _ w2 Hw2).
Qed.

Lemma cleanRepoUrl_padded (w1 q1 u q2 w2 : string) :
  blank w1 = true ->
  blank w2 = true ->
  all_chars is_quote q1 = true ->
  all_chars is_quote q2 = true ->
  trim u = u ->
  GitUtils.cleanRepoUrl (w1 +:+ q1 +:+ u +:+ q2 +:+ w2) = GitUtils.cleanRepoUrl u.
Proof.
  intros Hw1 Hw2 Hq1 Hq2 Hu.
  unfold GitUtils.cleanRepoUrl.
  rewrite (trim_padded w1 q1 u q2 w2 Hw1 Hw2 Hq1 Hq2 Hu), Hu, !remove_quotes_app.
  by rewrite (remove_quotes_quotes q1 Hq1), (remove_quotes_quotes q2 Hq2), append_nil_r.
Qed.

End Trimming.

(** C5, as amended.  The URL handed to git clone is the URL with the white
    space trimmed off both ends (what [trim] removes at either end is white
    space, and it leaves none there) and then every single- and double-quote
    character removed, also one inside the URL: the characters that are no
    quotes are kept in their order, no quote character is left, and a URL
    without quotes and without outer white space is passed on as it is.  A
    URL wrapped in quote characters, with white space around the quotes, is
    cloned exactly as the bare URL is. *)
Theorem clone_url_is_unquoted (E : Env) (u : string) :
  (exists w1 w2, u = w1 +:+ trim u +:+ w2 /\ blank w1 = true /\ blank w2 = true)
  /\ trim (trim u) = trim u
  /\ list_ascii_of_string (GitUtils.cleanRepoUrl u)
     = List.filter (fun a => negb (is_quote a)) (list_ascii_of_string (trim u))
  /\ all_chars (fun a => negb (is_quote a)) (GitUtils.cleanRepoUrl u) = true
  /\ (trim u = u ->
      all_chars (fun a => negb (is_quote a)) u = true ->
      GitUtils.cleanRepoUrl u = u)
  /\ (forall w1 q1 q2 w2 projectId branch storagePath,
      blank w1 = true ->
      blank w2 = true ->
      all_chars is_quote q1 = true ->
      all_chars is_quote q2 = true ->
      trim u = u ->
      let padded := w1 +:+ q1 +:+ u +:+ q2 +:+ w2 in
      GitUtils.cleanRepoUrl padded = GitUtils.cleanRepoUrl u
      /\ GitUtils.cloneRepository E (CloneOptions.mk padded projectId branch storagePath)
         = GitUtils.cloneRepository E (CloneOptions.mk u projectId branch storagePath)).
Proof.
  split.
  { destruct (trimStart_split u) as (w1 & Hu & Hw1).
    destruct (trimEnd_split (trimStart u)) as (w2 & Ht & Hw2).
    exists w1, w2. unfold trim. split; [| done].
    by rewrite <- Ht. }
  split; [apply trim_idem |].
  split; [apply remove_quotes_filter |].
  split; [apply remove_quotes_clean |].
  split.
  - intros Hu Hq. unfold GitUtils.cleanRepoUrl. rewrite Hu. by apply remove_quotes_none.
  - intros w1 q1 q2 w2 projectId branch storagePath Hw1 Hw2 Hq1 Hq2 Hu. cbv zeta.
    pose proof (cleanRepoUrl_padded w1 q1 u q2 w2 Hw1 Hw2 Hq1 Hq2 Hu) as Heq.
    split; [exact Heq |].
    unfold GitUtils.cloneRepository, GitUtils.freshClone.
    cbn [CloneOptions.repoUrl CloneOptions.projectId CloneOptions.branch CloneOptions.storagePath].
    by rewrite Heq.
Qed.

Lemma clone_url_is_unquoted_witness :
  let u := "https://github.com/acme/shop" in
  let padded := (nbsp +:+ "  ") +:+ dq +:+ u +:+ dq +:+ (" " +:+ nl +:+ bom) in
  GitUtils.cleanRepoUrl u = u
  /\ GitUtils.cleanRepoUrl padded = GitUtils.cleanRepoUrl u
  /\ GitUtils.cloneRepository Demo.env (CloneOptions.mk padded "prj_2" None "/store")
     = GitUtils.cloneRepository Demo.env (CloneOptions.mk u "prj_2" None "/store").
Proof.
  cbv zeta.
  destruct (clone_url_is_unquoted Demo.env "https://github.com/acme/shop")
    as (_ & _ & _ & _ & Hid & Hpad).
  assert (Htrim : trim "https://github.com/acme/shop" = "https://github.com/acme/shop").
  { vm_compute. reflexivity. }
  assert (Hnone : all_chars (fun a => negb (is_quote a)) "https://github.com/acme/shop" = true).
  { vm_compute. reflexivity. }
  assert (Hw1 : blank (nbsp +:+ "  ") = true). { vm_compute. reflexivity. }
  assert (Hw2 : blank (" " +:+ nl +:+ bom) = true). { vm_compute. reflexivity. }
  assert (Hq : all_chars is_quote dq = true). { vm_compute. reflexivity. }
  split; [exact (Hid Htrim Hnone) |].
  exact (Hpad (nbsp +:+ "  ") dq dq (" " +:+ nl +:+ bom) "prj_2" None "/store"
           Hw1 Hw2 Hq Hq Htrim).
Defined.

(** C5 as stated fails: the quote inside the URL of this repository is not a
    surrounding one, and trimming plus stripping the surrounding quotes would
    leave the URL as it is; the clean-up removes the quote, and git is asked
    to clone another URL. *)
Lemma clone_url_loses_inner_quote :
  let u := "https://github.com/o'neil/shop" in
  sanitizeSurrounding u = u
  /\ GitUtils.cleanRepoUrl u = "https://github.com/oneil/shop"
  /\ GitUtils.cleanRepoUrl u <> sanitizeSurrounding u
  /\ calls (GitUtils.cloneRepository Demo.env (CloneOptions.mk u "prj_2" None "/store")
              (Demo.checkout Demo.manifest)).2
     = [CallGit (GitClone "https://github.com/oneil/shop" "/store/prj_2" [])].
Proof.
  cbv zeta.
  assert (Hspec : sanitizeSurrounding "https://github.com/o'neil/shop"
                  = "https://github.com/o'neil/shop").
  { vm_compute. reflexivity. }
  assert (Hcode : GitUtils.cleanRepoUrl "https://github.com/o'neil/shop"
                  = "https://github.com/oneil/shop").
  { vm_compute. reflexivity. }
  split; [exact Hspec |]. split; [exact Hcode |].
  split; [rewrite Hspec, Hcode; discriminate |].
  vm_compute. reflexivity.
Qed.

(** ** C6: the scan for the edge runtime *)

(** C6, as amended.  The scan never aborts the step: whatever the search
    process does, [scanEdgeRuntime] returns normally after logging its
    opening line and one more line.  That line is the warning when the search
    succeeds with output that is not blank, and the informational line
    otherwise: for a search that succeeds with blank output and for every
    failed search, whatever its exit status and message. *)
Theorem edge_scan_is_best_effort (E : Env) (o : ConversionOptions.t)
  (s : ConversionPipeline.state) :
  let cwd := ConversionOptions.projectPath o in
  let r := (execAsync E ConversionPipeline.grep_edge_cmd cwd (ConversionPipeline.world s)).1 in
  let fs := (execAsync E ConversionPipeline.grep_edge_cmd cwd (ConversionPipeline.world s)).2 in
  ConversionPipeline.scanEdgeRuntime E o s
  = (inr tt,
     ConversionPipeline.mkState
       (ConversionPipeline.logs s ++ ["Checking for Edge Runtime usage..."; scanLine r])
       (mkWorld fs (dirs (ConversionPipeline.world s))
                (calls (ConversionPipeline.world s)
                 ++ [CallExec ConversionPipeline.grep_edge_cmd cwd])))
  /\ (forall stdout,
        scanLine (ExecOk stdout)
        = if String.eqb (trim stdout) "" then edgeAbsent else edgeWarning)
  /\ (forall code message, scanLine (ExecFailed code message) = edgeAbsent)
  /\ edgeWarning <> edgeAbsent.
Proof.
  cbv zeta. split; [| split; [| split]].
  - unfold ConversionPipeline.scanEdgeRuntime, ConversionPipeline.log,
      ConversionPipeline.in_world, exec.
    comp_unfold. cbn [ConversionPipeline.world ConversionPipeline.logs].
    destruct (execAsync E _ _ _) as [[stdout | code message] fs]; cbn.
    + destruct (String.eqb (trim stdout) ""); cbn; by rewrite <- app_assoc.
    + by rewrite <- app_assoc.
  - intros stdout. simpl. by destruct (String.eqb (trim stdout) "").
  - reflexivity.
  - discriminate.
Qed.

(** C6 as stated fails: here the search breaks with exit status 2, a tooling
    error and not the answer that nothing matched, and the scan still logs
    that no edge runtime usage was detected and returns normally. *)
Lemma tooling_error_reads_as_no_usage :
  let s := ConversionPipeline.mkState [] (Demo.checkout Demo.manifest) in
  let r := (execAsync brokenGrepEnv ConversionPipeline.grep_edge_cmd "/store/prj_1"
              (ConversionPipeline.world s)).1 in
  r = ExecFailed 2 "grep: ./app: Permission denied"
  /\ toolingError r = true
  /\ noMatchesFound r = false
  /\ ConversionPipeline.scanEdgeRuntime brokenGrepEnv (Demo.options None None) s
     = (inr tt,
        ConversionPipeline.mkState
          ["Checking for Edge Runtime usage..."; "No Edge Runtime usage detected ✅"]
          (mkWorld (files (Demo.checkout Demo.manifest)) (dirs (Demo.checkout Demo.manifest))
                   [CallExec ConversionPipeline.grep_edge_cmd "/store/prj_1"])).
Proof.
  cbv zeta. repeat split.
Qed.

(** ** The job store *)

Section Store.
Variable projectId : string.

Lemma ran_start s job :
  ConvertRoute.store s !! projectId = Some job ->
  s = ran projectId job (ConvertRoute.world s) [] s.
Proof.
  intros H. destruct s as [st w evs]. unfold ran. simpl in *.
  by rewrite insert_id, app_nil_r.
Qed.

Lemma ran_lookup job w evs s :
  ConvertRoute.store (ran projectId job w evs s) !! projectId = Some job.
Proof. apply lookup_insert_eq. Qed.

Lemma ran_world job w evs s : ConvertRoute.world (ran projectId job w evs s) = w.
Proof. reflexivity. Qed.

Lemma put_ran job' job w evs s :
  ConvertRoute.put projectId job' (ran projectId job w evs s)
  = (inr tt, ran projectId job' w (evs ++ [ConvertRoute.Mutated projectId job']) s).
Proof.
  unfold ConvertRoute.put, modify, ran. simpl.
  by rewrite insert_insert_eq, app_assoc.
Qed.

Lemma lookup_entry (st : gmap string Job.t) job :
  st !! projectId = Some job -> lookup st projectId = Entry job.
Proof. intros H. unfold lookup. by rewrite H. Qed.

Lemma push_entry messages s job :
  ConvertRoute.store s !! projectId = Some job ->
  ConvertRoute.push projectId messages s
  = ConvertRoute.put projectId
      (Job.mk (Job.status job) (Job.logs job ++ messages) (Job.message job)
              (Job.result job) (Job.error job)) s.
Proof. intros H. unfold ConvertRoute.push. by rewrite (lookup_entry _ _ H). Qed.

Lemma assign_entry set setOutcome s job :
  ConvertRoute.store s !! projectId = Some job ->
  ConvertRoute.assign projectId set setOutcome s = ConvertRoute.put projectId (set job) s.
Proof. intros H. unfold ConvertRoute.assign. by rewrite (lookup_entry _ _ H). Qed.

Lemma push_ran messages st lg msg res err w evs s :
  let job' := Job.mk st (lg ++ messages) msg res err in
  ConvertRoute.push projectId messages (ran projectId (Job.mk st lg msg res err) w evs s)
  = (inr tt, ran projectId job' w (evs ++ [ConvertRoute.Mutated projectId job']) s).
Proof.
  cbv zeta. rewrite (push_entry _ _ _ (ran_lookup _ _ _ _)). apply put_ran.
Qed.

Lemma setStatus_ran status st lg msg res err w evs s :
  let job' := Job.mk status lg msg res err in
  ConvertRoute.setStatus projectId status (ran projectId (Job.mk st lg msg res err) w evs s)
  = (inr tt, ran projectId job' w (evs ++ [ConvertRoute.Mutated projectId job']) s).
Proof.
  cbv zeta. unfold ConvertRoute.setStatus.
  rewrite (assign_entry _ _ _ _ (ran_lookup _ _ _ _)). apply put_ran.
Qed.

Lemma setMessage_ran message st lg msg res err w evs s :
  let job' := Job.mk st lg (Some message) res err in
  ConvertRoute.setMessage projectId message (ran projectId (Job.mk st lg msg res err) w evs s)
  = (inr tt, ran projectId job' w (evs ++ [ConvertRoute.Mutated projectId job']) s).
Proof.
  cbv zeta. unfold ConvertRoute.setMessage.
  rewrite (assign_entry _ _ _ _ (ran_lookup _ _ _ _)). apply put_ran.
Qed.

Lemma setResult_ran result st lg msg res err w evs s :
  let job' := Job.mk st lg msg (Some result) err in
  ConvertRoute.setResult projectId result (ran projectId (Job.mk st lg msg res err) w evs s)
  = (inr tt, ran projectId job' w (evs ++ [ConvertRoute.Mutated projectId job']) s).
Proof.
  cbv zeta. unfold ConvertRoute.setResult.
  rewrite (assign_entry _ _ _ _ (ran_lookup _ _ _ _)). apply put_ran.
Qed.

Lemma setError_ran errorMsg st lg msg res err w evs s :
  let job' := Job.mk st lg msg res (Some errorMsg) in
  ConvertRoute.setError projectId errorMsg (ran projectId (Job.mk st lg msg res err) w evs s)
  = (inr tt, ran projectId job' w (evs ++ [ConvertRoute.Mutated projectId job']) s).
Proof.
  cbv zeta. unfold ConvertRoute.setError.
  rewrite (assign_entry _ _ _ _ (ran_lookup _ _ _ _)). apply put_ran.
Qed.

Lemma await_ran job w evs s :
  ConvertRoute.await (ran projectId job w evs s)
  = (inr tt, ran projectId job w (evs ++ [ConvertRoute.Awaited]) s).
Proof. unfold ConvertRoute.await, modify, ran. simpl. by rewrite app_assoc. Qed.

Lemma in_world_ran {A : Type} (m : Comp World A) r w' job w evs s :
  m w = (r, w') ->
  ConvertRoute.in_world m (ran projectId job w evs s) = (r, ran projectId job w' evs s).
Proof. intros H. unfold ConvertRoute.in_world. simpl. by rewrite H. Qed.

End Store.

(** One statement of the orchestrator, run on a state described by [ran]. *)
Ltac ostep :=
  first
    [ erewrite (bind_ok (ConvertRoute.push _ _)) by apply push_ran
    | erewrite (bind_ok (ConvertRoute.setStatus _ _)) by apply setStatus_ran
    | erewrite (bind_ok (ConvertRoute.setMessage _ _)) by apply setMessage_ran
    | erewrite (bind_ok (ConvertRoute.setResult _ _)) by apply setResult_ran
    | erewrite (bind_ok (ConvertRoute.setError _ _)) by apply setError_ran
    | erewrite (bind_ok ConvertRoute.await) by apply await_ran
    | erewrite (bind_ok (ret _)) by reflexivity ];
  cbv beta.

(** ** C9: a failed commit and push *)

(** C9.  Take a run that has come to the pipeline (acquisition returned the
    checkout path and left [job] in the store), whose pipeline succeeds with
    [result], and whose caller asked for the commit and push.  Whatever the
    commit and push returns, the run ends normally with the job in state
    [success], carrying the pipeline's message and result; the outcome of the
    push only chooses the last log line, which is the warning when it is
    false. *)
Theorem commit_failure_is_not_fatal (E : Env) (projectId : string)
  (options : StartOptions.t) (s0 s : ConvertRoute.state)
  (project : Project.t) (projectPath : string) (job : Job.t)
  (result : ConversionResult.t) (w1 w2 : World) (commitResult : bool) :
  ConvertRoute.prepare E projectId (Some options) s0 = (inr (Some (project, projectPath)), s) ->
  ConvertRoute.store s !! projectId = Some job ->
  ConversionPipeline.runPipeline E (ConvertRoute.pipelineOptions projectPath project options)
    (ConvertRoute.world s) = (inr result, w1) ->
  ConversionResult.success result = true ->
  truthy_bool (StartOptions.commitAndPush options) = true ->
  GitUtils.commitAndPush E projectPath "Convert to @opennextjs/cloudflare" w1
  = (inr commitResult, w2) ->
  exists s',
    ConvertRoute.startConversion E projectId (Some options) s0 = (inr tt, s')
    /\ ConvertRoute.world s' = w2
    /\ ConvertRoute.store s' !! projectId
       = Some (Job.mk success
                 (Job.logs job ++ ["Starting conversion pipeline..."]
                  ++ ConversionResult.logs result
                  ++ ["Committing and pushing changes..."]
                  ++ [commitLine commitResult])
                 (Some (ConversionResult.message result))
                 (Some result)
                 (Job.error job)).
Proof.
  intros Hprep Hjob Hrun Hok Hask Hpush.
  destruct job as [st lg msg res err].
  unfold ConvertRoute.startConversion.
  erewrite try_ok; [eexists; split; [reflexivity |] |].
  2: {
    erewrite bind_ok by exact Hprep. cbv beta iota.
    cbn [ConvertRoute.optionsOf]. ostep.
    rewrite (ran_start projectId s _ Hjob) at 1.
    unfold ConvertRoute.convertAndFinish.
    do 2 ostep.
    erewrite (bind_ok (ConvertRoute.in_world _)) by (apply in_world_ran; exact Hrun).
    cbv beta. ostep.
    rewrite Hok, Hask. cbn [andb when].
    erewrite (bind_ok (bind _ _)).
    2: {
      do 2 ostep.
      erewrite (bind_ok (ConvertRoute.in_world _)) by (apply in_world_ran; exact Hpush).
      cbv beta.
      replace (if commitResult
               then ConvertRoute.push projectId ["Changes committed and pushed successfully"]
               else ConvertRoute.push projectId ["Warning: Failed to commit and push changes"])
        with (ConvertRoute.push projectId [commitLine commitResult])
        by (by destruct commitResult).
      apply push_ran. }
    cbv beta. do 2 ostep.
    apply setResult_ran. }
  split; [reflexivity |].
  rewrite ran_lookup.
  cbn [Job.status Job.logs Job.message Job.result Job.error].
  by rewrite <- !app_assoc.
Qed.

Lemma commit_failure_is_not_fatal_witness :
  exists s' job,
    ConvertRoute.startConversion pushFailsEnv "prj_1" (Some publishOptions)
      (requested (Demo.checkout Demo.manifest)) = (inr tt, s')
    /\ ConvertRoute.store s' !! "prj_1" = Some job
    /\ Job.status job = success
    /\ list.last (Job.logs job) = Some "Warning: Failed to commit and push changes".
Proof.
  set (E := pushFailsEnv).
  set (s0 := requested (Demo.checkout Demo.manifest)).
  set (s := (ConvertRoute.prepare E "prj_1" (Some publishOptions) s0).2).
  set (job := default (Job.mk idle [] None None None) (ConvertRoute.store s !! "prj_1")).
  set (po := ConvertRoute.pipelineOptions "/store/prj_1" Demo.shop publishOptions).
  set (ran1 := ConversionPipeline.runPipeline E po (ConvertRoute.world s)).
  set (result := returned (ConversionResult.mk false "" []) ran1.1).
  set (ran2 := GitUtils.commitAndPush E "/store/prj_1" "Convert to @opennextjs/cloudflare"
                 ran1.2).
  assert (Hprep : ConvertRoute.prepare E "prj_1" (Some publishOptions) s0
                  = (inr (Some (Demo.shop, "/store/prj_1")), s)).
  { vm_compute. reflexivity. }
  assert (Hjob : ConvertRoute.store s !! "prj_1" = Some job).
  { vm_compute. reflexivity. }
  assert (Hrun : ran1 = (inr result, ran1.2)).
  { vm_compute. reflexivity. }
  assert (Hok : ConversionResult.success result = true).
  { vm_compute. reflexivity. }
  assert (Hpush : ran2 = (inr false, ran2.2)).
  { vm_compute. reflexivity. }
  destruct (commit_failure_is_not_fatal E "prj_1" publishOptions s0 s
              Demo.shop "/store/prj_1" job result ran1.2 ran2.2 false
              Hprep Hjob Hrun Hok eq_refl Hpush) as (s' & Hstart & _ & Hfinal).
  eexists s', _. split; [exact Hstart |].
  split; [exact Hfinal |].
  cbn [Job.status Job.logs].
  split; [reflexivity |].
  by rewrite !app_assoc, last_snoc.
Defined.

(** ** C4: a local path that is not a repository *)

Section Acquisition.
Variable E : Env.

Lemma git_run_world c w r w' :
  GitUtils.git E c w = (r, w') ->
  calls w' = (calls w ++ [CallGit c])%list
  /\ (dirs w' = dirs w
      \/ exists url dir args,
           c = GitClone url dir args /\ r = inr tt /\ dirs w' = <[dir := GitRepo]> (dirs w)).
Proof.
  unfold GitUtils.git.
  destruct (git_run E c w) as [[e |] fs']; intros [= <- <-]; simpl.
  - split; [done |]. left. by destruct c.
  - split; [done |]. destruct c; eauto 10.
Qed.

Lemma is_repo_insert w fs cs dir :
  GitUtils.is_repo (mkWorld fs (<[dir := GitRepo]> (dirs w)) cs) dir = true.
Proof. unfold GitUtils.is_repo. simpl. by rewrite lookup_insert_eq. Qed.

End Acquisition.

Ltac clone_unfold :=
  unfold cloneCall, GitUtils.cloneRepository, GitUtils.refreshExisting, GitUtils.freshClone,
    GitUtils.checkIsRepo, GitUtils.git, GitUtils.rmSync, GitUtils.simpleGit,
    GitUtils.mkdirSync;
  cbn [CloneOptions.repoUrl CloneOptions.projectId CloneOptions.branch
       CloneOptions.storagePath];
  comp_unfold.







(** ** C1: the order of the steps and the first failure *)

Section PipelineOrder.
Variable E : Env.
Variable o : ConversionOptions.t.

Lemma log_run message ls w :
  ConversionPipeline.log message (ConversionPipeline.mkState ls w)
  = (inr tt, ConversionPipeline.mkState (ls ++ [message]) w).
Proof. reflexivity. Qed.

(** [run] is the ordered execution of the seven steps with its report. *)
Lemma run_is_runSteps s :
  ConversionPipeline.run E o s = concluded (runSteps (steps E o) (started s)).
Proof.
  destruct s as [ls w].
  unfold ConversionPipeline.run, steps, started, concluded.
  cbn [ConversionPipeline.logs ConversionPipeline.world].
  rewrite try_catch_run, bind_run, log_run.
  cbn [runSteps].
  repeat (cbv beta iota; rewrite bind_run;
          match goal with
          | |- context [match ?step ?st with _ => _ end] =>
              lazymatch type of st with
              | ConversionPipeline.state => destruct (step st) as [[? | []] [? ?]]
              end
          end;
          [reflexivity |]).
  reflexivity.
Qed.

Lemma verifyManifest_rejects ls w text packageJson :
  files w !! ConversionPipeline.getPackageJsonPath E o = Some text ->
  JSON_parse E text = inr packageJson ->
  packageJson <> JNull ->
  member_opt (member packageJson "dependencies") "next" = None ->
  member_opt (member packageJson "devDependencies") "next" = None ->
  ConversionPipeline.verifyManifest E o (ConversionPipeline.mkState ls w)
  = (inl (JsError notNextJs), ConversionPipeline.mkState (ls ++ verifyingLines o) w).
Proof.
  intros Hfile Hparse Hnull Hdeps Hdev.
  unfold ConversionPipeline.verifyManifest, verifyingLines, ConversionPipeline.log,
    ConversionPipeline.in_world, readFileSync, existsSync.
  comp_unfold. cbn [ConversionPipeline.world ConversionPipeline.logs].
  assert (Hstrict : forall k, member_strict packageJson k = inr (member packageJson k)).
  { intros k. by destruct packageJson. }
  destruct (truthy_str (ConversionOptions.packageJsonPath o));
    repeat (cbv beta iota;
            cbn [negb truthy ConversionPipeline.world ConversionPipeline.logs];
            rewrite ?Hfile, ?Hparse, ?Hstrict, ?Hdeps, ?Hdev);
    by rewrite <- ?app_assoc.
Qed.

Lemma verifyNextJsProject_rejects ls w text packageJson :
  files w !! ConversionPipeline.getPackageJsonPath E o = Some text ->
  JSON_parse E text = inr packageJson ->
  packageJson <> JNull ->
  member_opt (member packageJson "dependencies") "next" = None ->
  member_opt (member packageJson "devDependencies") "next" = None ->
  ConversionPipeline.verifyNextJsProject E o (ConversionPipeline.mkState ls w)
  = (inl (JsError notNextJs), ConversionPipeline.mkState (ls ++ verifyingLines o) w).
Proof.
  intros Hfile Hparse Hnull Hdeps Hdev.
  unfold ConversionPipeline.verifyNextJsProject.
  apply bind_fail. by eapply verifyManifest_rejects.
Qed.

Lemma runSteps_rejects ls w text packageJson :
  files w !! ConversionPipeline.getPackageJsonPath E o = Some text ->
  JSON_parse E text = inr packageJson ->
  packageJson <> JNull ->
  member_opt (member packageJson "dependencies") "next" = None ->
  member_opt (member packageJson "devDependencies") "next" = None ->
  runSteps (steps E o) (started (ConversionPipeline.mkState ls w))
  = (Some (JsError notNextJs), 0,
     ConversionPipeline.mkState
       (ls ++ ["Starting conversion pipeline..."] ++ verifyingLines o) w).
Proof.
  intros Hfile Hparse Hnull Hdeps Hdev.
  unfold steps, started. cbn [runSteps ConversionPipeline.logs ConversionPipeline.world].
  erewrite verifyNextJsProject_rejects by eassumption.
  by rewrite <- app_assoc.
Qed.

(** The pipeline never throws: it returns a result in every case. *)
Lemma runPipeline_is_run w :
  ConversionPipeline.runPipeline E o w
  = let '(r, s) := concluded (runSteps (steps E o) (started (ConversionPipeline.mkState [] w))) in
    (r, ConversionPipeline.world s).
Proof. unfold ConversionPipeline.runPipeline. by rewrite run_is_runSteps. Qed.

End PipelineOrder.

Lemma runPipeline_rejects (E : Env) (o : ConversionOptions.t) w text packageJson :
  files w !! ConversionPipeline.getPackageJsonPath E o = Some text ->
  JSON_parse E text = inr packageJson ->
  packageJson <> JNull ->
  member_opt (member packageJson "dependencies") "next" = None ->
  member_opt (member packageJson "devDependencies") "next" = None ->
  ConversionPipeline.runPipeline E o w
  = (inr (report (Some (JsError notNextJs))
            (["Starting conversion pipeline..."] ++ verifyingLines o)), w).
Proof.
  intros Hfile Hparse Hnull Hdeps Hdev.
  rewrite runPipeline_is_run.
  by erewrite runSteps_rejects by eassumption.
Qed.

Lemma startConversion_rejects (E : Env) (projectId : string) (options : StartOptions.t)
  (s0 st : ConvertRoute.state) (project : Project.t) (projectPath : string)
  (job : Job.t) (text : string) (packageJson : json) :
  let o := ConvertRoute.pipelineOptions projectPath project options in
  let result := report (Some (JsError notNextJs))
                  (["Starting conversion pipeline..."] ++ verifyingLines o) in
  ConvertRoute.prepare E projectId (Some options) s0 = (inr (Some (project, projectPath)), st) ->
  ConvertRoute.store st !! projectId = Some job ->
  files (ConvertRoute.world st) !! ConversionPipeline.getPackageJsonPath E o = Some text ->
  JSON_parse E text = inr packageJson ->
  packageJson <> JNull ->
  member_opt (member packageJson "dependencies") "next" = None ->
  member_opt (member packageJson "devDependencies") "next" = None ->
  exists s',
    ConvertRoute.startConversion E projectId (Some options) s0 = (inr tt, s')
    /\ ConvertRoute.world s' = ConvertRoute.world st
    /\ ConvertRoute.store s' !! projectId
       = Some (Job.mk failed
                 (Job.logs job ++ ["Starting conversion pipeline..."]
                  ++ ConversionResult.logs result)
                 (Some (ConversionResult.message result))
                 (Some result)
                 (Job.error job)).
Proof.
  cbv zeta. intros Hprep Hjob Hfile Hparse Hnull Hdeps Hdev.
  destruct job as [st0 lg msg res err].
  pose proof (runPipeline_rejects E _ _ _ _ Hfile Hparse Hnull Hdeps Hdev) as Hrun.
  unfold ConvertRoute.startConversion.
  erewrite try_ok; [eexists; split; [reflexivity |] |].
  2: {
    erewrite bind_ok by exact Hprep. cbv beta iota.
    cbn [ConvertRoute.optionsOf]. ostep.
    rewrite (ran_start projectId st _ Hjob) at 1.
    unfold ConvertRoute.convertAndFinish.
    do 2 ostep.
    erewrite (bind_ok (ConvertRoute.in_world _)) by (apply in_world_ran; exact Hrun).
    cbv beta. ostep.
    cbn [report ConversionResult.success andb when]. ostep.
    do 2 ostep.
    apply setResult_ran. }
  split; [reflexivity |].
  rewrite ran_lookup.
  cbn [Job.status Job.logs Job.message Job.result Job.error].
  by rewrite <- !app_assoc.
Qed.

(** C1.  A run is the opening log line followed by the seven steps in their
    fixed order (verify, install, build-adapter configuration, deploy-tool
    configuration, manifest scripts, reference removal, ignore file), each on
    the state the one before it left, up to the first step that throws; it
    always returns, with success and the closing line after all seven, and
    otherwise with success false, the log accumulated up to the failure and
    the error line.  When the manifest parses to a value other than null that
    has no next entry in dependencies nor in devDependencies, the first step
    throws before any later step has run: the world is untouched, the result
    has success false and its last log line contains the words does not
    appear to be a Next.js project.  The orchestrator then ends normally with
    the job in state failed, holding that log and the failure message. *)
Theorem steps_run_in_order_until_first_failure (E : Env) :
  (forall (o : ConversionOptions.t) (s : ConversionPipeline.state),
      ConversionPipeline.run E o s = concluded (runSteps (steps E o) (started s)))
  /\ (forall (o : ConversionOptions.t) (w : World) (text : string) (packageJson : json),
        files w !! ConversionPipeline.getPackageJsonPath E o = Some text ->
        JSON_parse E text = inr packageJson ->
        packageJson <> JNull ->
        member_opt (member packageJson "dependencies") "next" = None ->
        member_opt (member packageJson "devDependencies") "next" = None ->
        runSteps (steps E o) (started (ConversionPipeline.mkState [] w))
        = (Some (JsError notNextJs), 0,
           ConversionPipeline.mkState
             (["Starting conversion pipeline..."] ++ verifyingLines o) w)
        /\ exists result,
            ConversionPipeline.runPipeline E o w = (inr result, w)
            /\ ConversionResult.success result = false
            /\ ConversionResult.logs result
               = (["Starting conversion pipeline..."] ++ verifyingLines o
                  ++ [cat ["Error during conversion: "; notNextJs]])%list
            /\ includes (cat ["Error during conversion: "; notNextJs])
                 "does not appear to be a Next.js project" = true)
  /\ (forall (projectId : string) (options : StartOptions.t) (s0 st : ConvertRoute.state)
        (project : Project.t) (projectPath : string) (job : Job.t)
        (text : string) (packageJson : json),
        let o := ConvertRoute.pipelineOptions projectPath project options in
        ConvertRoute.prepare E projectId (Some options) s0
        = (inr (Some (project, projectPath)), st) ->
        ConvertRoute.store st !! projectId = Some job ->
        files (ConvertRoute.world st) !! ConversionPipeline.getPackageJsonPath E o = Some text ->
        JSON_parse E text = inr packageJson ->
        packageJson <> JNull ->
        member_opt (member packageJson "dependencies") "next" = None ->
        member_opt (member packageJson "devDependencies") "next" = None ->
        exists s' final,
          ConvertRoute.startConversion E projectId (Some options) s0 = (inr tt, s')
          /\ ConvertRoute.world s' = ConvertRoute.world st
          /\ ConvertRoute.store s' !! projectId = Some final
          /\ Job.status final = failed
          /\ terminal (Job.status final) = true
          /\ Job.logs final
             = (Job.logs job
                ++ ["Starting conversion pipeline..."; "Starting conversion pipeline...";
                    "Verifying Next.js project...";
                    cat ["Error during conversion: "; notNextJs]])%list
          /\ Job.message final = Some (cat ["Conversion failed: "; notNextJs])).
Proof.
  split; [apply run_is_runSteps |].
  split.
  - intros o w text packageJson Hfile Hparse Hnull Hdeps Hdev.
    split.
    + by erewrite (runSteps_rejects E o []) by eassumption.
    + eexists. split; [by eapply runPipeline_rejects |].
      split; [reflexivity |].
      split; [| by vm_compute].
      cbn [report ConversionResult.logs]. by rewrite <- app_assoc.
  - intros projectId options s0 st project projectPath job text packageJson o
      Hprep Hjob Hfile Hparse Hnull Hdeps Hdev.
    destruct (startConversion_rejects E projectId options s0 st project projectPath job
                text packageJson Hprep Hjob Hfile Hparse Hnull Hdeps Hdev)
      as (s' & Hstart & Hworld & Hfinal).
    exists s'. eexists. split; [exact Hstart |].
    split; [exact Hworld |].
    split; [exact Hfinal |].
    by repeat split.
Qed.

Lemma steps_run_in_order_until_first_failure_witness :
  exists s' final,
    ConvertRoute.startConversion Demo.env "prj_1" (Some publishOptions)
      (requested (Demo.checkout Demo.plainManifest)) = (inr tt, s')
    /\ ConvertRoute.store s' !! "prj_1" = Some final
    /\ Job.status final = failed
    /\ list.last (Job.logs final)
       = Some "Error during conversion: This project does not appear to be a Next.js project (next package not found)".
Proof.
  set (E := Demo.env).
  set (s0 := requested (Demo.checkout Demo.plainManifest)).
  set (st := (ConvertRoute.prepare E "prj_1" (Some publishOptions) s0).2).
  set (job := default (Job.mk idle [] None None None) (ConvertRoute.store st !! "prj_1")).
  set (po := ConvertRoute.pipelineOptions "/store/prj_1" Demo.shop publishOptions).
  set (text := Demo.stringify Demo.plainManifest).
  assert (Hprep : ConvertRoute.prepare E "prj_1" (Some publishOptions) s0
                  = (inr (Some (Demo.shop, "/store/prj_1")), st)).
  { vm_compute. reflexivity. }
  assert (Hjob : ConvertRoute.store st !! "prj_1" = Some job).
  { vm_compute. reflexivity. }
  assert (Hfile : files (ConvertRoute.world st) !! ConversionPipeline.getPackageJsonPath E po
                  = Some text).
  { vm_compute. reflexivity. }
  assert (Hparse : JSON_parse E text = inr Demo.plainManifest).
  { vm_compute. reflexivity. }
  assert (Hnull : Demo.plainManifest <> JNull).
  { discriminate. }
  destruct (steps_run_in_order_until_first_failure E) as (_ & _ & Hjobs).
  destruct (Hjobs "prj_1" publishOptions s0 st Demo.shop "/store/prj_1" job text
              Demo.plainManifest Hprep Hjob Hfile Hparse Hnull eq_refl eq_refl)
    as (s' & final & Hstart & _ & Hfinal & Hstatus & _ & Hlogs & _).
  exists s', final. split; [exact Hstart |].
  split; [exact Hfinal |].
  split; [exact Hstatus |].
  rewrite Hlogs.
  rewrite last_app. reflexivity.
Defined.

(** C1 as stated fails.  The manifest of this checkout is [null]: it has no
    next entry in dependencies nor in devDependencies.  Step 1 throws and
    the run aborts before any later step, but what is thrown is the
    TypeError of the member access on [null]: no log line has the words does
    not appear to be a Next.js project.  The job ends in state failed. *)
Lemma null_manifest_aborts_with_another_message :
  let w := Demo.checkout JNull in
  let o := ConvertRoute.pipelineOptions "/store/prj_1" Demo.shop publishOptions in
  files w !! ConversionPipeline.getPackageJsonPath Demo.env o = Some (Demo.stringify JNull)
  /\ JSON_parse Demo.env (Demo.stringify JNull) = inr JNull
  /\ member_opt (member JNull "dependencies") "next" = None
  /\ member_opt (member JNull "devDependencies") "next" = None
  /\ (exists result,
        ConversionPipeline.runPipeline Demo.env o w = (inr result, w)
        /\ ConversionResult.success result = false
        /\ ConversionResult.message result
           = "Conversion failed: Cannot read properties of null (reading 'dependencies')"
        /\ forallb (fun line =>
                      negb (includes line "does not appear to be a Next.js project"))
             (ConversionResult.logs result) = true)
  /\ exists s' final,
       ConvertRoute.POST Demo.env (Some "prj_1") (Some publishOptions) (freshState w)
       = (inr (ConvertRoute.Json 200 "Conversion process started"), s')
       /\ ConvertRoute.store s' !! "prj_1" = Some final
       /\ Job.status final = failed
       /\ forallb (fun line =>
                     negb (includes line "does not appear to be a Next.js project"))
            (Job.logs final) = true.
Proof.
  cbv zeta. repeat split.
  - eexists. split; [vm_compute; reflexivity |]. repeat split.
  - eexists _, _. split; [vm_compute; reflexivity |].
    split; [vm_compute; reflexivity |]. split; vm_compute; reflexivity.
Qed.

(** ** C7: the terminal status *)

Section Triples.
Context {S : Type}.

Lemma triple_ret {A : Type} (P : S -> Prop) (a : A) (Q : A -> S -> Prop) (X : S -> Prop) :
  (forall s, P s -> Q a s) -> triple P (ret a) Q X.
Proof. intros H s Hs. by apply H. Qed.

Lemma triple_throw {A : Type} (P : S -> Prop) (e : thrown) (Q : A -> S -> Prop)
  (X : S -> Prop) :
  (forall s, P s -> X s) -> triple P (throw e) Q X.
Proof. intros H s Hs. by apply H. Qed.

Lemma triple_bind {A B : Type} (P : S -> Prop) (m : Comp S A) (k : A -> Comp S B)
  (Q' : A -> S -> Prop) (Q : B -> S -> Prop) (X : S -> Prop) :
  triple P m Q' X ->
  (forall a, triple (Q' a) (k a) Q X) ->
  triple P (bind m k) Q X.
Proof.
  intros Hm Hk s Hs. specialize (Hm s Hs). rewrite bind_run.
  destruct (m s) as [[e | a] s']; [done |]. by apply Hk.
Qed.

Lemma triple_try {A : Type} (P : S -> Prop) (m : Comp S A) (h : thrown -> Comp S A)
  (Q : A -> S -> Prop) (X' X : S -> Prop) :
  triple P m Q X' ->
  (forall e, triple X' (h e) Q X) ->
  triple P (try_catch m h) Q X.
Proof.
  intros Hm Hh s Hs. specialize (Hm s Hs). rewrite try_catch_run.
  destruct (m s) as [[e | a] s']; [by apply Hh | done].
Qed.

Lemma triple_when (c : bool) (m : Comp S unit) (P Q : S -> Prop) (X : S -> Prop) :
  triple P m (fun _ => Q) X ->
  (forall s, P s -> Q s) ->
  triple P (when c m) (fun _ => Q) X.
Proof. intros Hm Hskip. destruct c; [exact Hm | by apply triple_ret]. Qed.

Lemma triple_lift_sum {A : Type} (P : S -> Prop) (r : thrown + A) :
  triple P (lift_sum r) (fun _ => P) P.
Proof. intros s Hs. unfold lift_sum. by destruct r. Qed.

Lemma triple_gets {A : Type} (P : S -> Prop) (f : S -> A) (X : S -> Prop) :
  triple P (gets f) (fun a s => P s /\ a = f s) X.
Proof. intros s Hs. by split. Qed.

Lemma triple_ret_same {A : Type} (P : S -> Prop) (a : A) (X : S -> Prop) :
  triple P (ret a) (fun _ => P) X.
Proof. by apply triple_ret. Qed.

Lemma triple_assume {A : Type} (F : Prop) (P : S -> Prop) (m : Comp S A)
  (Q : A -> S -> Prop) (X : S -> Prop) :
  (F -> triple P m Q X) -> triple (fun s => P s /\ F) m Q X.
Proof. intros H s [Hs HF]. by apply H. Qed.

Lemma triple_weaken {A : Type} (P : S -> Prop) (m : Comp S A)
  (Q Q' : A -> S -> Prop) (X X' : S -> Prop) :
  triple P m Q X ->
  (forall a s, Q a s -> Q' a s) ->
  (forall s, X s -> X' s) ->
  triple P m Q' X'.
Proof.
  intros Hm HQ HX s Hs. specialize (Hm s Hs).
  destruct (m s) as [[e | a] s']; auto.
Qed.
End Triples.





Section Invariant.
Variable E : Env.
Variable projectId : string.
Variable past : list ConvertRoute.event.

















End Invariant.



Section Run.
Variable E : Env.
Variable projectId : string.
Variable past : list ConvertRoute.event.






End Run.






(** ** Running the pipeline twice *)

Section Members.

Lemma assoc_get_set_eq k v ms : assoc_get k (assoc_set k v ms) = Some v.
Proof.
  induction ms as [| [k' v'] ms IH]; simpl.
  - by rewrite String.eqb_refl.
  - destruct (String.eqb k k') eqn:Hk; simpl.
    + by rewrite String.eqb_refl.
    + by rewrite Hk.
Qed.

Lemma assoc_get_set_ne k k' v ms :
  k <> k' -> assoc_get k (assoc_set k' v ms) = assoc_get k ms.
Proof.
  intros Hne. induction ms as [| [k0 v0] ms IH]; simpl.
  - by apply String.eqb_neq in Hne as ->.
  - destruct (String.eqb k' k0) eqn:Hk; simpl.
    + apply String.eqb_eq in Hk as <-.
      by apply String.eqb_neq in Hne as ->.
    + by rewrite IH.
Qed.

Lemma assoc_set_id k v ms : assoc_get k ms = Some v -> assoc_set k v ms = ms.
Proof.
  induction ms as [| [k' v'] ms IH]; simpl; [done |].
  destruct (String.eqb k k') eqn:Hk.
  - apply String.eqb_eq in Hk as <-. by intros [= ->].
  - intros H. by rewrite IH.
Qed.

Lemma assoc_get_del k ms : assoc_get k (assoc_del k ms) = None.
Proof.
  induction ms as [| [k' v'] ms IH]; simpl; [done |].
  destruct (String.eqb k k') eqn:Hk; simpl; [done |]. by rewrite Hk.
Qed.

(** The scripts object after the three assignments: running them again
    changes nothing. *)
Lemma setThree_idem s s' : setThree s = inr s' -> setThree s' = inr s'.
Proof.
  unfold setThree.
  destruct s as [| b | n | t | l | ms]; simpl; try discriminate.
  - by intros [= <-].
  - intros [= <-]. simpl.
    rewrite (assoc_set_id "preview").
    2: { rewrite assoc_get_set_ne by discriminate.
         rewrite assoc_get_set_ne by discriminate. apply assoc_get_set_eq. }
    rewrite (assoc_set_id "deploy").
    2: { rewrite assoc_get_set_ne by discriminate. apply assoc_get_set_eq. }
    rewrite (assoc_set_id "cf-typegen") by apply assoc_get_set_eq.
    done.
Qed.

Lemma setThree_truthy s s' : setThree s = inr s' -> truthy (Some s') = true.
Proof.
  unfold setThree.
  destruct s as [| b | n | t | l | ms]; simpl; try discriminate; by intros [= <-].
Qed.

Lemma setScripts_setThree packageJson :
  ConversionPipeline.setScripts packageJson
  = match member_strict packageJson "scripts" with
    | inl e => inl e
    | inr s0 =>
        let scripts := if truthy s0 then default (JObj []) s0 else JObj [] in
        match set_member packageJson "scripts" scripts with
        | inl e => inl e
        | inr packageJson1 =>
            match setThree scripts with
            | inl e => inl e
            | inr s3 => set_member packageJson1 "scripts" s3
            end
        end
    end.
Proof.
  unfold ConversionPipeline.setScripts, setThree.
  destruct (member_strict packageJson "scripts") as [e | s0]; [done |].
  cbv zeta.
  destruct (set_member packageJson "scripts" _) as [e | packageJson1]; [done |].
  destruct (set_member _ "preview" _) as [e | s1]; [done |].
  by destruct (set_member s1 "deploy" _) as [e | s2].
Qed.

(** An object whose scripts are the outcome of the three assignments is a
    fixed point of [setScripts]. *)
Lemma setScripts_fixed ms s3 :
  assoc_get "scripts" ms = Some s3 ->
  setThree s3 = inr s3 ->
  truthy (Some s3) = true ->
  ConversionPipeline.setScripts (JObj ms) = inr (JObj ms).
Proof.
  intros Hget Hthree Htruthy.
  rewrite setScripts_setThree. cbn [member_strict member].
  rewrite Hget. cbv zeta. rewrite Htruthy. cbn [default from_option id set_member].
  rewrite Hthree. by rewrite !(assoc_set_id "scripts" s3 ms Hget).
Qed.

Lemma setScripts_object ms packageJson :
  ConversionPipeline.setScripts (JObj ms) = inr packageJson ->
  exists ms' s3,
    packageJson = JObj ms'
    /\ assoc_get "scripts" ms' = Some s3
    /\ setThree s3 = inr s3
    /\ truthy (Some s3) = true.
Proof.
  rewrite setScripts_setThree. cbn [member_strict member]. cbv zeta.
  cbn [set_member].
  destruct (setThree _) as [e | s3] eqn:Hthree; [done |].
  intros [= <-]. eexists _, s3. split; [reflexivity |].
  split; [apply assoc_get_set_eq |].
  split; [by eapply setThree_idem | by eapply setThree_truthy].
Qed.

Lemma setScripts_idem packageJson packageJson' :
  ConversionPipeline.setScripts packageJson = inr packageJson' ->
  ConversionPipeline.setScripts packageJson' = inr packageJson'.
Proof.
  destruct packageJson as [| b | n | t | l | ms]; try discriminate.
  - by intros [= <-].
  - intros (ms' & s3 & -> & Hget & Hthree & Htruthy)%setScripts_object.
    by eapply setScripts_fixed.
Qed.

Lemma setScripts_deleteNextOnPages packageJson group :
  group <> "scripts" ->
  ConversionPipeline.setScripts packageJson = inr packageJson ->
  ConversionPipeline.setScripts (ConversionPipeline.deleteNextOnPages packageJson group)
  = inr (ConversionPipeline.deleteNextOnPages packageJson group).
Proof.
  intros Hgroup Hfixed.
  destruct packageJson as [| b | n | t | l | ms]; try done.
  unfold ConversionPipeline.deleteNextOnPages.
  destruct (member (JObj ms) group) as [[| | | | | deps] |]; try done.
  pose proof Hfixed as (ms' & s3 & [= <-] & Hget & Hthree & Htruthy)%setScripts_object.
  eapply setScripts_fixed; [| exact Hthree | exact Htruthy].
  rewrite assoc_get_set_ne by done. exact Hget.
Qed.

Lemma clean_deleteNextOnPages packageJson group :
  truthy (member_opt (member packageJson group) ConversionPipeline.nextOnPages) = true ->
  clean (ConversionPipeline.deleteNextOnPages packageJson group) group.
Proof.
  unfold clean, ConversionPipeline.deleteNextOnPages.
  destruct packageJson as [| b | n | t | l | ms]; try done.
  destruct (member (JObj ms) group) as [[| | | | | deps] |] eqn:Hmember; try done.
  intros _. cbn [member]. rewrite assoc_get_set_eq. cbn [member_opt member].
  by rewrite assoc_get_del.
Qed.

Lemma clean_deleteNextOnPages_other packageJson group group' :
  group' <> group ->
  clean packageJson group' ->
  clean (ConversionPipeline.deleteNextOnPages packageJson group) group'.
Proof.
  unfold clean, ConversionPipeline.deleteNextOnPages. intros Hne.
  destruct packageJson as [| b | n | t | l | ms]; try done.
  destruct (member (JObj ms) group) as [[| | | | | deps] |] eqn:Hmember; try done.
  cbn [member]. by rewrite assoc_get_set_ne.
Qed.

Lemma includes_app_r (a b needle : string) :
  includes b needle = true -> includes (a +:+ b) needle = true.
Proof.
  intros Hb. induction a as [| c a IH]; [done |].
  change (String c a +:+ b) with (String c (a +:+ b)).
  cbn [includes]. rewrite IH. apply orb_true_r.
Qed.

Lemma includes_gitignoreEntry content :
  includes (content +:+ ConversionPipeline.gitignoreEntry) ".open-next" = true.
Proof. by apply includes_app_r. Qed.

End Members.

(** *** What a step that returned has done *)

Lemma bind_inr {S A B : Type} (m : Comp S A) (k : A -> Comp S B) s b s'' :
  bind m k s = (inr b, s'') ->
  exists a s', m s = (inr a, s') /\ k a s' = (inr b, s'').
Proof.
  rewrite bind_run. destruct (m s) as [[e | a] s'] eqn:Hm; [done |]. eauto.
Qed.

Lemma log_inr message s r s' :
  ConversionPipeline.log message s = (r, s') ->
  ConversionPipeline.world s' = ConversionPipeline.world s.
Proof. by intros [= _ <-]. Qed.

Lemma in_world_inr {A : Type} (m : Comp World A) s a s' :
  ConversionPipeline.in_world m s = (inr a, s') ->
  m (ConversionPipeline.world s) = (inr a, ConversionPipeline.world s').
Proof.
  unfold ConversionPipeline.in_world.
  destruct (m (ConversionPipeline.world s)) as [r w']. by intros [= -> <-].
Qed.

Lemma writeFileSync_inr E p text w u w' :
  writeFileSync E p text w = (inr u, w') ->
  files w' = <[p := text]> (files w) /\ dirs w' = dirs w.
Proof.
  unfold writeFileSync. repeat case_match; try done. by intros [= _ <-].
Qed.

Lemma readFileSync_inr p w text w' :
  readFileSync p w = (inr text, w') -> w' = w /\ files w !! p = Some text.
Proof.
  unfold readFileSync. repeat case_match; try done. by intros [= <- <-].
Qed.

Lemma exec_world E cmd cwd w r w' :
  exec E cmd cwd w = (r, w') ->
  files w' = (execAsync E cmd cwd w).2 /\ dirs w' = dirs w.
Proof.
  unfold exec. destruct (execAsync E cmd cwd w) as [[out | code msg] fs'];
    by intros [= _ <-].
Qed.

(** Takes an equation saying that a sequence returned apart, step by
    step. *)
Ltac returned_steps H :=
  repeat
    match type of H with
    | bind _ _ _ = (inr _, _) =>
        let a := fresh "a" in
        let s := fresh "s" in
        let Hm := fresh "Hstep" in
        apply bind_inr in H as (a & s & Hm & H)
    end.

Section FirstRun.
Variable E : Env.
Variable o : ConversionOptions.t.
Hypothesis Hround : round_trip E.
Hypothesis Hsearch : searchesKeep E o.

Lemma createOpenNextConfig_inr s s' :
  ConversionPipeline.createOpenNextConfig E o s = (inr tt, s') ->
  files (ConversionPipeline.world s')
  = <[ConversionPipeline.openNextConfigPath E o := ConversionPipeline.openNextConfig o]>
      (files (ConversionPipeline.world s))
  /\ dirs (ConversionPipeline.world s') = dirs (ConversionPipeline.world s).
Proof.
  unfold ConversionPipeline.createOpenNextConfig. intros H.
  returned_steps H.
  apply log_inr in Hstep, H.
  apply in_world_inr, writeFileSync_inr in Hstep0 as [Hfiles Hdirs].
  rewrite H, Hfiles, Hdirs, Hstep. done.
Qed.

Lemma createWranglerConfig_inr s s' :
  ConversionPipeline.createWranglerConfig E o s = (inr tt, s') ->
  files (ConversionPipeline.world s')
  = <[ConversionPipeline.wranglerPath E o := ConversionPipeline.wranglerConfig o]>
      (files (ConversionPipeline.world s))
  /\ dirs (ConversionPipeline.world s') = dirs (ConversionPipeline.world s).
Proof.
  unfold ConversionPipeline.createWranglerConfig. intros H.
  returned_steps H.
  apply log_inr in Hstep, H.
  apply in_world_inr, writeFileSync_inr in Hstep0 as [Hfiles Hdirs].
  rewrite H, Hfiles, Hdirs, Hstep. done.
Qed.

Lemma lift_sum_inr {S A : Type} (r : thrown + A) (s : S) a s' :
  lift_sum r s = (inr a, s') -> r = inr a /\ s' = s.
Proof. by intros [= -> <-]. Qed.

Lemma updatePackageJson_inr s s' :
  ConversionPipeline.updatePackageJson E o s = (inr tt, s') ->
  exists packageJson,
    ConversionPipeline.setScripts packageJson = inr packageJson
    /\ printable E packageJson
    /\ files (ConversionPipeline.world s')
       = <[ConversionPipeline.getPackageJsonPath E o := JSON_stringify E packageJson]>
           (files (ConversionPipeline.world s))
    /\ dirs (ConversionPipeline.world s') = dirs (ConversionPipeline.world s).
Proof.
  unfold ConversionPipeline.updatePackageJson. intros H.
  returned_steps H.
  apply log_inr in Hstep, H.
  apply in_world_inr, readFileSync_inr in Hstep0 as [Hs0 Hread].
  apply lift_sum_inr in Hstep1 as [Hparse ->].
  apply lift_sum_inr in Hstep2 as [Hset ->].
  apply in_world_inr, writeFileSync_inr in Hstep3 as [Hfiles Hdirs].
  exists a2. split; [by eapply setScripts_idem |].
  split; [by eapply printable_scripts; [eapply printable_parsed |] |].
  rewrite H, Hfiles, Hdirs, Hs0, Hstep. done.
Qed.

Lemma removeFromGroup_inr path group packageJson s packageJson' s' :
  ConversionPipeline.removeFromGroup E path group packageJson s = (inr packageJson', s') ->
  dirs (ConversionPipeline.world s') = dirs (ConversionPipeline.world s)
  /\ clean packageJson' group
  /\ (packageJson' = packageJson
      /\ files (ConversionPipeline.world s') = files (ConversionPipeline.world s)
      \/ packageJson' = ConversionPipeline.deleteNextOnPages packageJson group
         /\ files (ConversionPipeline.world s')
            = <[path := JSON_stringify E packageJson']> (files (ConversionPipeline.world s))).
Proof.
  unfold ConversionPipeline.removeFromGroup. intros H.
  returned_steps H.
  apply lift_sum_inr in Hstep as [Hmember ->].
  assert (Hdeps : a = member packageJson group).
  { destruct packageJson; simpl in *; congruence. }
  subst a.
  destruct (truthy (member_opt (member packageJson group) ConversionPipeline.nextOnPages))
    eqn:Htruthy.
  - returned_steps H.
    apply log_inr in Hstep.
    apply in_world_inr, writeFileSync_inr in Hstep0 as [Hfiles Hdirs].
    injection H as <- <-.
    split; [by rewrite Hdirs, Hstep |].
    split; [by apply clean_deleteNextOnPages |].
    right. split; [done |]. by rewrite Hfiles, Hstep.
  - injection H as <- <-. split; [done |]. split; [exact Htruthy |]. by left.
Qed.

Lemma removal_world (s : ConversionPipeline.state) r s' :
  try_catch
    (ConversionPipeline.in_world
       (exec E ConversionPipeline.sed_edge_cmd (ConversionPipeline.manifestDir E o)) ;;
     ConversionPipeline.log "Removed edge runtime declarations from files")
    (fun _ =>
       ConversionPipeline.log
         "Note: Could not automatically remove edge runtime declarations. You may need to remove these manually.")
    s = (r, s') ->
  files (ConversionPipeline.world s) !! ConversionPipeline.openNextConfigPath E o
  = Some (ConversionPipeline.openNextConfig o) ->
  dirs (ConversionPipeline.world s') = dirs (ConversionPipeline.world s)
  /\ forall p, In p (tracked E o) ->
       files (ConversionPipeline.world s') !! p = files (ConversionPipeline.world s) !! p.
Proof.
  rewrite try_catch_run, bind_run. unfold ConversionPipeline.in_world. intros Hrun Hconfig.
  revert Hrun.
  destruct (exec E _ _ (ConversionPipeline.world s)) as [[e | out] w'] eqn:Hexec;
    apply exec_world in Hexec as [Hfiles Hdirs];
    intros [= _ <-]; simpl;
    (split; [exact Hdirs |]); intros p Hp; rewrite Hfiles;
    by apply (Hsearch (ConversionPipeline.world s) p Hp).
Qed.

Lemma removeConflictingReferences_inr s s' packageJson :
  files (ConversionPipeline.world s) !! ConversionPipeline.getPackageJsonPath E o
  = Some (JSON_stringify E packageJson) ->
  ConversionPipeline.setScripts packageJson = inr packageJson ->
  printable E packageJson ->
  ConversionPipeline.getPackageJsonPath E o <> ConversionPipeline.openNextConfigPath E o ->
  files (ConversionPipeline.world s) !! ConversionPipeline.openNextConfigPath E o
  = Some (ConversionPipeline.openNextConfig o) ->
  ConversionPipeline.removeConflictingReferences E o s = (inr tt, s') ->
  exists packageJson',
    ConversionPipeline.setScripts packageJson' = inr packageJson'
    /\ printable E packageJson'
    /\ clean packageJson' "dependencies"
    /\ clean packageJson' "devDependencies"
    /\ dirs (ConversionPipeline.world s') = dirs (ConversionPipeline.world s)
    /\ forall p, In p (tracked E o) ->
         files (ConversionPipeline.world s') !! p
         = <[ConversionPipeline.getPackageJsonPath E o := JSON_stringify E packageJson']>
             (files (ConversionPipeline.world s)) !! p.
Proof.
  intros Hfile Hfixed Hprintable Hpaths Hconfig.
  unfold ConversionPipeline.removeConflictingReferences. intros H.
  apply bind_inr in H as (? & s0 & Hlog & H). apply log_inr in Hlog.
  apply bind_inr in H as (text & s1 & Hread & H).
  apply in_world_inr, readFileSync_inr in Hread as [Hs1 Hread].
  rewrite Hlog, Hfile in Hread. injection Hread as <-.
  apply bind_inr in H as (parsed & ? & Hparse & H).
  apply lift_sum_inr in Hparse as [Hparse ->].
  rewrite (Hround _ Hprintable) in Hparse. injection Hparse as <-.
  apply bind_inr in H as (json1 & s2 & Hfirst & H).
  apply removeFromGroup_inr in Hfirst as (Hdirs2 & Hclean2 & Hfiles2).
  apply bind_inr in H as (json2 & s3 & Hsecond & H).
  apply removeFromGroup_inr in Hsecond as (Hdirs3 & Hclean3 & Hfiles3).
  apply bind_inr in H as (? & s4 & Hsed & H).
  assert (Hconfig3 : files (ConversionPipeline.world s3)
                       !! ConversionPipeline.openNextConfigPath E o
                     = Some (ConversionPipeline.openNextConfig o)).
  { assert (Hconfig2 : files (ConversionPipeline.world s2)
                         !! ConversionPipeline.openNextConfigPath E o
                       = Some (ConversionPipeline.openNextConfig o)).
    { destruct Hfiles2 as [[_ ->] | [_ ->]];
        rewrite ?lookup_insert_ne by done; by rewrite Hs1, Hlog. }
    destruct Hfiles3 as [[_ ->] | [_ ->]];
      rewrite ?lookup_insert_ne by done; exact Hconfig2. }
  apply removal_world in Hsed as (Hdirs4 & Hfiles4); [| exact Hconfig3].
  apply log_inr in H.
  exists json2.
  assert (Hfixed1 : ConversionPipeline.setScripts json1 = inr json1).
  { destruct Hfiles2 as [[-> _] | [-> _]]; [done |].
    by apply setScripts_deleteNextOnPages. }
  assert (Hprintable1 : printable E json1).
  { destruct Hfiles2 as [[-> _] | [-> _]]; [done |]. by apply printable_removed. }
  split.
  { destruct Hfiles3 as [[-> _] | [-> _]]; [done |].
    by apply setScripts_deleteNextOnPages. }
  split.
  { destruct Hfiles3 as [[-> _] | [-> _]]; [done |]. by apply printable_removed. }
  split.
  { destruct Hfiles3 as [[-> _] | [-> _]]; [done |].
    by apply clean_deleteNextOnPages_other. }
  split; [done |].
  split; [by rewrite H, Hdirs4, Hdirs3, Hdirs2, Hs1, Hlog |].
  intros p Hp. rewrite H, (Hfiles4 p Hp).
  assert (Hstart : files (ConversionPipeline.world s1)
                   = <[ConversionPipeline.getPackageJsonPath E o := JSON_stringify E packageJson]>
                       (files (ConversionPipeline.world s))).
  { rewrite Hs1, Hlog. by rewrite insert_id. }
  assert (Hmid : files (ConversionPipeline.world s2)
                 = <[ConversionPipeline.getPackageJsonPath E o := JSON_stringify E json1]>
                     (files (ConversionPipeline.world s))).
  { destruct Hfiles2 as [[-> ->] | [_ ->]]; [done |].
    by rewrite Hstart, insert_insert_eq. }
  destruct Hfiles3 as [[-> ->] | [_ ->]]; [by rewrite Hmid |].
  by rewrite Hmid, insert_insert_eq.
Qed.

Lemma gets_inr {S A : Type} (f : S -> A) (s : S) a s' :
  gets f s = (inr a, s') -> a = f s /\ s' = s.
Proof. by intros [= <- <-]. Qed.

Lemma when_log_world c message s r s' :
  when c (ConversionPipeline.log message) s = (r, s') ->
  ConversionPipeline.world s' = ConversionPipeline.world s.
Proof. destruct c; [apply log_inr | by intros [= _ <-]]. Qed.

Lemma existsSync_written p text w w' :
  files w' = <[p := text]> (files w) -> existsSync p w' = true.
Proof. intros H. unfold existsSync. by rewrite H, lookup_insert_eq. Qed.

Lemma existsSync_other p q text w w' :
  p <> q ->
  files w' = <[q := text]> (files w) -> dirs w' = dirs w ->
  existsSync p w' = existsSync p w.
Proof.
  intros Hne Hfiles Hdirs. unfold existsSync.
  by rewrite Hfiles, Hdirs, lookup_insert_ne.
Qed.

Lemma existsSync_false p w : existsSync p w = false -> files w !! p = None.
Proof. unfold existsSync. by repeat case_match. Qed.

Lemma updateGitignore_inr s s' :
  (truthy_str (ConversionOptions.packageJsonPath o) = true ->
   ConversionPipeline.rootGitignore E o <> ConversionPipeline.subfolderGitignore E o) ->
  ConversionPipeline.updateGitignore E o s = (inr tt, s') ->
  let G := gitignorePath E o (ConversionPipeline.world s) in
  let before := default "" (files (ConversionPipeline.world s) !! G) in
  dirs (ConversionPipeline.world s') = dirs (ConversionPipeline.world s)
  /\ gitignorePath E o (ConversionPipeline.world s') = G
  /\ files (ConversionPipeline.world s') !! G
     = Some (if includes before ".open-next"
             then before
             else before +:+ ConversionPipeline.gitignoreEntry)
  /\ forall q, q <> G ->
       files (ConversionPipeline.world s') !! q = files (ConversionPipeline.world s) !! q.
Proof.
  intros Hpaths. unfold ConversionPipeline.updateGitignore. intros H. cbv zeta.
  apply bind_inr in H as (? & s0 & Hlog & H). apply log_inr in Hlog.
  apply bind_inr in H as (sub & ? & Hsub & H). apply gets_inr in Hsub as [Hsub ->].
  apply bind_inr in H as (? & s1 & Hwhen & H). apply when_log_world in Hwhen.
  apply bind_inr in H as (found & ? & Hfound & H). apply gets_inr in Hfound as [Hfound ->].
  apply bind_inr in H as (content & s2 & Hcontent & H).
  rewrite Hlog in Hsub. rewrite Hwhen, Hlog in Hfound.
  unfold gitignorePath. rewrite <- Hsub.
  set (G := if sub then ConversionPipeline.subfolderGitignore E o
            else ConversionPipeline.rootGitignore E o) in *.
  assert (Hs2 : ConversionPipeline.world s2 = ConversionPipeline.world s
                /\ (found = true -> files (ConversionPipeline.world s) !! G = Some content)
                /\ (found = false -> content = "")).
  { destruct found.
    - apply in_world_inr, readFileSync_inr in Hcontent as [Hw Hread].
      rewrite Hwhen, Hlog in Hw, Hread. by rewrite Hw.
    - apply bind_inr in Hcontent as (? & s3 & Hlog3 & Hcontent). apply log_inr in Hlog3.
      injection Hcontent as <- <-. by rewrite Hlog3, Hwhen, Hlog. }
  destruct Hs2 as (Hs2 & Hyes & Hno).
  assert (Hbefore : default "" (files (ConversionPipeline.world s) !! G) = content).
  { destruct found.
    - by rewrite Hyes.
    - symmetry in Hfound. apply existsSync_false in Hfound. by rewrite Hfound, Hno. }
  rewrite Hbefore.
  destruct (includes content ".open-next") eqn:Hincludes; cbn [negb] in H.
  - apply log_inr in H. rewrite H, Hs2.
    split; [done |]. split; [by rewrite <- Hsub |].
    split; [| done].
    destruct found; [by apply Hyes |]. by rewrite Hno in Hincludes.
  - apply bind_inr in H as (? & s3 & Hwrite & H). apply log_inr in H.
    apply in_world_inr, writeFileSync_inr in Hwrite as [Hfiles Hdirs].
    rewrite Hs2 in Hfiles, Hdirs. rewrite H.
    split; [done |].
    split.
    { unfold ConversionPipeline.usesSubfolderGitignore in *.
      destruct sub; subst G.
      - symmetry in Hsub. apply andb_prop in Hsub as [[Htruthy Hroot]%andb_prop Hsubfolder].
        rewrite Htruthy.
        rewrite (existsSync_other _ _ _ (ConversionPipeline.world s)
                   (ConversionPipeline.world s3) (Hpaths Htruthy) Hfiles Hdirs).
        rewrite (existsSync_written _ _ _ _ Hfiles).
        by rewrite Hroot.
      - rewrite (existsSync_written _ _ _ _ Hfiles). cbn [negb].
        by rewrite andb_false_r. }
    split; [by rewrite Hfiles, lookup_insert_eq |].
    intros q Hq. by rewrite Hfiles, lookup_insert_ne.
Qed.

Lemma includes_after_update before :
  includes (if includes before ".open-next"
            then before
            else before +:+ ConversionPipeline.gitignoreEntry) ".open-next" = true.
Proof.
  destruct (includes before ".open-next") eqn:H; [done | apply includes_gitignoreEntry].
Qed.
End FirstRun.

Lemma runSteps_returned (m : Comp ConversionPipeline.state unit)
  (l : list (Comp ConversionPipeline.state unit)) s n s' :
  runSteps (m :: l) s = (None, n, s') ->
  exists s1 n', m s = (inr tt, s1) /\ runSteps l s1 = (None, n', s').
Proof.
  cbn [runSteps]. destruct (m s) as [[e | []] s1]; [done |].
  destruct (runSteps l s1) as [[outcome n'] s''] eqn:Hl.
  intros [= -> <- <-]. eauto.
Qed.

Lemma tracked_distinct (E : Env) (o : ConversionOptions.t) :
  NoDup (tracked E o) ->
  let P := ConversionPipeline.getPackageJsonPath E o in
  let O := ConversionPipeline.openNextConfigPath E o in
  let W := ConversionPipeline.wranglerPath E o in
  let R := ConversionPipeline.rootGitignore E o in
  let S := ConversionPipeline.subfolderGitignore E o in
  (P <> O /\ P <> W /\ P <> R /\ O <> W /\ O <> R /\ W <> R)
  /\ (truthy_str (ConversionOptions.packageJsonPath o) = true ->
      P <> S /\ O <> S /\ W <> S /\ R <> S).
Proof.
  unfold tracked. intros H. cbv zeta.
  destruct (truthy_str (ConversionOptions.packageJsonPath o)); simpl in H;
    rewrite !list.NoDup_cons, !not_elem_of_cons in H; intuition congruence.
Qed.

Lemma tracked_gitignorePath (E : Env) (o : ConversionOptions.t) (w : World) :
  In (gitignorePath E o w) (tracked E o).
Proof.
  unfold gitignorePath, ConversionPipeline.usesSubfolderGitignore, tracked.
  destruct (truthy_str (ConversionOptions.packageJsonPath o)); simpl.
  - destruct (_ && _); auto 6.
  - auto 6.
Qed.

Lemma gitignorePath_distinct (E : Env) (o : ConversionOptions.t) (w : World) :
  NoDup (tracked E o) ->
  ConversionPipeline.getPackageJsonPath E o <> gitignorePath E o w
  /\ ConversionPipeline.openNextConfigPath E o <> gitignorePath E o w
  /\ ConversionPipeline.wranglerPath E o <> gitignorePath E o w.
Proof.
  intros [Hmain Hsub]%tracked_distinct.
  unfold gitignorePath, ConversionPipeline.usesSubfolderGitignore.
  destruct (truthy_str (ConversionOptions.packageJsonPath o)); simpl.
  - destruct (_ && _); tauto.
  - tauto.
Qed.

(** A run that reports success leaves a converted checkout. *)
Lemma successful_run_converts (E : Env) (o : ConversionOptions.t) (w0 w1 : World)
  (r1 : ConversionResult.t) :
  round_trip E -> searchesKeep E o -> NoDup (tracked E o) ->
  ConversionPipeline.runPipeline E o w0 = (inr r1, w1) ->
  ConversionResult.success r1 = true ->
  converted E o w1.
Proof.
  intros Hround Hsearch Hdup Hrun Hok.
  pose proof (tracked_distinct E o Hdup) as [(HPO & HPW & HPR & HOW & HOR & HWR) Hsub].
  rewrite runPipeline_is_run in Hrun.
  destruct (runSteps (steps E o) (started (ConversionPipeline.mkState [] w0)))
    as [[outcome n] s7] eqn:Hsteps.
  unfold concluded in Hrun. injection Hrun as <- <-.
  destruct outcome as [e |]; [done |]. clear Hok.
  unfold steps in Hsteps.
  apply runSteps_returned in Hsteps as (s1 & ? & _ & Hsteps).
  apply runSteps_returned in Hsteps as (s2 & ? & _ & Hsteps).
  apply runSteps_returned in Hsteps as (s3 & ? & H3 & Hsteps).
  apply runSteps_returned in Hsteps as (s4 & ? & H4 & Hsteps).
  apply runSteps_returned in Hsteps as (s5 & ? & H5 & Hsteps).
  apply runSteps_returned in Hsteps as (s6 & ? & H6 & Hsteps).
  apply runSteps_returned in Hsteps as (s7' & ? & H7 & Hsteps).
  injection Hsteps as _ <-.
  apply createOpenNextConfig_inr in H3 as [Hfiles3 _].
  apply createWranglerConfig_inr in H4 as [Hfiles4 _].
  apply updatePackageJson_inr in H5 as (json5 & Hfixed5 & Hprintable5 & Hfiles5 & _).
  eapply (removeConflictingReferences_inr E o Hround Hsearch) in H6
    as (json6 & Hfixed & Hprintable & Hdeps & Hdev & _ & Hfiles6);
    [| by rewrite Hfiles5, lookup_insert_eq | exact Hfixed5 | exact Hprintable5 | exact HPO
     | by rewrite Hfiles5, lookup_insert_ne, Hfiles4, lookup_insert_ne, Hfiles3,
            lookup_insert_eq by done ].
  apply updateGitignore_inr in H7 as (_ & Hpath & Hentry & Hfiles7); [| tauto].
  cbv zeta in Hpath, Hentry, Hfiles7.
  pose proof (gitignorePath_distinct E o (ConversionPipeline.world s6) Hdup)
    as (HPG & HOG & HWG).
  cbn [ConversionPipeline.world].
  assert (HO : In (ConversionPipeline.openNextConfigPath E o) (tracked E o)).
  { unfold tracked. simpl. auto. }
  assert (HW : In (ConversionPipeline.wranglerPath E o) (tracked E o)).
  { unfold tracked. simpl. auto. }
  assert (HP : In (ConversionPipeline.getPackageJsonPath E o) (tracked E o)).
  { unfold tracked. simpl. auto. }
  split.
  { rewrite Hfiles7, (Hfiles6 _ HO) by done.
    rewrite lookup_insert_ne, Hfiles5, lookup_insert_ne, Hfiles4, lookup_insert_ne by done.
    by rewrite Hfiles3, lookup_insert_eq. }
  split.
  { rewrite Hfiles7, (Hfiles6 _ HW) by done.
    rewrite lookup_insert_ne, Hfiles5, lookup_insert_ne, Hfiles4 by done.
    by rewrite lookup_insert_eq. }
  split.
  { exists json6. split; [| done].
    rewrite Hfiles7, (Hfiles6 _ HP) by done. by rewrite lookup_insert_eq. }
  rewrite Hpath. eexists. split; [exact Hentry | apply includes_after_update].
Qed.

(** *** A run on a converted checkout *)

Lemma triple_bind_lift {S A B : Type} (P : S -> Prop) (r : thrown + A)
  (k : A -> Comp S B) (Q : B -> S -> Prop) :
  (forall a, r = inr a -> triple P (k a) Q P) ->
  triple P (bind (lift_sum r) k) Q P.
Proof.
  intros Hk s Hs. rewrite bind_run. unfold lift_sum.
  destruct r as [e | a]; [done |]. by apply Hk.
Qed.

Lemma triple_gets_same {S A : Type} (P : S -> Prop) (f : S -> A) (X : S -> Prop) :
  triple P (gets f) (fun _ => P) X.
Proof. by intros s Hs. Qed.

Section SecondRun.
Variable E : Env.
Variable o : ConversionOptions.t.
Variable w1 : World.
Hypothesis Hround : round_trip E.
Hypothesis Hsearch : searchesKeep E o.
Hypothesis Hinstall : installSettled E o w1.
Hypothesis Hconverted : converted E o w1.

(** The invariant of the second run. *)
Let kept (s : ConversionPipeline.state) : Prop := agrees E o w1 (ConversionPipeline.world s).

Lemma tracked_manifest : In (ConversionPipeline.getPackageJsonPath E o) (tracked E o).
Proof. unfold tracked. simpl. auto. Qed.

Lemma tracked_openNextConfig : In (ConversionPipeline.openNextConfigPath E o) (tracked E o).
Proof. unfold tracked. simpl. auto. Qed.

Lemma tracked_wrangler : In (ConversionPipeline.wranglerPath E o) (tracked E o).
Proof. unfold tracked. simpl. auto. Qed.

Lemma existsSync_agrees p w :
  In p (tracked E o) -> agrees E o w1 w -> existsSync p w = existsSync p w1.
Proof. intros Hp [Hdirs Hfiles]. unfold existsSync. by rewrite Hdirs, Hfiles. Qed.

Lemma usesSubfolderGitignore_agrees w :
  agrees E o w1 w ->
  ConversionPipeline.usesSubfolderGitignore E o w
  = ConversionPipeline.usesSubfolderGitignore E o w1.
Proof.
  intros Hw. unfold ConversionPipeline.usesSubfolderGitignore.
  destruct (truthy_str (ConversionOptions.packageJsonPath o)) eqn:Htruthy; [| done].
  rewrite (existsSync_agrees (ConversionPipeline.rootGitignore E o) w),
    (existsSync_agrees (ConversionPipeline.subfolderGitignore E o) w); [done | | done | | done].
  - unfold tracked. rewrite Htruthy. simpl. auto 6.
  - unfold tracked. simpl. auto 6.
Qed.

Lemma log_kept message X :
  triple kept (ConversionPipeline.log message) (fun _ => kept) X.
Proof. by intros [ls w] Hs. Qed.

Lemma write_kept p text :
  In p (tracked E o) -> files w1 !! p = Some text ->
  triple kept (ConversionPipeline.in_world (writeFileSync E p text)) (fun _ => kept) kept.
Proof.
  intros Hp Htext [ls w] [Hdirs Hfiles].
  unfold ConversionPipeline.in_world, writeFileSync. simpl.
  repeat case_match; simplify_eq/=; try done.
  split; [done |]. intros q Hq. simpl.
  destruct (decide (q = p)) as [-> | Hne].
  - by rewrite lookup_insert_eq.
  - rewrite lookup_insert_ne by done. by apply Hfiles.
Qed.

Lemma read_kept p :
  In p (tracked E o) ->
  triple kept (ConversionPipeline.in_world (readFileSync p))
    (fun text s => kept s /\ files w1 !! p = Some text) kept.
Proof.
  intros Hp [ls w] [Hdirs Hfiles].
  unfold ConversionPipeline.in_world, readFileSync. simpl.
  destruct (files w !! p) as [text |] eqn:Hread.
  - split; [done |]. by rewrite <- Hfiles.
  - by destruct (dirs w !! p).
Qed.

Lemma read_kept_any p :
  triple kept (ConversionPipeline.in_world (readFileSync p)) (fun _ => kept) kept.
Proof.
  intros [ls w] Hs.
  unfold ConversionPipeline.in_world, readFileSync. simpl.
  destruct (files w !! p) as [text |]; [done |]. by destruct (dirs w !! p).
Qed.

Lemma exec_kept cmd cwd :
  cmd = ConversionPipeline.grep_edge_cmd /\ cwd = ConversionOptions.projectPath o
  \/ cmd = ConversionPipeline.sed_edge_cmd /\ cwd = ConversionPipeline.manifestDir E o
  \/ cmd = ConversionPipeline.npm_install_cmd /\ cwd = ConversionPipeline.manifestDir E o ->
  triple kept (ConversionPipeline.in_world (exec E cmd cwd)) (fun _ => kept) kept.
Proof.
  intros Hcmd [ls w] [Hdirs Hfiles].
  unfold ConversionPipeline.in_world. simpl.
  destruct (exec E cmd cwd w) as [r w'] eqn:Hexec.
  apply exec_world in Hexec as [Hfiles' Hdirs'].
  assert (Hkept : agrees E o w1 w').
  { split; [by rewrite Hdirs' |]. intros p Hp. rewrite Hfiles'.
    destruct Hcmd as [[-> ->] | [[-> ->] | [-> ->]]].
    - destruct (Hsearch w p Hp) as [-> _]. by apply Hfiles.
    - destruct (Hsearch w p Hp) as [_ ->]; [by apply Hfiles |].
      simpl in Hfiles.
      rewrite (Hfiles _ tracked_openNextConfig). by destruct Hconverted as (-> & _).
    - rewrite Hinstall by auto. by apply Hfiles. }
  by destruct r.
Qed.

Lemma throw_kept {A : Type} (e : thrown) (Q : A -> ConversionPipeline.state -> Prop) :
  triple kept (throw e) Q kept.
Proof. by apply triple_throw. Qed.

Lemma when_throw_kept (c : bool) (e : thrown) :
  triple kept (when c (throw e)) (fun _ => kept) kept.
Proof. destruct c; [apply throw_kept | apply triple_ret_same]. Qed.

Ltac kprim :=
  first
    [ apply log_kept | apply read_kept_any | apply triple_gets_same
    | apply triple_lift_sum | apply when_throw_kept | apply throw_kept
    | apply exec_kept; auto ].

Ltac kgo :=
  lazymatch goal with
  | |- triple _ (bind _ _) _ _ => eapply triple_bind; [kgo | intros ?; kgo]
  | |- triple _ (try_catch _ _) _ _ => eapply triple_try; [kgo | intros ?; kgo]
  | |- triple _ (when _ (throw _)) _ _ => apply when_throw_kept
  | |- triple _ (when _ _) _ _ => apply triple_when; [kgo | done]
  | |- triple _ (if ?c then _ else _) _ _ => destruct c; kgo
  | |- triple _ (ret _) ?Q _ =>
      first [is_evar Q; apply triple_ret_same | by apply triple_ret]
  | |- _ => kprim
  end.

Lemma verifyNextJsProject_kept :
  triple kept (ConversionPipeline.verifyNextJsProject E o) (fun _ => kept) kept.
Proof.
  unfold ConversionPipeline.verifyNextJsProject, ConversionPipeline.verifyManifest,
    ConversionPipeline.scanEdgeRuntime.
  kgo.
Qed.

Lemma installDependencies_kept :
  triple kept (ConversionPipeline.installDependencies E o) (fun _ => kept) kept.
Proof. unfold ConversionPipeline.installDependencies. kgo. Qed.

Lemma createOpenNextConfig_kept :
  triple kept (ConversionPipeline.createOpenNextConfig E o) (fun _ => kept) kept.
Proof.
  destruct Hconverted as (Hconfig & _).
  unfold ConversionPipeline.createOpenNextConfig.
  eapply triple_bind; [kgo | intros ?].
  eapply triple_bind; [by apply write_kept; [apply tracked_openNextConfig |] | intros ?].
  kgo.
Qed.

Lemma createWranglerConfig_kept :
  triple kept (ConversionPipeline.createWranglerConfig E o) (fun _ => kept) kept.
Proof.
  destruct Hconverted as (_ & Hconfig & _).
  unfold ConversionPipeline.createWranglerConfig.
  eapply triple_bind; [kgo | intros ?].
  eapply triple_bind; [by apply write_kept; [apply tracked_wrangler |] | intros ?].
  kgo.
Qed.

Lemma updatePackageJson_kept :
  triple kept (ConversionPipeline.updatePackageJson E o) (fun _ => kept) kept.
Proof.
  destruct Hconverted as (_ & _ & (packageJson & Hmanifest & Hprintable & Hfixed & _) & _).
  unfold ConversionPipeline.updatePackageJson.
  eapply triple_bind; [kgo | intros ?].
  eapply triple_bind; [apply read_kept, tracked_manifest | intros text].
  apply triple_assume. rewrite Hmanifest. intros [= <-].
  rewrite (Hround _ Hprintable).
  apply triple_bind_lift. intros ? [= <-].
  rewrite Hfixed.
  apply triple_bind_lift. intros ? [= <-].
  eapply triple_bind; [by apply write_kept; [apply tracked_manifest |] | intros ?].
  kgo.
Qed.

Lemma removeFromGroup_kept path group packageJson :
  clean packageJson group ->
  triple kept (ConversionPipeline.removeFromGroup E path group packageJson)
    (fun packageJson' s => kept s /\ packageJson' = packageJson) kept.
Proof.
  intros Hclean. unfold ConversionPipeline.removeFromGroup.
  apply triple_bind_lift. intros dependencies Hmember.
  assert (Hdeps : dependencies = member packageJson group).
  { destruct packageJson; simpl in *; congruence. }
  subst dependencies. rewrite Hclean. by apply triple_ret.
Qed.

Lemma removeConflictingReferences_kept :
  triple kept (ConversionPipeline.removeConflictingReferences E o) (fun _ => kept) kept.
Proof.
  destruct Hconverted as (_ & _ & (packageJson & Hmanifest & Hprintable & _ & Hdeps & Hdev) & _).
  unfold ConversionPipeline.removeConflictingReferences.
  eapply triple_bind; [kgo | intros ?].
  eapply triple_bind; [apply read_kept, tracked_manifest | intros text].
  apply triple_assume. rewrite Hmanifest. intros [= <-].
  rewrite (Hround _ Hprintable).
  apply triple_bind_lift. intros ? [= <-].
  eapply triple_bind; [by apply removeFromGroup_kept | intros ?].
  apply triple_assume. intros ->.
  eapply triple_bind; [by apply removeFromGroup_kept | intros ?].
  apply triple_assume. intros ->.
  kgo.
Qed.

Lemma updateGitignore_kept :
  triple kept (ConversionPipeline.updateGitignore E o) (fun _ => kept) kept.
Proof.
  destruct Hconverted as (_ & _ & _ & (content & Hcontent & Hincludes)).
  intros [ls w] Hs. pose proof Hs as [Hdirs Hfiles].
  pose proof (usesSubfolderGitignore_agrees w Hs) as Hsub.
  assert (Hread : files w !! gitignorePath E o w1 = Some content).
  { rewrite Hfiles; [done |]. apply tracked_gitignorePath. }
  unfold gitignorePath in Hread, Hcontent.
  unfold ConversionPipeline.updateGitignore, ConversionPipeline.log,
    ConversionPipeline.in_world, readFileSync, existsSync.
  comp_unfold. cbn [ConversionPipeline.world ConversionPipeline.logs].
  rewrite Hsub.
  destruct (ConversionPipeline.usesSubfolderGitignore E o w1);
    cbn [ConversionPipeline.world ConversionPipeline.logs];
    rewrite Hread; cbn [ConversionPipeline.world ConversionPipeline.logs];
    rewrite Hread, Hincludes; exact Hs.
Qed.

(** Whatever a run on a converted checkout does, and wherever it stops, the
    tracked files are afterwards what they were. *)
Lemma run_kept :
  triple kept (ConversionPipeline.run E o) (fun _ => kept) (fun _ => False).
Proof.
  unfold ConversionPipeline.run.
  eapply triple_try.
  - eapply triple_bind; [kgo | intros ?].
    eapply triple_bind; [apply verifyNextJsProject_kept | intros ?].
    eapply triple_bind; [apply installDependencies_kept | intros ?].
    eapply triple_bind; [apply createOpenNextConfig_kept | intros ?].
    eapply triple_bind; [apply createWranglerConfig_kept | intros ?].
    eapply triple_bind; [apply updatePackageJson_kept | intros ?].
    eapply triple_bind; [apply removeConflictingReferences_kept | intros ?].
    eapply triple_bind; [apply updateGitignore_kept | intros ?].
    kgo.
  - intros error. cbv zeta.
    eapply triple_bind; [apply log_kept | intros ?].
    eapply triple_bind; [apply triple_gets_same | intros ?].
    by apply triple_ret.
Qed.

Lemma runPipeline_kept :
  exists r2 w2,
    ConversionPipeline.runPipeline E o w1 = (inr r2, w2) /\ agrees E o w1 w2.
Proof.
  unfold ConversionPipeline.runPipeline.
  assert (Hstart : kept (ConversionPipeline.mkState [] w1)) by done.
  pose proof (run_kept _ Hstart) as Hrun.
  destruct (ConversionPipeline.run E o (ConversionPipeline.mkState [] w1))
    as [[e | r2] s2]; [done |].
  by exists r2, (ConversionPipeline.world s2).
Qed.
End SecondRun.

(** *** The demonstration codec *)

Lemma bits_pos_bits (p : positive) : Demo.bits_pos (Demo.pos_bits p) = Some p.
Proof. induction p as [p IH | p IH |]; simpl; by rewrite ?IH. Qed.

Lemma tree_to_json_to_tree : forall j, Demo.tree_to_json (Demo.json_to_tree j) = Some j.
Proof.
  fix IH 1. intros [| b | n | s | l | ms]; simpl; try reflexivity.
  - assert (Hl : mapM Demo.tree_to_json (map Demo.json_to_tree l) = Some l).
    { induction l as [| j l IHl]; simpl; [done |]. by rewrite IH, IHl. }
    by rewrite Hl.
  - match goal with |- JObj <$> mapM ?f _ = _ => set (member_of := f) end.
    assert (Hms : mapM member_of
                    (map (fun '(k, v) =>
                            GenNode 3 [GenLeaf (inr k); Demo.json_to_tree v]) ms)
                  = Some ms).
    { induction ms as [| [k v] ms IHms]; simpl; [done |]. by rewrite IH, IHms. }
    by rewrite Hms.
Qed.

Lemma demo_round_trip : round_trip Demo.env.
Proof.
  intros j _. simpl. unfold Demo.parse, Demo.stringify.
  by rewrite bits_pos_bits, decode_encode, tree_to_json_to_tree.
Qed.

Lemma codec_round_trip (j : json) : Demo.parse (Demo.stringify j) = inr j.
Proof.
  unfold Demo.parse, Demo.stringify.
  by rewrite bits_pos_bits, decode_encode, tree_to_json_to_tree.
Qed.

Lemma assoc_get_del_ne k k' ms : k <> k' -> assoc_get k (assoc_del k' ms) = assoc_get k ms.
Proof.
  intros Hne. induction ms as [| [k0 v0] ms IH]; simpl; [done |].
  destruct (String.eqb k' k0) eqn:Hk; simpl.
  - apply String.eqb_eq in Hk as <-. by apply String.eqb_neq in Hne as ->.
  - by rewrite IH.
Qed.


(** ** Further properties of the pipeline *)

(** X1.  When [updatePackageJson]'s assignments to the parsed manifest go
    through, the manifest they leave is a fixed point of them and every
    member of the manifest other than scripts is what it was.  When the
    manifest is an object whose scripts member is not an array, the manifest
    they leave has a scripts object, which holds the three fixed commands
    under preview, deploy and cf-typegen, and in which every other script
    of a former scripts object is kept. *)
Theorem scripts_are_set_and_stay_set (packageJson packageJson' : json) :
  ConversionPipeline.setScripts packageJson = inr packageJson' ->
  ConversionPipeline.setScripts packageJson' = inr packageJson'
  /\ (forall k, k <> "scripts" -> member packageJson' k = member packageJson k)
  /\ (forall ms,
        packageJson = JObj ms ->
        (forall l, assoc_get "scripts" ms <> Some (JArr l)) ->
        exists ss,
          member packageJson' "scripts" = Some (JObj ss)
          /\ assoc_get "preview" ss = Some (JStr ConversionPipeline.previewScript)
          /\ assoc_get "deploy" ss = Some (JStr ConversionPipeline.deployScript)
          /\ assoc_get "cf-typegen" ss = Some (JStr ConversionPipeline.typegenScript)
          /\ forall old k,
               member packageJson "scripts" = Some (JObj old) ->
               k <> "preview" -> k <> "deploy" -> k <> "cf-typegen" ->
               assoc_get k ss = assoc_get k old).
Proof.
  intros H. split; [by eapply setScripts_idem |].
  destruct packageJson as [| b | n | t | l | ms]; try discriminate.
  - injection H as <-. split; [done |]. by intros ms [=].
  - rewrite setScripts_setThree in H. cbn [member_strict member] in H. cbv zeta in H.
    cbn [set_member] in H.
    destruct (setThree _) as [e | s3] eqn:Hthree; [done |].
    injection H as <-. split.
    { intros k Hk. cbn [member]. by rewrite !assoc_get_set_ne. }
    intros ms0 [= <-] Harray. cbn [member]. rewrite assoc_get_set_eq.
    destruct (assoc_get "scripts" ms) as [[| b | n | t | l | ss0] |] eqn:Hold;
      cbn [truthy default from_option id] in Hthree;
      repeat match type of Hthree with
             | setThree (if ?c then _ else _) = _ => destruct c
             end;
      try discriminate;
      try (by destruct (Harray l));
      cbv [setThree set_member] in Hthree; injection Hthree as <-;
      (eexists; split; [reflexivity |]);
      (split; [first [reflexivity
                     | rewrite !assoc_get_set_ne by discriminate; apply assoc_get_set_eq] |]);
      (split; [first [reflexivity
                     | rewrite assoc_get_set_ne by discriminate; apply assoc_get_set_eq] |]);
      (split; [first [reflexivity | apply assoc_get_set_eq] |]);
      intros old k Hmember Hp Hd Hc; cbn [member] in Hmember;
      rewrite ?Hold in Hmember; try discriminate Hmember;
      injection Hmember as <-; by rewrite !assoc_get_set_ne.
Qed.

Lemma scripts_are_set_and_stay_set_witness :
  exists packageJson' ss,
    ConversionPipeline.setScripts Demo.manifest = inr packageJson'
    /\ ConversionPipeline.setScripts packageJson' = inr packageJson'
    /\ member packageJson' "scripts" = Some (JObj ss)
    /\ assoc_get "dev" ss = Some (JStr "next dev")
    /\ assoc_get "deploy" ss = Some (JStr ConversionPipeline.deployScript)
    /\ assoc_get "preview" ss = Some (JStr ConversionPipeline.previewScript)
    /\ assoc_get "cf-typegen" ss = Some (JStr ConversionPipeline.typegenScript).
Proof.
  destruct (ConversionPipeline.setScripts Demo.manifest) as [e | packageJson'] eqn:Hset;
    [discriminate Hset |].
  destruct (scripts_are_set_and_stay_set Demo.manifest packageJson' Hset)
    as (Hfixed & _ & Hscripts).
  destruct (Hscripts _ eq_refl) as (ss & Hss & Hpreview & Hdeploy & Htypegen & Hkept).
  { intros l. discriminate. }
  exists packageJson', ss. split; [reflexivity |].
  split; [exact Hfixed |].
  split; [exact Hss |].
  split; [| by repeat split].
  rewrite (Hkept _ "dev" eq_refl) by discriminate. reflexivity.
Defined.

(** X2.  One removal block of [removeConflictingReferences] that returns:
    when the group lists no next-on-pages (or a falsy one) the manifest
    object and the state are untouched; when it lists one, the entry is gone
    from the group, every other entry of the group and every other member of
    the manifest is what it was, the manifest file holds the print of the new
    object and one line was logged. *)
Theorem only_next_on_pages_is_removed (E : Env) (path group : string)
  (packageJson packageJson' : json) (s s' : ConversionPipeline.state) :
  ConversionPipeline.removeFromGroup E path group packageJson s = (inr packageJson', s') ->
  (truthy (member_opt (member packageJson group) ConversionPipeline.nextOnPages) = false ->
   packageJson' = packageJson /\ s' = s)
  /\ (truthy (member_opt (member packageJson group) ConversionPipeline.nextOnPages) = true ->
      member_opt (member packageJson' group) ConversionPipeline.nextOnPages = None
      /\ (forall k, k <> ConversionPipeline.nextOnPages ->
            member_opt (member packageJson' group) k
            = member_opt (member packageJson group) k)
      /\ (forall g, g <> group -> member packageJson' g = member packageJson g)
      /\ files (ConversionPipeline.world s')
         = <[path := JSON_stringify E packageJson']> (files (ConversionPipeline.world s))
      /\ ConversionPipeline.logs s'
         = (ConversionPipeline.logs s
            ++ [cat ["Removed @cloudflare/next-on-pages from "; group]])%list).
Proof.
  unfold ConversionPipeline.removeFromGroup. intros H.
  apply bind_inr in H as (dependencies & ? & Hmember & H).
  apply lift_sum_inr in Hmember as [Hmember ->].
  assert (Hdeps : dependencies = member packageJson group).
  { destruct packageJson; simpl in *; congruence. }
  subst dependencies.
  destruct (truthy (member_opt (member packageJson group) ConversionPipeline.nextOnPages))
    eqn:Hlisted.
  - split; [done |]. intros _.
    apply bind_inr in H as (? & s1 & Hlog & H).
    apply bind_inr in H as (? & s2 & Hwrite & H).
    injection H as <- <-.
    apply (f_equal snd) in Hlog. simpl in Hlog. subst s1.
    pose proof Hwrite as Hlogs.
    apply in_world_inr, writeFileSync_inr in Hwrite as [Hfiles _].
    assert (Hkeep : ConversionPipeline.logs s2
                    = (ConversionPipeline.logs s
                       ++ [cat ["Removed @cloudflare/next-on-pages from "; group]])%list).
    { unfold ConversionPipeline.in_world in Hlogs.
      destruct (writeFileSync E path _ _) as [r w']. by injection Hlogs as _ <-. }
    destruct packageJson as [| b | n | t | l | ms]; try done.
    cbn [member] in Hlisted.
    destruct (assoc_get group ms) as [[| b | n | t | l | deps] |] eqn:Hgroup; try done.
    unfold ConversionPipeline.deleteNextOnPages in *. cbn [member] in *.
    rewrite Hgroup in *. cbn [member].
    rewrite assoc_get_set_eq. cbn [member_opt member].
    split; [apply assoc_get_del |].
    split; [intros k Hk; by apply assoc_get_del_ne |].
    split; [intros g Hg; by apply assoc_get_set_ne |].
    done.
  - injection H as <- <-. split; [done | discriminate].
Qed.

Lemma only_next_on_pages_is_removed_witness :
  exists packageJson' s',
    ConversionPipeline.removeFromGroup Demo.env "/store/prj_1/package.json" "dependencies"
      Demo.manifest (ConversionPipeline.mkState [] (Demo.checkout Demo.manifest))
    = (inr packageJson', s')
    /\ member_opt (member packageJson' "dependencies") ConversionPipeline.nextOnPages = None
    /\ member_opt (member packageJson' "dependencies") "next" = Some (JStr "14.0.0")
    /\ ConversionPipeline.logs s' = ["Removed @cloudflare/next-on-pages from dependencies"].
Proof.
  set (s := ConversionPipeline.mkState [] (Demo.checkout Demo.manifest)).
  set (ran1 := ConversionPipeline.removeFromGroup Demo.env "/store/prj_1/package.json"
                 "dependencies" Demo.manifest s).
  set (packageJson' := returned JNull ran1.1).
  assert (Hran : ran1 = (inr packageJson', ran1.2)).
  { vm_compute. reflexivity. }
  destruct (only_next_on_pages_is_removed Demo.env "/store/prj_1/package.json" "dependencies"
              Demo.manifest packageJson' s ran1.2 Hran) as [_ Hlisted].
  destruct (Hlisted eq_refl) as (Hgone & Hothers & _ & _ & Hlogs).
  exists packageJson', ran1.2. split; [exact Hran |].
  split; [exact Hgone |].
  split; [| exact Hlogs].
  rewrite Hothers by discriminate. reflexivity.
Defined.

(** X3.  With a manifest file that parses to a value other than null, the
    manifest check of step 1 passes exactly when next is listed with a
    truthy value in dependencies or in devDependencies; it never touches the
    world. *)
Theorem manifest_is_accepted_iff_next_is_listed (E : Env) (o : ConversionOptions.t)
  (s : ConversionPipeline.state) (text : string) (packageJson : json) :
  files (ConversionPipeline.world s) !! ConversionPipeline.getPackageJsonPath E o = Some text ->
  JSON_parse E text = inr packageJson ->
  packageJson <> JNull ->
  ((exists s', ConversionPipeline.verifyManifest E o s = (inr tt, s'))
   <-> truthy (member_opt (member packageJson "dependencies") "next")
       || truthy (member_opt (member packageJson "devDependencies") "next") = true)
  /\ ConversionPipeline.world (ConversionPipeline.verifyManifest E o s).2
     = ConversionPipeline.world s.
Proof.
  intros Hfile Hparse Hnull. destruct s as [ls w]. simpl in Hfile.
  assert (Hstrict : forall k, member_strict packageJson k = inr (member packageJson k)).
  { intros k. by destruct packageJson. }
  unfold ConversionPipeline.verifyManifest, ConversionPipeline.log,
    ConversionPipeline.in_world, readFileSync, existsSync.
  comp_unfold. cbn [ConversionPipeline.world ConversionPipeline.logs].
  destruct (truthy_str (ConversionOptions.packageJsonPath o));
    cbn [ConversionPipeline.world ConversionPipeline.logs];
    rewrite Hfile; cbn [negb ConversionPipeline.world ConversionPipeline.logs];
    rewrite Hfile, Hparse, !Hstrict;
    destruct (truthy (member_opt (member packageJson "dependencies") "next"));
    cbn [orb]; rewrite ?Hstrict;
    destruct (truthy (member_opt (member packageJson "devDependencies") "next"));
    cbn [negb fst snd ConversionPipeline.world];
    (split; [| reflexivity]);
    (split;
     [ intros [s' Hs']; first [reflexivity | discriminate Hs']
     | intros Hlisted; first [discriminate Hlisted | eexists; reflexivity] ]).
Qed.

Lemma manifest_is_accepted_iff_next_is_listed_witness :
  (exists s',
      ConversionPipeline.verifyManifest Demo.env (Demo.options None None)
        (ConversionPipeline.mkState [] (Demo.checkout Demo.manifest)) = (inr tt, s'))
  /\ ~ (exists s',
           ConversionPipeline.verifyManifest Demo.env (Demo.options None None)
             (ConversionPipeline.mkState [] (Demo.checkout Demo.plainManifest)) = (inr tt, s')).
Proof.
  assert (Hnext : forall m,
             files (Demo.checkout m)
             !! ConversionPipeline.getPackageJsonPath Demo.env (Demo.options None None)
             = Some (Demo.stringify m)).
  { intros m. reflexivity. }
  split.
  - apply (manifest_is_accepted_iff_next_is_listed Demo.env (Demo.options None None)
             (ConversionPipeline.mkState [] (Demo.checkout Demo.manifest))
             (Demo.stringify Demo.manifest) Demo.manifest (Hnext _)
             (codec_round_trip _)); [discriminate | reflexivity].
  - intros Hpass.
    apply (manifest_is_accepted_iff_next_is_listed Demo.env (Demo.options None None)
             (ConversionPipeline.mkState [] (Demo.checkout Demo.plainManifest))
             (Demo.stringify Demo.plainManifest) Demo.plainManifest (Hnext _)
             (codec_round_trip _)) in Hpass; [discriminate Hpass | discriminate].
Defined.

(** X4.  Without a manifest at the manifest path the run stops in step 1:
    it reports failure with the message that names the path, its log ends
    with the error line, and the world is untouched (no command was run and
    no file written). *)
Theorem missing_manifest_aborts_the_run (E : Env) (o : ConversionOptions.t) (w : World) :
  existsSync (ConversionPipeline.getPackageJsonPath E o) w = false ->
  ConversionPipeline.runPipeline E o w
  = (inr (ConversionResult.mk false
            (cat ["Conversion failed: ";
                  cat ["Could not find package.json at ";
                       ConversionPipeline.getPackageJsonPath E o]])
            (["Starting conversion pipeline..."] ++ verifyingLines o
             ++ [cat ["Error during conversion: ";
                      cat ["Could not find package.json at ";
                           ConversionPipeline.getPackageJsonPath E o]]])%list),
     w).
Proof.
  intros Hmissing.
  unfold ConversionPipeline.runPipeline, ConversionPipeline.run,
    ConversionPipeline.verifyNextJsProject, ConversionPipeline.verifyManifest,
    ConversionPipeline.log, verifyingLines.
  comp_unfold. cbn [ConversionPipeline.world ConversionPipeline.logs].
  destruct (truthy_str (ConversionOptions.packageJsonPath o));
    cbn [ConversionPipeline.world ConversionPipeline.logs];
    rewrite Hmissing; reflexivity.
Qed.

Lemma missing_manifest_aborts_the_run_witness :
  ConversionResult.success
    (returned (ConversionResult.mk true "" [])
       (ConversionPipeline.runPipeline Demo.env (Demo.options None None) leftover).1) = false
  /\ (ConversionPipeline.runPipeline Demo.env (Demo.options None None) leftover).2 = leftover.
Proof.
  assert (Hmissing : existsSync
                       (ConversionPipeline.getPackageJsonPath Demo.env (Demo.options None None))
                       leftover = false).
  { reflexivity. }
  rewrite (missing_manifest_aborts_the_run Demo.env (Demo.options None None) leftover Hmissing).
  split; reflexivity.
Defined.

(** X5.  When [updateGitignore] returns, the ignore file it settled on
    holds its former content if that mentioned .open-next, and otherwise the
    former content (empty for a new file) followed by the entry; no other
    file has changed, and the same ignore file would be chosen again. *)
Theorem ignore_entry_is_added_when_missing (E : Env) (o : ConversionOptions.t)
  (s s' : ConversionPipeline.state) :
  (truthy_str (ConversionOptions.packageJsonPath o) = true ->
   ConversionPipeline.rootGitignore E o <> ConversionPipeline.subfolderGitignore E o) ->
  ConversionPipeline.updateGitignore E o s = (inr tt, s') ->
  let G := gitignorePath E o (ConversionPipeline.world s) in
  let before := default "" (files (ConversionPipeline.world s) !! G) in
  files (ConversionPipeline.world s') !! G
  = Some (if includes before ".open-next"
          then before
          else before +:+ ConversionPipeline.gitignoreEntry)
  /\ (forall q, q <> G ->
        files (ConversionPipeline.world s') !! q = files (ConversionPipeline.world s) !! q)
  /\ gitignorePath E o (ConversionPipeline.world s') = G.
Proof.
  intros Hpaths Hreturned.
  destruct (updateGitignore_inr E o s s' Hpaths Hreturned) as (_ & Hpath & Hcontent & Hothers).
  by repeat split.
Qed.

Lemma ignore_entry_is_added_when_missing_witness :
  files (ConversionPipeline.world
           (ConversionPipeline.updateGitignore Demo.env (Demo.options None None)
              (ConversionPipeline.mkState [] (Demo.checkout Demo.manifest))).2)
  !! "/store/prj_1/.gitignore"
  = Some ConversionPipeline.gitignoreEntry
  /\ files (ConversionPipeline.world
              (ConversionPipeline.updateGitignore Demo.env (Demo.options None None)
                 (ConversionPipeline.updateGitignore Demo.env (Demo.options None None)
                    (ConversionPipeline.mkState [] (Demo.checkout Demo.manifest))).2).2)
     !! "/store/prj_1/.gitignore"
     = Some ConversionPipeline.gitignoreEntry.
Proof.
  set (o := Demo.options None None).
  set (s1 := (ConversionPipeline.updateGitignore Demo.env o
                (ConversionPipeline.mkState [] (Demo.checkout Demo.manifest))).2).
  set (s2 := (ConversionPipeline.updateGitignore Demo.env o s1).2).
  assert (Hfirst : ConversionPipeline.updateGitignore Demo.env o
                     (ConversionPipeline.mkState [] (Demo.checkout Demo.manifest))
                   = (inr tt, s1)).
  { vm_compute. reflexivity. }
  assert (Hsecond : ConversionPipeline.updateGitignore Demo.env o s1 = (inr tt, s2)).
  { vm_compute. reflexivity. }
  assert (Hpaths : truthy_str (ConversionOptions.packageJsonPath o) = true ->
                   ConversionPipeline.rootGitignore Demo.env o
                   <> ConversionPipeline.subfolderGitignore Demo.env o).
  { discriminate. }
  destruct (ignore_entry_is_added_when_missing Demo.env o _ _ Hpaths Hfirst)
    as (Hone & _ & _).
  destruct (ignore_entry_is_added_when_missing Demo.env o _ _ Hpaths Hsecond)
    as (Htwo & _ & _).
  split.
  - etransitivity; [exact Hone |]. vm_compute. reflexivity.
  - etransitivity; [exact Htwo |]. vm_compute. reflexivity.
Defined.

(** X6.  Assume that JSON.parse reads back the print of the manifest
    objects the pipeline prints (what it parsed, with the scripts set and
    next-on-pages removed), that the scan leaves the pipeline's files alone,
    as does the removal of the edge runtime declarations where the
    build-adapter config has its generated text, and that these files have
    distinct paths.  A run that reports success then leaves: both
    configuration files with their generated text, a manifest that is the
    print of such an object on which the script assignments change nothing
    and which lists no next-on-pages, and an ignore file that mentions
    .open-next. *)
Theorem successful_run_leaves_converted_checkout (E : Env) (o : ConversionOptions.t)
  (w0 w1 : World) (r1 : ConversionResult.t) :
  round_trip E -> searchesKeep E o -> NoDup (tracked E o) ->
  ConversionPipeline.runPipeline E o w0 = (inr r1, w1) ->
  ConversionResult.success r1 = true ->
  files w1 !! ConversionPipeline.openNextConfigPath E o
  = Some (ConversionPipeline.openNextConfig o)
  /\ files w1 !! ConversionPipeline.wranglerPath E o
     = Some (ConversionPipeline.wranglerConfig o)
  /\ (exists packageJson,
        files w1 !! ConversionPipeline.getPackageJsonPath E o
        = Some (JSON_stringify E packageJson)
        /\ printable E packageJson
        /\ ConversionPipeline.setScripts packageJson = inr packageJson
        /\ truthy (member_opt (member packageJson "dependencies")
                     ConversionPipeline.nextOnPages) = false
        /\ truthy (member_opt (member packageJson "devDependencies")
                     ConversionPipeline.nextOnPages) = false)
  /\ (exists content,
        files w1 !! gitignorePath E o w1 = Some content
        /\ includes content ".open-next" = true).
Proof.
  intros Hround Hsearch Hdup Hrun Hok.
  exact (successful_run_converts E o w0 w1 r1 Hround Hsearch Hdup Hrun Hok).
Qed.

(** X7.  Under the assumptions of X6, and with an installation that has
    nothing left to do on the converted checkout, a second run with the same
    options over the checkout a successful run left returns, and whatever it
    did and wherever it stopped, every file the pipeline writes (manifest,
    both configuration files, the ignore files) is byte for byte what the
    first run left. *)
Theorem rerun_keeps_converted_files (E : Env) (o : ConversionOptions.t)
  (w0 w1 : World) (r1 : ConversionResult.t) :
  round_trip E -> searchesKeep E o -> installSettled E o w1 -> NoDup (tracked E o) ->
  ConversionPipeline.runPipeline E o w0 = (inr r1, w1) ->
  ConversionResult.success r1 = true ->
  exists r2 w2,
    ConversionPipeline.runPipeline E o w1 = (inr r2, w2)
    /\ dirs w2 = dirs w1
    /\ forall p, In p (tracked E o) -> files w2 !! p = files w1 !! p.
Proof.
  intros Hround Hsearch Hinstall Hdup Hrun Hok.
  pose proof (successful_run_converts E o w0 w1 r1 Hround Hsearch Hdup Hrun Hok) as Hconverted.
  destruct (runPipeline_kept E o w1 Hround Hsearch Hinstall Hconverted)
    as (r2 & w2 & Hsecond & Hdirs & Hfiles).
  by exists r2, w2.
Qed.

Lemma installing_round_trip : round_trip installingEnv.
Proof. intros j _. apply codec_round_trip. Qed.

Lemma installing_searchesKeep (o : ConversionOptions.t) : searchesKeep installingEnv o.
Proof. intros w p _. split; [reflexivity | intros _; reflexivity]. Qed.

Lemma shop_tracked_distinct (E : Env) (cache : option bool) (ns : option string) :
  path_join E = Demo.join -> NoDup (tracked E (Demo.options cache ns)).
Proof.
  intros Hjoin. unfold tracked, ConversionPipeline.getPackageJsonPath,
    ConversionPipeline.openNextConfigPath, ConversionPipeline.wranglerPath,
    ConversionPipeline.rootGitignore, ConversionPipeline.manifestDir.
  rewrite Hjoin. simpl.
  rewrite !list.NoDup_cons, !not_elem_of_cons.
  repeat split; try discriminate; try apply not_elem_of_nil. apply NoDup_nil_2.
Qed.

(** The installation of [installingEnv] finds its two packages listed in the
    manifest the first run left. *)
Lemma installing_installSettled :
  installSettled installingEnv (Demo.options (Some true) (Some "ns123"))
    (ConversionPipeline.runPipeline installingEnv (Demo.options (Some true) (Some "ns123"))
       (Demo.checkout Demo.manifest)).2.
Proof.
  set (o := Demo.options (Some true) (Some "ns123")).
  set (w1 := (ConversionPipeline.runPipeline installingEnv o (Demo.checkout Demo.manifest)).2).
  set (P := "/store/prj_1/package.json").
  set (text1 := default "" (files w1 !! P)).
  set (ms1 := match Demo.parse text1 with
              | inr (JObj ms) => ms
              | _ => []
              end).
  assert (Hfile : files w1 !! P = Some text1).
  { vm_compute. reflexivity. }
  assert (Hparse : Demo.parse text1 = inr (JObj ms1)).
  { vm_compute. reflexivity. }
  assert (Hprint : Demo.stringify (JObj (addDevDependencies ms1)) = text1).
  { vm_compute. reflexivity. }
  intros w p Hagree Hp.
  assert (Hmanifest : files w !! P = Some text1).
  { rewrite <- Hfile. apply Hagree. by left. }
  cbn [execAsync installingEnv]. unfold installingExec.
  rewrite String.eqb_refl.
  change (Demo.join [ConversionPipeline.manifestDir installingEnv o; "package.json"]) with P.
  rewrite Hmanifest, Hparse, Hprint. cbn [snd].
  by rewrite insert_id.
Qed.

Lemma successful_run_leaves_converted_checkout_witness :
  files (ConversionPipeline.runPipeline installingEnv (Demo.options (Some true) (Some "ns123"))
           (Demo.checkout Demo.manifest)).2
  !! "/store/prj_1/wrangler.jsonc"
  = Some (ConversionPipeline.wranglerConfig (Demo.options (Some true) (Some "ns123")))
  /\ exists content,
      files (ConversionPipeline.runPipeline installingEnv
               (Demo.options (Some true) (Some "ns123"))
               (Demo.checkout Demo.manifest)).2
      !! "/store/prj_1/.gitignore" = Some content
      /\ includes content ".open-next" = true.
Proof.
  set (o := Demo.options (Some true) (Some "ns123")).
  set (run1 := ConversionPipeline.runPipeline installingEnv o (Demo.checkout Demo.manifest)).
  set (r1 := returned (ConversionResult.mk false "" []) run1.1).
  assert (Hrun : run1 = (inr r1, run1.2)).
  { vm_compute. reflexivity. }
  assert (Hok : ConversionResult.success r1 = true).
  { vm_compute. reflexivity. }
  destruct (successful_run_leaves_converted_checkout installingEnv o
              (Demo.checkout Demo.manifest) run1.2 r1
              installing_round_trip (installing_searchesKeep o)
              (shop_tracked_distinct installingEnv _ _ eq_refl) Hrun Hok)
    as (_ & Hwrangler & _ & Hignore).
  split; [exact Hwrangler |].
  assert (Hpath : gitignorePath installingEnv o run1.2 = "/store/prj_1/.gitignore").
  { vm_compute. reflexivity. }
  rewrite Hpath in Hignore. exact Hignore.
Defined.

Lemma rerun_keeps_converted_files_witness :
  exists r2 w2,
    ConversionPipeline.runPipeline installingEnv (Demo.options (Some true) (Some "ns123"))
      (ConversionPipeline.runPipeline installingEnv (Demo.options (Some true) (Some "ns123"))
         (Demo.checkout Demo.manifest)).2
    = (inr r2, w2)
    /\ files w2 !! "/store/prj_1/package.json"
       = files (ConversionPipeline.runPipeline installingEnv
                  (Demo.options (Some true) (Some "ns123"))
                  (Demo.checkout Demo.manifest)).2
         !! "/store/prj_1/package.json"
    /\ files w2 !! "/store/prj_1/.gitignore"
       = files (ConversionPipeline.runPipeline installingEnv
                  (Demo.options (Some true) (Some "ns123"))
                  (Demo.checkout Demo.manifest)).2
         !! "/store/prj_1/.gitignore".
Proof.
  set (o := Demo.options (Some true) (Some "ns123")).
  set (run1 := ConversionPipeline.runPipeline installingEnv o (Demo.checkout Demo.manifest)).
  set (r1 := returned (ConversionResult.mk false "" []) run1.1).
  assert (Hrun : run1 = (inr r1, run1.2)).
  { vm_compute. reflexivity. }
  assert (Hok : ConversionResult.success r1 = true).
  { vm_compute. reflexivity. }
  destruct (rerun_keeps_converted_files installingEnv o
              (Demo.checkout Demo.manifest) run1.2 r1
              installing_round_trip (installing_searchesKeep o)
              installing_installSettled
              (shop_tracked_distinct installingEnv _ _ eq_refl) Hrun Hok)
    as (r2 & w2 & Hsecond & _ & Hfiles).
  exists r2, w2. split; [exact Hsecond |].
  split; apply Hfiles; unfold tracked; simpl; auto.
Defined.

(** ** Further properties of the repository functions *)

(** X8.  [commitAndPush] never throws.  For a directory that does not
    exist it issues no command and answers false.  Otherwise it runs add,
    commit and push in this order up to the first one that fails: it issues
    at least the add, nothing after a command that failed, and answers true
    exactly when all three went through.  It records nothing but these calls
    and leaves the directories as they are. *)
Theorem commit_and_push_stops_at_first_failure (E : Env) (projectPath message : string)
  (w : World) :
  (dirs w !! projectPath = None ->
   GitUtils.commitAndPush E projectPath message w = (inr false, w))
  /\ (is_Some (dirs w !! projectPath) ->
      exists (n : nat) (ok : bool) (w' : World),
        runUntilFailure E (publishCommands projectPath message) w = (n, ok, w')
        /\ GitUtils.commitAndPush E projectPath message w = (inr ok, w')
        /\ 1 <= n <= 3
        /\ (ok = true -> n = 3)
        /\ calls w'
           = (calls w ++ map CallGit (take n (publishCommands projectPath message)))%list
        /\ dirs w' = dirs w).
Proof.
  unfold GitUtils.commitAndPush, GitUtils.simpleGit, publishCommands.
  cbn [runUntilFailure]. unfold GitUtils.git. comp_unfold.
  split.
  - intros Hdir. by rewrite Hdir.
  - intros [kind Hdir]. rewrite Hdir.
    repeat (case_match; simplify_eq/=; try done).
    all: eexists _, _, _; split; [reflexivity |]; split; [reflexivity |]; simpl.
    all: rewrite <- ?app_assoc; repeat split; first [lia | done].
Qed.

Lemma commit_and_push_stops_at_first_failure_witness :
  exists w',
    GitUtils.commitAndPush pushFailsEnv "/store/prj_1" "Convert to @opennextjs/cloudflare"
      (Demo.checkout Demo.manifest) = (inr false, w')
    /\ calls w'
       = [CallGit (GitAdd "/store/prj_1" ".");
          CallGit (GitCommit "/store/prj_1" "Convert to @opennextjs/cloudflare");
          CallGit (GitPush "/store/prj_1" "origin" "HEAD")].
Proof.
  destruct (commit_and_push_stops_at_first_failure pushFailsEnv "/store/prj_1"
              "Convert to @opennextjs/cloudflare" (Demo.checkout Demo.manifest))
    as [_ Hexists].
  destruct Hexists as (n & ok & w' & Hrun & Hpush & _ & _ & Hcalls & _).
  { by eexists. }
  assert (Hn : (n, ok) = (3, false)).
  { apply (f_equal fst) in Hrun. simpl in Hrun. rewrite <- Hrun. vm_compute. reflexivity. }
  injection Hn as -> ->.
  exists w'. split; [exact Hpush | exact Hcalls].
Defined.

(** X9.  [createBranch] never throws.  For a directory that does not exist
    it answers false without any git call; otherwise it issues the one
    checkout of a new local branch and answers whether that succeeded. *)
Theorem create_branch_reports_the_checkout (E : Env) (projectPath branchName : string)
  (w : World) :
  exists (b : bool) (w' : World),
    GitUtils.createBranch E projectPath branchName w = (inr b, w')
    /\ dirs w' = dirs w
    /\ (dirs w !! projectPath = None -> b = false /\ w' = w)
    /\ (dirs w !! projectPath <> None ->
        calls w' = (calls w ++ [CallGit (GitCheckoutLocalBranch projectPath branchName)])%list
        /\ (b = true
            <-> (git_run E (GitCheckoutLocalBranch projectPath branchName) w).1 = None)).
Proof.
  unfold GitUtils.createBranch, GitUtils.simpleGit, GitUtils.git. comp_unfold.
  repeat (case_match; simplify_eq/=; try done).
  all: eexists _, _; split; [reflexivity |]; simpl.
  all: split; [reflexivity |].
  all: split; [by intros |].
  all: intros Hdir; try congruence.
  all: split; [reflexivity |].
  all: match goal with H : git_run _ _ _ = _ |- _ => rewrite H end; simpl; by split.
Qed.

(** X10.  An existing repository is updated in place: when the storage
    directory exists, the local path is a repository, the repository check
    goes through and the pull succeeds, [cloneRepository] answers success
    with the message that the latest changes were pulled, after exactly the
    check, the checkout of the branch if one is given (whose failure is
    ignored) and the pull: nothing is removed and nothing is cloned. *)
Theorem existing_repository_is_pulled (E : Env) (options : CloneOptions.t) (w : World) :
  let storagePath := CloneOptions.storagePath options in
  let projectDir := path_join E [storagePath; CloneOptions.projectId options] in
  existsSync storagePath w = true ->
  dirs w !! projectDir = Some GitRepo ->
  (git_run E (GitCheckIsRepo projectDir) w).1 = None ->
  (forall v, (git_run E (GitPull projectDir) v).1 = None) ->
  exists w',
    GitUtils.cloneRepository E options w
    = (inr (CloneResult.mk true projectDir
              "Repository already exists locally. Pulled latest changes." None), w')
    /\ calls w'
       = (calls w ++ [CallGit (GitCheckIsRepo projectDir)]
          ++ checkoutCalls projectDir (CloneOptions.branch options)
          ++ [CallGit (GitPull projectDir)])%list
    /\ dirs w' = dirs w.
Proof.
  destruct options as [repoUrl projectId branch storagePath].
  cbv zeta.
  cbn [CloneOptions.repoUrl CloneOptions.projectId CloneOptions.branch CloneOptions.storagePath].
  set (projectDir := path_join E [storagePath; projectId]).
  intros Hstorage Hrepo Hcheck Hpull.
  assert (Hexists : existsSync projectDir w = true).
  { unfold existsSync. rewrite Hrepo. by destruct (files w !! projectDir). }
  clone_unfold. fold projectDir.
  rewrite Hstorage. cbn [negb]. cbv beta iota. rewrite Hexists. cbv beta iota.
  rewrite Hrepo.
  destruct (git_run E (GitCheckIsRepo projectDir) w) as [checked fs1] eqn:Hchecked.
  simpl in Hcheck. subst checked.
  unfold GitUtils.is_repo, checkoutCalls. cbn [dirs]. rewrite Hrepo. cbn [orb].
  destruct (truthy_str branch); cbv beta iota.
  - destruct (git_run E (GitCheckout projectDir (interpolate branch)) _)
      as [[e |] fs2] eqn:Hcheckout; cbv beta iota;
      match goal with
      | |- context [git_run E (GitPull projectDir) ?v] =>
          pose proof (Hpull v) as Hpulled;
          destruct (git_run E (GitPull projectDir) v) as [pulled fs3]
      end;
      simpl in Hpulled; subst pulled;
      eexists; (split; [reflexivity |]); simpl; by rewrite <- !app_assoc.
  - match goal with
    | |- context [git_run E (GitPull projectDir) ?v] =>
        pose proof (Hpull v) as Hpulled;
        destruct (git_run E (GitPull projectDir) v) as [pulled fs3]
    end.
    simpl in Hpulled. subst pulled.
    eexists. (split; [reflexivity |]). simpl. by rewrite <- !app_assoc.
Qed.

Lemma existing_repository_is_pulled_witness :
  exists w',
    GitUtils.cloneRepository Demo.env shopClone (Demo.checkout Demo.manifest)
    = (inr (CloneResult.mk true "/store/prj_1"
              "Repository already exists locally. Pulled latest changes." None), w')
    /\ calls w'
       = [CallGit (GitCheckIsRepo "/store/prj_1");
          CallGit (GitCheckout "/store/prj_1" "main");
          CallGit (GitPull "/store/prj_1")].
Proof.
  destruct (existing_repository_is_pulled Demo.env shopClone (Demo.checkout Demo.manifest))
    as (w' & Hclone & Hcalls & _); try reflexivity.
  exists w'. split; [exact Hclone | exact Hcalls].
Defined.

(** X11.  An existing repository whose pull fails is thrown away: when the
    removal goes through, the calls are the check, the checkout of the
    branch if one is given, the failed pull, the removal of the directory
    and the fresh clone, in this order.  A result with success=true says the
    repository was cloned and a repository is at the path; a result with
    success=false reports a failure to clone. *)
Theorem failed_pull_is_followed_by_a_fresh_clone (E : Env) (options : CloneOptions.t)
  (w : World) :
  let storagePath := CloneOptions.storagePath options in
  let projectDir := path_join E [storagePath; CloneOptions.projectId options] in
  existsSync storagePath w = true ->
  dirs w !! projectDir = Some GitRepo ->
  (git_run E (GitCheckIsRepo projectDir) w).1 = None ->
  (forall v, is_Some (git_run E (GitPull projectDir) v).1) ->
  (forall v, rm_error E projectDir v = None) ->
  exists r w',
    GitUtils.cloneRepository E options w = (inr r, w')
    /\ calls w'
       = (calls w ++ [CallGit (GitCheckIsRepo projectDir)]
          ++ checkoutCalls projectDir (CloneOptions.branch options)
          ++ [CallGit (GitPull projectDir); CallRm projectDir;
              CallGit (cloneCommand E options)])%list
    /\ (CloneResult.success r = true ->
        CloneResult.message r = "Repository cloned successfully."
        /\ GitUtils.is_repo w' projectDir = true)
    /\ (CloneResult.success r = false ->
        exists e, CloneResult.message r
                  = cat ["Failed to clone repository: "; GitUtils.classify (error_message e)]).
Proof.
  destruct options as [repoUrl projectId branch storagePath].
  cbv zeta. unfold cloneCommand.
  cbn [CloneOptions.repoUrl CloneOptions.projectId CloneOptions.branch CloneOptions.storagePath].
  set (projectDir := path_join E [storagePath; projectId]).
  intros Hstorage Hrepo Hcheck Hpull Hrm.
  assert (Hexists : existsSync projectDir w = true).
  { unfold existsSync. rewrite Hrepo. by destruct (files w !! projectDir). }
  clone_unfold. fold projectDir.
  rewrite Hstorage. cbn [negb]. cbv beta iota. rewrite Hexists. cbv beta iota.
  rewrite Hrepo.
  destruct (git_run E (GitCheckIsRepo projectDir) w) as [checked fs1] eqn:Hchecked.
  simpl in Hcheck. subst checked.
  unfold GitUtils.is_repo, checkoutCalls. cbn [dirs]. rewrite Hrepo. cbn [orb].
  repeat (case_match; simplify_eq/=; try done).
  all: try match goal with
       | H : git_run _ (GitPull _) ?v = (None, _) |- _ =>
           specialize (Hpull v); rewrite H in Hpull; by apply is_Some_None in Hpull
       | H : rm_error _ _ ?v = Some _ |- _ =>
           rewrite Hrm in H; discriminate
       end.
  all: eexists _, _; split; [reflexivity |]; simpl.
  all: split; [by rewrite <- !app_assoc |].
  all: split; intros Houtcome; try discriminate Houtcome.
  all: first [ eexists; reflexivity
             | split; [reflexivity |];
               unfold GitUtils.is_repo; simpl; by rewrite lookup_insert_eq ].
Qed.

Lemma failed_pull_is_followed_by_a_fresh_clone_witness :
  exists r w',
    GitUtils.cloneRepository pullFailsEnv shopClone (Demo.checkout Demo.manifest) = (inr r, w')
    /\ calls w'
       = [CallGit (GitCheckIsRepo "/store/prj_1");
          CallGit (GitCheckout "/store/prj_1" "main");
          CallGit (GitPull "/store/prj_1");
          CallRm "/store/prj_1";
          CallGit (GitClone "https://github.com/acme/shop" "/store/prj_1" ["-b"; "main"])]
    /\ files w' !! "/store/prj_1/package.json" = None.
Proof.
  destruct (failed_pull_is_followed_by_a_fresh_clone pullFailsEnv shopClone
              (Demo.checkout Demo.manifest))
    as (r & w' & Hclone & Hcalls & _); try reflexivity.
  { intros v. by eexists. }
  exists r, w'. split; [exact Hclone |]. split; [exact Hcalls |].
  assert (Hfiles : files (GitUtils.cloneRepository pullFailsEnv shopClone
                            (Demo.checkout Demo.manifest)).2
                   !! "/store/prj_1/package.json" = None).
  { vm_compute. reflexivity. }
  by rewrite Hclone in Hfiles.
Defined.

(** X12.  When the storage directory does not exist and cannot be created,
    [cloneRepository] answers failure with the message of the failed
    creation; the one call it made is the mkdir: no git command was issued
    and no file or directory changed. *)
Theorem storage_directory_failure_is_fatal (E : Env) (options : CloneOptions.t)
  (w : World) (e : thrown) :
  let storagePath := CloneOptions.storagePath options in
  let projectDir := path_join E [storagePath; CloneOptions.projectId options] in
  existsSync storagePath w = false ->
  mkdir_error E storagePath w = Some e ->
  GitUtils.cloneRepository E options w
  = (inr (CloneResult.mk false projectDir
            (cat ["Failed to create storage directory: "; error_message e])
            (Some (as_error "Unknown error" e))),
     mkWorld (files w) (dirs w) (calls w ++ [CallMkdir storagePath])).
Proof.
  destruct options as [repoUrl projectId branch storagePath].
  cbv zeta.
  cbn [CloneOptions.repoUrl CloneOptions.projectId CloneOptions.branch CloneOptions.storagePath].
  intros Hstorage Hmkdir.
  clone_unfold. rewrite Hstorage. cbn [negb]. cbv beta iota.
  by rewrite Hmkdir.
Qed.

Lemma storage_directory_failure_is_fatal_witness :
  exists r w',
    GitUtils.cloneRepository readOnlyEnv shopClone emptyWorld = (inr r, w')
    /\ CloneResult.success r = false
    /\ CloneResult.message r
       = "Failed to create storage directory: EROFS: read-only file system, mkdir '/store'"
    /\ calls w' = [CallMkdir "/store"].
Proof.
  eexists _, _. split.
  - by apply (storage_directory_failure_is_fatal readOnlyEnv shopClone emptyWorld).
  - repeat split.
Defined.

(** X13.  When the storage directory exists and nothing is at the local
    path, [cloneRepository] issues exactly one call, the clone of the
    cleaned URL.  If it succeeds the answer is success and the path is a
    repository; if it fails the answer is a failure to clone whose message
    is the classified error message, and the directories are unchanged. *)
Theorem absent_path_is_cloned_once (E : Env) (options : CloneOptions.t) (w : World) :
  let storagePath := CloneOptions.storagePath options in
  let projectDir := path_join E [storagePath; CloneOptions.projectId options] in
  existsSync storagePath w = true ->
  existsSync projectDir w = false ->
  exists r w',
    GitUtils.cloneRepository E options w = (inr r, w')
    /\ calls w' = (calls w ++ [CallGit (cloneCommand E options)])%list
    /\ match (git_run E (cloneCommand E options) w).1 with
       | None =>
           r = CloneResult.mk true projectDir "Repository cloned successfully." None
           /\ GitUtils.is_repo w' projectDir = true
       | Some e =>
           r = CloneResult.mk false projectDir
                 (cat ["Failed to clone repository: "; GitUtils.classify (error_message e)])
                 (Some (as_error (GitUtils.classify (error_message e)) e))
           /\ dirs w' = dirs w
       end.
Proof.
  destruct options as [repoUrl projectId branch storagePath].
  cbv zeta. unfold cloneCommand.
  cbn [CloneOptions.repoUrl CloneOptions.projectId CloneOptions.branch CloneOptions.storagePath].
  intros Hstorage Habsent.
  clone_unfold.
  rewrite Hstorage. cbn [negb]. cbv beta iota. rewrite Habsent. cbv beta iota.
  destruct (truthy_str branch); cbv beta iota;
    match goal with
    | |- context [git_run E ?c w] => destruct (git_run E c w) as [[e |] fs'] eqn:Hgit
    end;
    eexists _, _; (split; [reflexivity |]); simpl; (split; [reflexivity |]);
    (split; [reflexivity |]);
    first [reflexivity | unfold GitUtils.is_repo; simpl; by rewrite lookup_insert_eq].
Qed.

Lemma absent_path_is_cloned_once_witness :
  exists r w',
    GitUtils.cloneRepository unknownRepositoryEnv shopClone storageOnly = (inr r, w')
    /\ calls w'
       = [CallGit (GitClone "https://github.com/acme/shop" "/store/prj_1" ["-b"; "main"])]
    /\ CloneResult.message r
       = "Failed to clone repository: Repository not found. Please verify the URL is correct.".
Proof.
  destruct (absent_path_is_cloned_once unknownRepositoryEnv shopClone storageOnly)
    as (r & w' & Hclone & Hcalls & Houtcome); try reflexivity.
  exists r, w'. split; [exact Hclone |]. split; [exact Hcalls |].
  assert (Hgit : (git_run unknownRepositoryEnv (cloneCommand unknownRepositoryEnv shopClone)
                    storageOnly).1
                 = Some (JsError "remote: Repository not found.")).
  { reflexivity. }
  rewrite Hgit in Houtcome. destruct Houtcome as [-> _]. reflexivity.
Defined.

(** ** Further properties of the orchestrator *)

Lemma safelyUpdateConversionStatus_ran (projectId : string) (status : Status)
  (message : string) (error : option thrown) st lg msg res err w evs s :
  exists evs',
    ConvertRoute.safelyUpdateConversionStatus projectId status message error
      (ran projectId (Job.mk st lg msg res err) w evs s)
    = (inr tt,
       ran projectId (safelyUpdated status message error (Job.mk st lg msg res err)) w evs' s).
Proof.
  unfold ConvertRoute.safelyUpdateConversionStatus, safelyUpdated.
  cbn [Job.logs Job.result Job.error].
  erewrite (bind_ok (gets _)).
  2: { unfold gets. by rewrite (lookup_entry _ _ _ (ran_lookup _ _ _ _ _)). }
  cbn [truthy_found negb when]. ostep. do 3 ostep.
  destruct error as [e |].
  - ostep. eexists. rewrite <- app_assoc. apply setError_ran.
  - eexists. by rewrite app_nil_r.
Qed.

(** X14.  A project with neither a gitRepository nor a github link: the run
    ends at once with the job failed, the message that no repository was
    found, that message and the error details appended to the log and the
    error set; the world is untouched, so nothing was cloned or converted. *)
Theorem project_without_repository_fails (E : Env) (projectId : string)
  (options : option StartOptions.t) (s0 : ConvertRoute.state) (job : Job.t)
  (project : Project.t) :
  getProject E projectId = inr project ->
  Project.gitRepository project = None ->
  ConvertRoute.hasLinkRepository project = false ->
  ConvertRoute.store s0 !! projectId = Some job ->
  exists s',
    ConvertRoute.startConversion E projectId options s0 = (inr tt, s')
    /\ ConvertRoute.world s' = ConvertRoute.world s0
    /\ ConvertRoute.store s' !! projectId
       = Some (Job.mk failed
                 (Job.logs job
                  ++ ["No git repository found for this project";
                      "Error details: Project doesn't have a connected Git repository"])
                 (Some "No git repository found for this project")
                 (Job.result job)
                 (Some "Project doesn't have a connected Git repository")).
Proof.
  intros Hproject Hrepository Hlink Hjob.
  destruct job as [st lg msg res err].
  destruct (safelyUpdateConversionStatus_ran projectId failed
              "No git repository found for this project"
              (Some (JsError "Project doesn't have a connected Git repository"))
              st lg msg res err (ConvertRoute.world s0) [ConvertRoute.Awaited] s0)
    as (evs' & Hupdate).
  assert (Hprepare : ConvertRoute.prepare E projectId options s0
                     = (inr None,
                        ran projectId
                          (safelyUpdated failed "No git repository found for this project"
                             (Some (JsError "Project doesn't have a connected Git repository"))
                             (Job.mk st lg msg res err))
                          (ConvertRoute.world s0) evs' s0)).
  { unfold ConvertRoute.prepare.
    rewrite (ran_start projectId s0 _ Hjob) at 1.
    ostep. rewrite Hproject.
    erewrite (bind_ok (lift_sum _)) by reflexivity. cbv beta.
    rewrite Hrepository. unfold ConvertRoute.hasLinkRepository in *.
    destruct (Project.link project) as [l |].
    - rewrite bool_decide_eq_false_2 by (by intros [? [=]]).
      cbn [negb andb]. rewrite Hlink. cbn [when].
      ostep.
      erewrite (bind_ok (ConvertRoute.safelyUpdateConversionStatus _ _ _ _))
        by exact Hupdate.
      reflexivity.
    - ostep.
      erewrite (bind_ok (ConvertRoute.safelyUpdateConversionStatus _ _ _ _))
        by exact Hupdate.
      reflexivity. }
  unfold ConvertRoute.startConversion.
  erewrite try_ok.
  2: { erewrite (bind_ok (ConvertRoute.prepare _ _ _)) by exact Hprepare. reflexivity. }
  eexists. split; [reflexivity |].
  split; [reflexivity |].
  rewrite ran_lookup. reflexivity.
Qed.

Lemma project_without_repository_fails_witness :
  exists s',
    ConvertRoute.startConversion noRepositoryEnv "prj_1" (Some publishOptions)
      (requested (Demo.checkout Demo.manifest)) = (inr tt, s')
    /\ ConvertRoute.world s' = Demo.checkout Demo.manifest
    /\ ConvertRoute.store s' !! "prj_1"
       = Some (Job.mk failed
                 ["Initializing conversion process...";
                  "No git repository found for this project";
                  "Error details: Project doesn't have a connected Git repository"]
                 (Some "No git repository found for this project")
                 None
                 (Some "Project doesn't have a connected Git repository")).
Proof.
  exact (project_without_repository_fails noRepositoryEnv "prj_1" (Some publishOptions)
           (requested (Demo.checkout Demo.manifest))
           (Job.mk cloning ["Initializing conversion process..."] None None None)
           (Project.mk "shop" None None) eq_refl eq_refl eq_refl eq_refl).
Defined.



Lemma when_push_ran (projectId : string) (c : bool) (messages : list string)
  st lg msg res err w evs s :
  when c (ConvertRoute.push projectId messages)
    (ran projectId (Job.mk st lg msg res err) w evs s)
  = (inr tt,
     ran projectId (Job.mk st (lg ++ (if c then messages else [])) msg res err) w
       (evs ++ (if c
                then [ConvertRoute.Mutated projectId (Job.mk st (lg ++ messages) msg res err)]
                else []))
       s).
Proof.
  destruct c; cbn [when].
  - apply push_ran.
  - by rewrite !app_nil_r.
Qed.

(** The run up to the answer of the clone: the log has grown by the lines
    of the acquisition, and the world is the one the clone left. *)
Lemma prepare_until_clone (E : Env) (projectId : string) (options : option StartOptions.t)
  (s0 : ConvertRoute.state) st lg msg res err (project : Project.t) (g : GitRepository.t)
  (r : CloneResult.t) (w1 : World) (A : Type)
  (k : CloneResult.t -> Comp ConvertRoute.state A) :
  ConvertRoute.store s0 !! projectId = Some (Job.mk st lg msg res err) ->
  GitUtils.cloneRepository E (cloneOptionsFor E projectId g) (ConvertRoute.world s0)
  = (inr r, w1) ->
  exists lines evs,
    (ConvertRoute.push projectId
       [cat ["Fetching project details for "; Project.name project; "..."]] ;;
     ConvertRoute.push projectId [cat ["Repository: "; GitRepository.repo g]] ;;
     when (String.eqb (GitRepository.type g) "github"
           && negb (startsWith (GitRepository.url g) "https://")
           && negb (startsWith (GitRepository.url g) "git@"))
          (ConvertRoute.push projectId
             [cat ["Using formatted GitHub URL: ";
                   CloneOptions.repoUrl (cloneOptionsFor E projectId g)]]) ;;
     ConvertRoute.push projectId
       [cat ["Cloning repository from ";
             CloneOptions.repoUrl (cloneOptionsFor E projectId g); "..."]] ;;
     ConvertRoute.await ;;
     cloneResult <- ConvertRoute.in_world
                      (GitUtils.cloneRepository E (cloneOptionsFor E projectId g)) ;;
     k cloneResult)
      (ran projectId (Job.mk st lg msg res err) (ConvertRoute.world s0)
         [ConvertRoute.Awaited] s0)
    = k r (ran projectId (Job.mk st (lg ++ lines) msg res err) w1 evs s0).
Proof.
  intros Hjob Hclone.
  do 2 ostep.
  erewrite (bind_ok (when _ _)) by apply when_push_ran. cbv beta.
  do 2 ostep.
  erewrite (bind_ok (ConvertRoute.in_world _)) by (apply in_world_ran; exact Hclone).
  cbv beta. rewrite <- !app_assoc. eexists _, _. reflexivity.
Qed.

(** The run of a project with a repository, up to the answer of the clone. *)
Lemma prepare_with_repository (E : Env) (projectId : string)
  (options : option StartOptions.t) (s0 : ConvertRoute.state) st lg msg res err
  (project : Project.t) (g : GitRepository.t) (r : CloneResult.t) (w1 : World) :
  getProject E projectId = inr project ->
  Project.gitRepository project = Some g ->
  ConvertRoute.store s0 !! projectId = Some (Job.mk st lg msg res err) ->
  GitUtils.cloneRepository E (cloneOptionsFor E projectId g) (ConvertRoute.world s0)
  = (inr r, w1) ->
  exists lines evs,
    ConvertRoute.prepare E projectId options s0
    = (acquired <-
         (if negb (CloneResult.success r)
          then
            ConvertRoute.safelyUpdateConversionStatus projectId failed
              (cat ["Failed to clone repository: "; CloneResult.message r])
              (CloneResult.error r) ;;
            ret None
          else
            ConvertRoute.push projectId [CloneResult.message r] ;;
            ConvertRoute.setStatus projectId converting ;;
            options <- ConvertRoute.optionsOf options ;;
            when (truthy_bool (StartOptions.createBranch options)
                  && truthy_str (StartOptions.branchName options))
                 (ConvertRoute.push projectId
                    [cat ["Creating branch: ";
                          interpolate (StartOptions.branchName options); "..."]] ;;
                  ConvertRoute.await ;;
                  branchCreated <-
                    ConvertRoute.in_world
                      (GitUtils.createBranch E (CloneResult.path r)
                         (interpolate (StartOptions.branchName options))) ;;
                  if negb branchCreated
                  then ConvertRoute.push projectId
                         [cat ["Warning: Failed to create branch ";
                               interpolate (StartOptions.branchName options);
                               ". Continuing on current branch."]]
                  else ConvertRoute.push projectId
                         [cat ["Created branch: ";
                               interpolate (StartOptions.branchName options)]]) ;;
            ret (Some (CloneResult.path r))) ;;
       match acquired with
       | None => ret None
       | Some projectPath => ret (Some (project, projectPath))
       end)
        (ran projectId (Job.mk st (lg ++ lines) msg res err) w1 evs s0).
Proof.
  intros Hproject Hrepository Hjob Hclone.
  edestruct (prepare_until_clone E projectId options s0 st lg msg res err project g r w1)
    as (lines & evs & Hacquire); [exact Hjob | exact Hclone |].
  exists lines, evs.
  unfold ConvertRoute.prepare.
  rewrite (ran_start projectId s0 _ Hjob) at 1.
  ostep. rewrite Hproject.
  erewrite (bind_ok (lift_sum _)) by reflexivity. cbv beta.
  rewrite Hrepository.
  rewrite bool_decide_eq_true_2 by (by eexists).
  cbn [negb andb].
  erewrite (bind_ok (match Project.link project with Some _ => _ | None => _ end)).
  2: { destruct (Project.link project); reflexivity. }
  cbv beta.
  replace (match Project.link project with
           | Some _ => Some g
           | None => Some g
           end) with (Some g) by (by destruct (Project.link project)).
  cbv beta iota.
  rewrite bind_run.
  unfold ConvertRoute.acquire. cbv zeta.
  unfold cloneOptionsFor in Hacquire. cbn [CloneOptions.repoUrl] in Hacquire.
  cbv zeta in Hacquire.
  rewrite ?app_nil_l in *.
  rewrite Hacquire. rewrite bind_run. reflexivity.
Qed.

(** X16.  When the clone answers failure, the run ends with the job failed:
    the message is the failure to clone with the clone's message, the log
    has grown by the lines of the acquisition, that message and, for a clone
    result with an error, the error details; the world is the one the clone
    left, so no branch was created and the pipeline did not run. *)
Theorem failed_clone_fails_the_job (E : Env) (projectId : string)
  (options : option StartOptions.t) (s0 : ConvertRoute.state) (job : Job.t)
  (project : Project.t) (g : GitRepository.t) (r : CloneResult.t) (w1 : World) :
  getProject E projectId = inr project ->
  Project.gitRepository project = Some g ->
  ConvertRoute.store s0 !! projectId = Some job ->
  GitUtils.cloneRepository E (cloneOptionsFor E projectId g) (ConvertRoute.world s0)
  = (inr r, w1) ->
  CloneResult.success r = false ->
  exists s' lines,
    ConvertRoute.startConversion E projectId options s0 = (inr tt, s')
    /\ ConvertRoute.world s' = w1
    /\ ConvertRoute.store s' !! projectId
       = Some (Job.mk failed
                 (Job.logs job ++ lines
                  ++ [cat ["Failed to clone repository: "; CloneResult.message r]]
                  ++ match CloneResult.error r with
                     | Some e => [cat ["Error details: "; error_text e]]
                     | None => []
                     end)
                 (Some (cat ["Failed to clone repository: "; CloneResult.message r]))
                 (Job.result job)
                 (match CloneResult.error r with
                  | Some e => Some (error_text e)
                  | None => Job.error job
                  end)).
Proof.
  intros Hproject Hrepository Hjob Hclone Hfailed.
  destruct job as [st lg msg res err].
  destruct (prepare_with_repository E projectId options s0 st lg msg res err project g r w1
              Hproject Hrepository Hjob Hclone) as (lines & evs & Hprepare).
  rewrite Hfailed in Hprepare. cbn [negb] in Hprepare.
  destruct (safelyUpdateConversionStatus_ran projectId failed
              (cat ["Failed to clone repository: "; CloneResult.message r])
              (CloneResult.error r) st (lg ++ lines) msg res err w1 evs s0)
    as (evs' & Hupdate).
  erewrite (bind_ok (bind _ _)) in Hprepare.
  2: { erewrite (bind_ok (ConvertRoute.safelyUpdateConversionStatus _ _ _ _))
         by exact Hupdate.
       reflexivity. }
  cbv beta iota in Hprepare.
  unfold ConvertRoute.startConversion.
  erewrite try_ok.
  2: { erewrite (bind_ok (ConvertRoute.prepare _ _ _)) by exact Hprepare. reflexivity. }
  eexists _, lines. split; [reflexivity |].
  split; [reflexivity |].
  rewrite ran_lookup. unfold safelyUpdated. cbn [Job.logs Job.result Job.error].
  by rewrite <- !app_assoc.
Qed.

Lemma failed_clone_fails_the_job_witness :
  exists s' job,
    ConvertRoute.startConversion unknownRepositoryEnv "prj_1" (Some publishOptions)
      (requested storageOnly) = (inr tt, s')
    /\ ConvertRoute.store s' !! "prj_1" = Some job
    /\ Job.status job = failed
    /\ Job.message job
       = Some "Failed to clone repository: Failed to clone repository: Repository not found. Please verify the URL is correct."
    /\ calls (ConvertRoute.world s')
       = [CallGit (GitClone "https://github.com/acme/shop" "/store/prj_1" ["-b"; "main"])].
Proof.
  set (E := unknownRepositoryEnv).
  set (g := GitRepository.mk "github" "acme/shop" "https://github.com/acme/shop" "main").
  set (cloned := GitUtils.cloneRepository E (cloneOptionsFor E "prj_1" g) storageOnly).
  set (r := returned (CloneResult.mk true "" "" None) cloned.1).
  assert (Hclone : cloned = (inr r, cloned.2)).
  { vm_compute. reflexivity. }
  assert (Hfailed : CloneResult.success r = false).
  { vm_compute. reflexivity. }
  destruct (failed_clone_fails_the_job E "prj_1" (Some publishOptions) (requested storageOnly)
              (Job.mk cloning ["Initializing conversion process..."] None None None)
              Demo.shop g r cloned.2 eq_refl eq_refl eq_refl Hclone Hfailed)
    as (s' & lines & Hstart & Hworld & Hfinal).
  exists s'. eexists. split; [exact Hstart |].
  split; [exact Hfinal |].
  split; [reflexivity |].
  split; [reflexivity |].
  rewrite Hworld. vm_compute. reflexivity.
Defined.

(** X17.  A start request without options, for a project whose clone
    succeeds: the first read of a member of the options throws after the
    acquisition, and the run ends with the job failed and a message that the
    conversion process failed unexpectedly.  The log has the clone's message,
    and the world is the one the clone left: no branch was created and the
    pipeline did not run. *)
Theorem missing_options_fail_the_job (E : Env) (projectId : string)
  (s0 : ConvertRoute.state) (job : Job.t)
  (project : Project.t) (g : GitRepository.t) (r : CloneResult.t) (w1 : World) :
  getProject E projectId = inr project ->
  Project.gitRepository project = Some g ->
  ConvertRoute.store s0 !! projectId = Some job ->
  GitUtils.cloneRepository E (cloneOptionsFor E projectId g) (ConvertRoute.world s0)
  = (inr r, w1) ->
  CloneResult.success r = true ->
  exists s' final reason,
    ConvertRoute.startConversion E projectId None s0 = (inr tt, s')
    /\ ConvertRoute.world s' = w1
    /\ ConvertRoute.store s' !! projectId = Some final
    /\ Job.status final = failed
    /\ Job.message final
       = Some (cat ["Conversion process failed unexpectedly: "; reason])
    /\ In (CloneResult.message r) (Job.logs final).
Proof.
  intros Hproject Hrepository Hjob Hclone Hok.
  destruct job as [st lg msg res err].
  destruct (prepare_with_repository E projectId None s0 st lg msg res err project g r w1
              Hproject Hrepository Hjob Hclone) as (lines & evs & Hprepare).
  rewrite Hok in Hprepare. cbn [negb] in Hprepare.
  erewrite bind_fail in Hprepare.
  2: { do 2 ostep. apply bind_fail. reflexivity. }
  match type of Hprepare with
  | _ = (inl ?e, ran _ (Job.mk ?st1 ?lg1 _ _ _) _ ?evs1 _) =>
      destruct (safelyUpdateConversionStatus_ran projectId failed
                  (cat ["Conversion process failed unexpectedly: "; error_message e])
                  (Some e) st1 lg1 msg res err w1 evs1 s0) as (evs' & Hupdate)
  end.
  unfold ConvertRoute.startConversion.
  erewrite try_fail.
  2: { apply bind_fail. exact Hprepare. }
  cbv zeta. rewrite Hupdate.
  eexists _, _, _. split; [reflexivity |].
  split; [reflexivity |].
  split; [apply ran_lookup |].
  split; [reflexivity |].
  split; [reflexivity |].
  unfold safelyUpdated. cbn [Job.logs]. rewrite !in_app_iff. simpl. tauto.
Qed.

Lemma missing_options_fail_the_job_witness :
  exists s' final,
    ConvertRoute.startConversion Demo.env "prj_1" None
      (requested (Demo.checkout Demo.manifest)) = (inr tt, s')
    /\ ConvertRoute.store s' !! "prj_1" = Some final
    /\ Job.status final = failed
    /\ calls (ConvertRoute.world s')
       = [CallGit (GitCheckIsRepo "/store/prj_1");
          CallGit (GitCheckout "/store/prj_1" "main");
          CallGit (GitPull "/store/prj_1")].
Proof.
  set (E := Demo.env).
  set (g := GitRepository.mk "github" "acme/shop" "https://github.com/acme/shop" "main").
  set (cloned := GitUtils.cloneRepository E (cloneOptionsFor E "prj_1" g)
                   (Demo.checkout Demo.manifest)).
  set (r := returned (CloneResult.mk false "" "" None) cloned.1).
  assert (Hclone : cloned = (inr r, cloned.2)).
  { vm_compute. reflexivity. }
  assert (Hok : CloneResult.success r = true).
  { vm_compute. reflexivity. }
  destruct (missing_options_fail_the_job E "prj_1" (requested (Demo.checkout Demo.manifest))
              (Job.mk cloning ["Initializing conversion process..."] None None None)
              Demo.shop g r cloned.2 eq_refl eq_refl eq_refl Hclone Hok)
    as (s' & final & reason & Hstart & Hworld & Hfinal & Hstatus & _).
  exists s', final. split; [exact Hstart |].
  split; [exact Hfinal |].
  split; [exact Hstatus |].
  rewrite Hworld. vm_compute. reflexivity.
Defined.

(** *** The log of a job only grows *)

Lemma appendOnly_snoc projectId init evs job :
  appendOnly projectId init evs = true ->
  lastLogs init evs `prefix_of` Job.logs job ->
  appendOnly projectId init (evs ++ [ConvertRoute.Mutated projectId job]) = true
  /\ lastLogs init (evs ++ [ConvertRoute.Mutated projectId job]) = Job.logs job.
Proof.
  revert init. induction evs as [| [p j |] evs IH]; intros init Hevs Hprefix; simpl in *.
  - rewrite String.eqb_refl, bool_decide_eq_true_2 by done. done.
  - apply andb_prop in Hevs as [Hhead Hevs]. rewrite Hhead. by apply IH.
  - by apply IH.
Qed.

Lemma appendOnly_await projectId init evs :
  appendOnly projectId init (evs ++ [ConvertRoute.Awaited]) = appendOnly projectId init evs
  /\ lastLogs init (evs ++ [ConvertRoute.Awaited]) = lastLogs init evs.
Proof.
  revert init. induction evs as [| [p j |] evs IH]; intros init; simpl; [done | |].
  - destruct (IH (Job.logs j)) as [-> ->]. done.
  - apply IH.
Qed.

Lemma appendOnly_prefix projectId init evs :
  appendOnly projectId init evs = true -> init `prefix_of` lastLogs init evs.
Proof.
  revert init. induction evs as [| [p j |] evs IH]; intros init Hevs; simpl in *.
  - done.
  - apply andb_prop in Hevs as [[_ Hhead]%andb_prop Hevs].
    apply bool_decide_eq_true in Hhead. etransitivity; [exact Hhead | by apply IH].
  - by apply IH.
Qed.

Section Growing.
Variable E : Env.
Variable projectId : string.
Variable past : list ConvertRoute.event.
Variable init : list string.

Let grows := growing projectId past init.

Lemma update_grows (m : Comp ConvertRoute.state unit) (f : Job.t -> Job.t) X :
  (forall s job, ConvertRoute.store s !! projectId = Some job ->
                 m s = ConvertRoute.put projectId (f job) s) ->
  (forall job, Job.logs job `prefix_of` Job.logs (f job)) ->
  triple grows m (fun _ => grows) X.
Proof.
  intros Hm Hf [st w all] (job & evs & Hlook & Hall & Hevs & Hlast).
  rewrite (Hm _ job Hlook). simpl in *.
  destruct (appendOnly_snoc projectId init evs (f job) Hevs) as [Hevs' Hlast'].
  { rewrite Hlast. apply Hf. }
  exists (f job), (evs ++ [ConvertRoute.Mutated projectId (f job)])%list. simpl.
  rewrite lookup_insert_eq, Hall, Hevs', Hlast'. by rewrite app_assoc.
Qed.

Lemma push_grows messages X :
  triple grows (ConvertRoute.push projectId messages) (fun _ => grows) X.
Proof.
  eapply update_grows; [intros s job; apply push_entry |].
  intros job. simpl. by eexists.
Qed.

Lemma setStatus_grows status X :
  triple grows (ConvertRoute.setStatus projectId status) (fun _ => grows) X.
Proof. eapply update_grows; [intros s job; apply assign_entry | done]. Qed.

Lemma setMessage_grows message X :
  triple grows (ConvertRoute.setMessage projectId message) (fun _ => grows) X.
Proof. eapply update_grows; [intros s job; apply assign_entry | done]. Qed.

Lemma setResult_grows result X :
  triple grows (ConvertRoute.setResult projectId result) (fun _ => grows) X.
Proof. eapply update_grows; [intros s job; apply assign_entry | done]. Qed.

Lemma setError_grows errorMsg X :
  triple grows (ConvertRoute.setError projectId errorMsg) (fun _ => grows) X.
Proof. eapply update_grows; [intros s job; apply assign_entry | done]. Qed.

Lemma await_grows X : triple grows ConvertRoute.await (fun _ => grows) X.
Proof.
  intros [st w all] (job & evs & Hlook & Hall & Hevs & Hlast). simpl in *.
  destruct (appendOnly_await projectId init evs) as [Hevs' Hlast'].
  exists job, (evs ++ [ConvertRoute.Awaited])%list. simpl.
  rewrite Hall, Hevs', Hlast'. by rewrite app_assoc.
Qed.

Lemma in_world_grows {A : Type} (m : Comp World A) :
  triple grows (ConvertRoute.in_world m) (fun _ => grows) grows.
Proof.
  intros [st w all] Hs. unfold ConvertRoute.in_world. simpl.
  by destruct (m w) as [[e | a] w'].
Qed.

Lemma present_grows X :
  triple grows
    (gets (fun s => truthy_found (lookup (ConvertRoute.store s) projectId)))
    (fun present s => grows s /\ present = true) X.
Proof.
  intros s Hs. split; [done |]. destruct Hs as (job & evs & Hlook & _).
  unfold gets. simpl. by rewrite (lookup_entry _ _ _ Hlook).
Qed.

Lemma throw_grows {A : Type} (e : thrown) (Q : A -> ConvertRoute.state -> Prop) :
  triple grows (throw e) Q grows.
Proof. by apply triple_throw. Qed.

Ltac lprim :=
  first
    [ apply push_grows | apply setStatus_grows | apply setMessage_grows
    | apply setResult_grows | apply setError_grows | apply await_grows
    | apply in_world_grows | apply triple_lift_sum | apply throw_grows ].

Ltac lgo :=
  lazymatch goal with
  | |- triple _ (bind (gets _) _) _ _ =>
      eapply triple_bind; [apply present_grows | intros ?];
      apply triple_assume; intros ->; cbn [negb when]; lgo
  | |- triple _ (bind _ _) _ _ => eapply triple_bind; [lgo | intros ?; lgo]
  | |- triple _ (try_catch _ _) _ _ => eapply triple_try; [lgo | intros ?; lgo]
  | |- triple _ (when _ _) _ _ => apply triple_when; [lgo | done]
  | |- triple _ (if ?c then _ else _) _ _ => destruct c; lgo
  | |- triple _ (match ?x with Some _ => _ | None => _ end) _ _ => destruct x; lgo
  | |- triple _ (let '(_, _) := ?x in _) _ _ => destruct x; lgo
  | |- triple _ (ret _) ?Q _ =>
      first [is_evar Q; apply triple_ret_same | by apply triple_ret]
  | |- _ => lprim
  end.

(** Every write of a run appends to the log or leaves it as it is. *)
Lemma startConversion_grows options :
  triple grows (ConvertRoute.startConversion E projectId options)
    (fun _ => grows) (fun _ => False).
Proof.
  unfold ConvertRoute.startConversion, ConvertRoute.prepare, ConvertRoute.acquire,
    ConvertRoute.convertAndFinish, ConvertRoute.safelyUpdateConversionStatus,
    ConvertRoute.optionsOf.
  cbv zeta.
  eapply triple_try; [lgo | intros error; lgo].
Qed.
End Growing.

(** X18.  A start request replaces the entry of the project by a fresh one
    (status cloning, the one initialising log line, nothing else), and from
    then on the run only appends to the log: every later write is to the
    entry of that project and leaves a log that begins with the log before
    it.  The log the job ends with is the one the last write left, and it
    still begins with the initialising line. *)
Theorem job_log_is_append_only (E : Env) (projectId : string)
  (options : option StartOptions.t) (s0 : ConvertRoute.state) :
  projectId <> "" ->
  exists s' evs final,
    ConvertRoute.POST E (Some projectId) options s0
    = (inr (ConvertRoute.Json 200 "Conversion process started"), s')
    /\ ConvertRoute.events s'
       = (ConvertRoute.events s0
          ++ ConvertRoute.Mutated projectId
               (Job.mk cloning ["Initializing conversion process..."] None None None)
             :: evs)%list
    /\ appendOnly projectId ["Initializing conversion process..."] evs = true
    /\ ConvertRoute.store s' !! projectId = Some final
    /\ Job.logs final = lastLogs ["Initializing conversion process..."] evs
    /\ ["Initializing conversion process..."] `prefix_of` Job.logs final.
Proof.
  intros Hid.
  assert (Htruthy : truthy_str (Some projectId) = true).
  { simpl. by destruct (String.eqb_spec projectId ""). }
  set (job0 := Job.mk cloning ["Initializing conversion process..."] None None None).
  set (past := (ConvertRoute.events s0 ++ [ConvertRoute.Mutated projectId job0])%list).
  set (s1 := ConvertRoute.mkState (<[projectId := job0]> (ConvertRoute.store s0))
               (ConvertRoute.world s0) past).
  assert (Hgrowing : growing projectId past ["Initializing conversion process..."] s1).
  { exists job0, []. simpl. by rewrite lookup_insert_eq, app_nil_r. }
  pose proof (startConversion_grows E projectId past ["Initializing conversion process..."]
                options s1 Hgrowing) as Hrun.
  destruct (ConvertRoute.startConversion E projectId options s1) as [[e | []] s'] eqn:Hstart;
    [done |].
  destruct Hrun as (final & evs & Hlook & Hevents & Hevs & Hlast).
  exists s', evs, final.
  split.
  { unfold ConvertRoute.POST. rewrite Htruthy. cbn [negb interpolate].
    erewrite (bind_ok (ConvertRoute.put _ _)) by reflexivity.
    by erewrite bind_ok by exact Hstart. }
  split; [by rewrite Hevents; unfold past; rewrite <- app_assoc |].
  split; [exact Hevs |].
  split; [exact Hlook |].
  split; [done |].
  rewrite <- Hlast. by eapply appendOnly_prefix.
Qed.

Lemma job_log_is_append_only_witness :
  "prj_1" <> ""
  /\ exists s' evs final,
      ConvertRoute.POST Demo.env (Some "prj_1") (Some publishOptions)
        (freshState (Demo.checkout Demo.manifest))
      = (inr (ConvertRoute.Json 200 "Conversion process started"), s')
      /\ appendOnly "prj_1" ["Initializing conversion process..."] evs = true
      /\ ConvertRoute.store s' !! "prj_1" = Some final
      /\ Job.logs final = lastLogs ["Initializing conversion process..."] evs.
Proof.
  split; [discriminate |].
  destruct (job_log_is_append_only Demo.env "prj_1" (Some publishOptions)
              (freshState (Demo.checkout Demo.manifest)))
    as (s' & evs & final & Hpost & _ & Hevs & Hlook & Hlogs & _);
    [discriminate |].
  exists s', evs, final.
  split; [exact Hpost |].
  split; [exact Hevs |].
  split; [exact Hlook | exact Hlogs].
Defined.

(** ** Further properties of the status feed *)



(** X20.  When the run has come to the pipeline and either the pipeline
    failed or no commit and push was asked for, the job is finalised from
    the pipeline's result alone: its status is success or failed as the
    result says, its message and result are the pipeline's, its log has
    grown by the pipeline's log, and the world is the one the pipeline left,
    so nothing was committed or pushed. *)
Theorem job_is_finalized_from_the_pipeline_result (E : Env) (projectId : string)
  (options : StartOptions.t) (s0 s : ConvertRoute.state)
  (project : Project.t) (projectPath : string) (job : Job.t)
  (result : ConversionResult.t) (w1 : World) :
  ConvertRoute.prepare E projectId (Some options) s0 = (inr (Some (project, projectPath)), s) ->
  ConvertRoute.store s !! projectId = Some job ->
  ConversionPipeline.runPipeline E (ConvertRoute.pipelineOptions projectPath project options)
    (ConvertRoute.world s) = (inr result, w1) ->
  ConversionResult.success result && truthy_bool (StartOptions.commitAndPush options) = false ->
  exists s',
    ConvertRoute.startConversion E projectId (Some options) s0 = (inr tt, s')
    /\ ConvertRoute.world s' = w1
    /\ ConvertRoute.store s' !! projectId
       = Some (Job.mk (if ConversionResult.success result then success else failed)
                 (Job.logs job ++ ["Starting conversion pipeline..."]
                  ++ ConversionResult.logs result)
                 (Some (ConversionResult.message result))
                 (Some result)
                 (Job.error job)).
Proof.
  intros Hprep Hjob Hrun Hquiet.
  destruct job as [st lg msg res err].
  unfold ConvertRoute.startConversion.
  erewrite try_ok; [eexists; split; [reflexivity |] |].
  2: {
    erewrite bind_ok by exact Hprep. cbv beta iota.
    cbn [ConvertRoute.optionsOf]. ostep.
    rewrite (ran_start projectId s _ Hjob) at 1.
    unfold ConvertRoute.convertAndFinish.
    do 2 ostep.
    erewrite (bind_ok (ConvertRoute.in_world _)) by (apply in_world_ran; exact Hrun).
    cbv beta. ostep.
    rewrite Hquiet. cbn [when]. ostep.
    do 2 ostep.
    apply setResult_ran. }
  split; [reflexivity |].
  rewrite ran_lookup.
  cbn [Job.status Job.logs Job.message Job.result Job.error].
  by rewrite <- !app_assoc.
Qed.

Lemma job_is_finalized_from_the_pipeline_result_witness :
  exists s' final,
    ConvertRoute.startConversion Demo.env "prj_1"
      (Some (StartOptions.mk (Some true) (Some "ns123") None None None None))
      (requested (Demo.checkout Demo.manifest)) = (inr tt, s')
    /\ ConvertRoute.store s' !! "prj_1" = Some final
    /\ Job.status final = success
    /\ Job.message final
       = Some "Project successfully converted to use @opennextjs/cloudflare".
Proof.
  set (E := Demo.env).
  set (options := StartOptions.mk (Some true) (Some "ns123") None None None None).
  set (s0 := requested (Demo.checkout Demo.manifest)).
  set (s := (ConvertRoute.prepare E "prj_1" (Some options) s0).2).
  set (job := default (Job.mk idle [] None None None) (ConvertRoute.store s !! "prj_1")).
  set (po := ConvertRoute.pipelineOptions "/store/prj_1" Demo.shop options).
  set (ran1 := ConversionPipeline.runPipeline E po (ConvertRoute.world s)).
  set (result := returned (ConversionResult.mk false "" []) ran1.1).
  assert (Hprep : ConvertRoute.prepare E "prj_1" (Some options) s0
                  = (inr (Some (Demo.shop, "/store/prj_1")), s)).
  { vm_compute. reflexivity. }
  assert (Hjob : ConvertRoute.store s !! "prj_1" = Some job).
  { vm_compute. reflexivity. }
  assert (Hrun : ran1 = (inr result, ran1.2)).
  { vm_compute. reflexivity. }
  assert (Hquiet : ConversionResult.success result
                   && truthy_bool (StartOptions.commitAndPush options) = false).
  { vm_compute. reflexivity. }
  assert (Hok : ConversionResult.success result = true).
  { vm_compute. reflexivity. }
  assert (Hmessage : ConversionResult.message result
                     = "Project successfully converted to use @opennextjs/cloudflare").
  { vm_compute. reflexivity. }
  destruct (job_is_finalized_from_the_pipeline_result E "prj_1" options s0 s
              Demo.shop "/store/prj_1" job result ran1.2 Hprep Hjob Hrun Hquiet)
    as (s' & Hstart & _ & Hfinal).
  eexists s', _. split; [exact Hstart |].
  split; [exact Hfinal |].
  cbn [Job.status Job.message]. rewrite Hok, Hmessage. by split.
Defined.

(** X21.  When a branch was asked for (createBranch set and a branch name
    given) and the clone succeeded, the acquisition goes on whatever
    [createBranch] answers: the job is in state converting, the log has the
    clone's message, the line that the branch is being created and then
    either the line that it was created or the warning that it was not and
    that the run continues on the current branch; the checkout path goes on
    to the pipeline. *)
Theorem branch_failure_is_a_warning (E : Env) (projectId : string)
  (options : StartOptions.t) (s0 : ConvertRoute.state) (job : Job.t)
  (project : Project.t) (g : GitRepository.t) (r : CloneResult.t) (w1 w2 : World)
  (branchCreated : bool) :
  getProject E projectId = inr project ->
  Project.gitRepository project = Some g ->
  ConvertRoute.store s0 !! projectId = Some job ->
  GitUtils.cloneRepository E (cloneOptionsFor E projectId g) (ConvertRoute.world s0)
  = (inr r, w1) ->
  CloneResult.success r = true ->
  truthy_bool (StartOptions.createBranch options) = true ->
  truthy_str (StartOptions.branchName options) = true ->
  GitUtils.createBranch E (CloneResult.path r) (interpolate (StartOptions.branchName options)) w1
  = (inr branchCreated, w2) ->
  exists s lines,
    ConvertRoute.prepare E projectId (Some options) s0
    = (inr (Some (project, CloneResult.path r)), s)
    /\ ConvertRoute.world s = w2
    /\ ConvertRoute.store s !! projectId
       = Some (Job.mk converting
                 (Job.logs job ++ lines
                  ++ [CloneResult.message r;
                      cat ["Creating branch: ";
                           interpolate (StartOptions.branchName options); "..."];
                      if branchCreated
                      then cat ["Created branch: ";
                                interpolate (StartOptions.branchName options)]
                      else cat ["Warning: Failed to create branch ";
                                interpolate (StartOptions.branchName options);
                                ". Continuing on current branch."]])
                 (Job.message job) (Job.result job) (Job.error job)).
Proof.
  intros Hproject Hrepository Hjob Hclone Hok Hask Hname Hbranch.
  destruct job as [st lg msg res err].
  destruct (prepare_with_repository E projectId (Some options) s0 st lg msg res err
              project g r w1 Hproject Hrepository Hjob Hclone) as (lines & evs & Hprepare).
  rewrite Hok in Hprepare. cbn [negb ConvertRoute.optionsOf] in Hprepare.
  rewrite Hprepare. clear Hprepare.
  erewrite (bind_ok (bind _ _)).
  2: { do 3 ostep. rewrite Hask, Hname. cbn [andb when].
       erewrite (bind_ok (bind _ _)).
       2: { do 2 ostep.
            erewrite (bind_ok (ConvertRoute.in_world _))
              by (apply in_world_ran; exact Hbranch).
            cbv beta.
            replace (if negb branchCreated
                     then ConvertRoute.push projectId
                            [cat ["Warning: Failed to create branch ";
                                  interpolate (StartOptions.branchName options);
                                  ". Continuing on current branch."]]
                     else ConvertRoute.push projectId
                            [cat ["Created branch: ";
                                  interpolate (StartOptions.branchName options)]])
              with (ConvertRoute.push projectId
                      [if branchCreated
                       then cat ["Created branch: ";
                                 interpolate (StartOptions.branchName options)]
                       else cat ["Warning: Failed to create branch ";
                                 interpolate (StartOptions.branchName options);
                                 ". Continuing on current branch."]])
              by (by destruct branchCreated).
            apply push_ran. }
       reflexivity. }
  cbv beta iota.
  eexists _, lines. split; [reflexivity |].
  split; [reflexivity |].
  rewrite ran_lookup. cbn [Job.logs Job.message Job.result Job.error].
  by rewrite <- !app_assoc.
Qed.

Lemma branch_failure_is_a_warning_witness :
  exists s final,
    ConvertRoute.prepare branchExistsEnv "prj_1" (Some branchOptions)
      (requested (Demo.checkout Demo.manifest))
    = (inr (Some (Demo.shop, "/store/prj_1")), s)
    /\ ConvertRoute.store s !! "prj_1" = Some final
    /\ Job.status final = converting
    /\ list.last (Job.logs final)
       = Some "Warning: Failed to create branch cloudflare-migration. Continuing on current branch.".
Proof.
  set (E := branchExistsEnv).
  set (g := GitRepository.mk "github" "acme/shop" "https://github.com/acme/shop" "main").
  set (cloned := GitUtils.cloneRepository E (cloneOptionsFor E "prj_1" g)
                   (Demo.checkout Demo.manifest)).
  set (r := returned (CloneResult.mk false "" "" None) cloned.1).
  set (branched := GitUtils.createBranch E "/store/prj_1" "cloudflare-migration" cloned.2).
  assert (Hclone : cloned = (inr r, cloned.2)).
  { vm_compute. reflexivity. }
  assert (Hok : CloneResult.success r = true).
  { vm_compute. reflexivity. }
  assert (Hbranch : GitUtils.createBranch E (CloneResult.path r)
                      (interpolate (StartOptions.branchName branchOptions)) cloned.2
                    = (inr false, branched.2)).
  { vm_compute. reflexivity. }
  destruct (branch_failure_is_a_warning E "prj_1" branchOptions
              (requested (Demo.checkout Demo.manifest))
              (Job.mk cloning ["Initializing conversion process..."] None None None)
              Demo.shop g r cloned.2 branched.2 false
              eq_refl eq_refl eq_refl Hclone Hok eq_refl eq_refl Hbranch)
    as (s & lines & Hprepare & _ & Hfinal).
  assert (Hpath : CloneResult.path r = "/store/prj_1").
  { vm_compute. reflexivity. }
  rewrite Hpath in Hprepare.
  exists s. eexists. split; [exact Hprepare |].
  split; [exact Hfinal |].
  split; [reflexivity |].
  cbn [Job.logs]. rewrite !last_app. reflexivity.
Defined.

(** X22.  When step 1 passes and the installation fails, the run stops in
    step 2: it reports failure, its message and the last line of its log
    name the failed installation with the message of the process, and the
    files are the ones the installation left: no configuration file was
    generated and neither the manifest nor the ignore file was touched. *)
Theorem failed_install_stops_before_any_file_is_written (E : Env)
  (o : ConversionOptions.t) (w : World) (s1 : ConversionPipeline.state)
  (code : nat) (message : string) (fs : gmap string string) :
  ConversionPipeline.verifyNextJsProject E o (started (ConversionPipeline.mkState [] w))
  = (inr tt, s1) ->
  execAsync E ConversionPipeline.npm_install_cmd (ConversionPipeline.manifestDir E o)
    (ConversionPipeline.world s1) = (ExecFailed code message, fs) ->
  exists r w',
    ConversionPipeline.runPipeline E o w = (inr r, w')
    /\ ConversionResult.success r = false
    /\ ConversionResult.message r
       = cat ["Conversion failed: "; cat ["Failed to install dependencies: "; message]]
    /\ list.last (ConversionResult.logs r)
       = Some (cat ["Error during conversion: ";
                    cat ["Failed to install dependencies: "; message]])
    /\ files w' = fs
    /\ dirs w' = dirs (ConversionPipeline.world s1).
Proof.
  intros Hverify Hinstall.
  rewrite runPipeline_is_run.
  unfold steps. cbn [runSteps]. rewrite Hverify.
  assert (Hstep : exists ls,
             ConversionPipeline.installDependencies E o s1
             = (inl (JsError (cat ["Failed to install dependencies: "; message])),
                ConversionPipeline.mkState ls
                  (mkWorld fs (dirs (ConversionPipeline.world s1))
                     (calls (ConversionPipeline.world s1)
                      ++ [CallExec ConversionPipeline.npm_install_cmd
                            (ConversionPipeline.manifestDir E o)])))).
  { destruct s1 as [ls1 w1]. simpl in Hinstall.
    unfold ConversionPipeline.installDependencies, ConversionPipeline.log,
      ConversionPipeline.in_world, exec.
    comp_unfold. cbn [ConversionPipeline.world ConversionPipeline.logs].
    destruct (truthy_str (ConversionOptions.packageJsonPath o));
      cbn [ConversionPipeline.world ConversionPipeline.logs];
      rewrite Hinstall; simpl; eexists; reflexivity. }
  destruct Hstep as [ls ->].
  eexists _, _. split; [reflexivity |].
  cbn [concluded report ConversionResult.success ConversionResult.message
       ConversionResult.logs ConversionPipeline.logs ConversionPipeline.world error_message
       files dirs].
  split; [reflexivity |]. split; [reflexivity |].
  split; [apply last_snoc |].
  split; reflexivity.
Qed.

Lemma failed_install_stops_before_any_file_is_written_witness :
  exists r w',
    ConversionPipeline.runPipeline registryDownEnv (Demo.options None None)
      (Demo.checkout Demo.manifest) = (inr r, w')
    /\ ConversionResult.success r = false
    /\ ConversionResult.message r
       = "Conversion failed: Failed to install dependencies: npm ERR! network request failed"
    /\ files w' = files (Demo.checkout Demo.manifest).
Proof.
  set (E := registryDownEnv).
  set (o := Demo.options None None).
  set (verified := ConversionPipeline.verifyNextJsProject E o
                     (started (ConversionPipeline.mkState [] (Demo.checkout Demo.manifest)))).
  assert (Hverify : verified = (inr tt, verified.2)).
  { vm_compute. reflexivity. }
  assert (Hinstall : execAsync E ConversionPipeline.npm_install_cmd
                       (ConversionPipeline.manifestDir E o)
                       (ConversionPipeline.world verified.2)
                     = (ExecFailed 1 "npm ERR! network request failed",
                        files (Demo.checkout Demo.manifest))).
  { vm_compute. reflexivity. }
  destruct (failed_install_stops_before_any_file_is_written E o
              (Demo.checkout Demo.manifest) verified.2 1
              "npm ERR! network request failed" (files (Demo.checkout Demo.manifest))
              Hverify Hinstall)
    as (r & w' & Hrun & Hfailed & Hmessage & _ & Hfiles & _).
  exists r, w'. split; [exact Hrun |].
  split; [exact Hfailed |].
  split; [exact Hmessage | exact Hfiles].
Defined.

(** The acquisition from any state of the run, up to the answer of the
    clone. *)
Lemma acquire_until_clone (E : Env) (projectId : string) (options : option StartOptions.t)
  (s0 : ConvertRoute.state) st lg msg res err (project : Project.t) (g : GitRepository.t)
  (w : World) (evs0 : list ConvertRoute.event) (r : CloneResult.t) (w1 : World) :
  GitUtils.cloneRepository E (cloneOptionsFor E projectId g) w = (inr r, w1) ->
  negb (CloneResult.success r) = true ->
  exists lines evs,
    ConvertRoute.acquire E projectId project g options
      (ran projectId (Job.mk st lg msg res err) w evs0 s0)
    = (inr None,
       ran projectId
         (safelyUpdated failed
            (cat ["Failed to clone repository: "; CloneResult.message r])
            (CloneResult.error r)
            (Job.mk st (lg ++ lines) msg res err))
         w1 evs s0).
Proof.
  intros Hclone Hfailed.
  unfold ConvertRoute.acquire. cbv zeta.
  unfold cloneOptionsFor in Hclone.
  do 2 ostep.
  erewrite (bind_ok (when _ _)) by apply when_push_ran. cbv beta.
  do 2 ostep.
  erewrite (bind_ok (ConvertRoute.in_world _)) by (apply in_world_ran; exact Hclone).
  cbv beta. rewrite Hfailed.
  match goal with
  | |- context [ran projectId (Job.mk ?st1 ?lg1 _ _ _) w1 ?evs1 s0] =>
      destruct (safelyUpdateConversionStatus_ran projectId failed
                  (cat ["Failed to clone repository: "; CloneResult.message r])
                  (CloneResult.error r) st1 lg1 msg res err w1 evs1 s0) as (evs' & Hupdate)
  end.
  erewrite (bind_ok (ConvertRoute.safelyUpdateConversionStatus _ _ _ _)) by exact Hupdate.
  rewrite <- !app_assoc. eexists _, _. reflexivity.
Qed.

(** X23.  A project without a gitRepository but with a github link is
    cloned from the repository of the link: the URL is
    https://github.com/org/repo, the branch the production branch, and the
    log first notes that the repository was detected from the link field.
    When that clone answers failure the job ends failed with the failure to
    clone, in the world the clone left. *)
Theorem linked_repository_is_cloned (E : Env) (projectId : string)
  (options : option StartOptions.t) (s0 : ConvertRoute.state) (job : Job.t)
  (project : Project.t) (l : Link.t) (r : CloneResult.t) (w1 : World) :
  getProject E projectId = inr project ->
  Project.gitRepository project = None ->
  Project.link project = Some l ->
  Link.type l = "github" ->
  ConvertRoute.store s0 !! projectId = Some job ->
  GitUtils.cloneRepository E
    (CloneOptions.mk (cat ["https://github.com/"; Link.org l; "/"; Link.repo l]) projectId
       (Some (Link.productionBranch l))
       (if truthy_str (LOCAL_STORAGE_PATH E)
        then interpolate (LOCAL_STORAGE_PATH E)
        else "./tmp/projects"))
    (ConvertRoute.world s0) = (inr r, w1) ->
  CloneResult.success r = false ->
  exists s' final lines,
    ConvertRoute.startConversion E projectId options s0 = (inr tt, s')
    /\ ConvertRoute.world s' = w1
    /\ ConvertRoute.store s' !! projectId = Some final
    /\ Job.status final = failed
    /\ Job.message final
       = Some (cat ["Failed to clone repository: "; CloneResult.message r])
    /\ Job.logs final
       = (Job.logs job
          ++ cat ["Detected Git repository from link field: "; Link.org l; "/"; Link.repo l]
          :: lines)%list.
Proof.
  intros Hproject Hrepository Hlink Htype Hjob Hclone Hfailed.
  destruct job as [st lg msg res err].
  assert (Hoptions : cloneOptionsFor E projectId (ConvertRoute.repositoryOfLink l)
                     = CloneOptions.mk
                         (cat ["https://github.com/"; Link.org l; "/"; Link.repo l]) projectId
                         (Some (Link.productionBranch l))
                         (if truthy_str (LOCAL_STORAGE_PATH E)
                          then interpolate (LOCAL_STORAGE_PATH E)
                          else "./tmp/projects")).
  { unfold cloneOptionsFor, ConvertRoute.repositoryOfLink.
    cbn [GitRepository.type GitRepository.url GitRepository.repo
         GitRepository.defaultBranch].
    rewrite Htype. by rewrite andb_false_r || reflexivity. }
  rewrite <- Hoptions in Hclone.
  set (detected := cat ["Detected Git repository from link field: ";
                        Link.org l; "/"; Link.repo l]).
  destruct (acquire_until_clone E projectId options s0 st (lg ++ [detected])
              msg res err project (ConvertRoute.repositoryOfLink l)
              (ConvertRoute.world s0)
              (([] ++ [ConvertRoute.Awaited])
               ++ [ConvertRoute.Mutated projectId
                     (Job.mk st (lg ++ [detected]) msg res err)])%list
              r w1 Hclone)
    as (lines & evs & Hacquire); [by rewrite Hfailed |].
  assert (Hprepare : ConvertRoute.prepare E projectId options s0
                     = (inr None,
                        ran projectId
                          (safelyUpdated failed
                             (cat ["Failed to clone repository: "; CloneResult.message r])
                             (CloneResult.error r)
                             (Job.mk st ((lg ++ [detected]) ++ lines) msg res err))
                          w1 evs s0)).
  { unfold ConvertRoute.prepare.
    rewrite (ran_start projectId s0 _ Hjob) at 1.
    ostep. rewrite Hproject.
    erewrite (bind_ok (lift_sum _)) by reflexivity. cbv beta.
    rewrite Hrepository, Hlink.
    rewrite bool_decide_eq_false_2 by (by intros [? [=]]).
    unfold ConvertRoute.hasLinkRepository. rewrite Hlink, Htype.
    cbn [negb andb]. rewrite String.eqb_refl.
    cbn [when]. ostep.
    erewrite (bind_ok (ConvertRoute.acquire _ _ _ _ _)) by exact Hacquire.
    reflexivity. }
  unfold ConvertRoute.startConversion.
  erewrite try_ok.
  2: { erewrite (bind_ok (ConvertRoute.prepare _ _ _)) by exact Hprepare. reflexivity. }
  eexists _, _, _. split; [reflexivity |].
  split; [reflexivity |].
  split; [apply ran_lookup |].
  split; [reflexivity |].
  split; [reflexivity |].
  unfold safelyUpdated. cbn [Job.logs]. rewrite <- !app_assoc. reflexivity.
Qed.

Lemma linked_repository_is_cloned_witness :
  exists s' final,
    ConvertRoute.startConversion linkedEnv "prj_1" (Some publishOptions)
      (requested storageOnly) = (inr tt, s')
    /\ ConvertRoute.store s' !! "prj_1" = Some final
    /\ Job.status final = failed
    /\ calls (ConvertRoute.world s')
       = [CallGit (GitClone "https://github.com/acme/shop" "/store/prj_1" ["-b"; "main"])]
    /\ In "Detected Git repository from link field: acme/shop" (Job.logs final).
Proof.
  set (E := linkedEnv).
  set (l := Link.mk "github" "acme" "shop" "main").
  set (cloned := GitUtils.cloneRepository E
                   (CloneOptions.mk "https://github.com/acme/shop" "prj_1" (Some "main")
                      "/store")
                   storageOnly).
  set (r := returned (CloneResult.mk true "" "" None) cloned.1).
  assert (Hclone : cloned = (inr r, cloned.2)).
  { vm_compute. reflexivity. }
  assert (Hfailed : CloneResult.success r = false).
  { vm_compute. reflexivity. }
  destruct (linked_repository_is_cloned E "prj_1" (Some publishOptions) (requested storageOnly)
              (Job.mk cloning ["Initializing conversion process..."] None None None)
              (Project.mk "shop" None (Some l)) l r cloned.2
              eq_refl eq_refl eq_refl eq_refl eq_refl Hclone Hfailed)
    as (s' & final & lines & Hstart & Hworld & Hfinal & Hstatus & _ & Hlogs).
  exists s', final. split; [exact Hstart |].
  split; [exact Hfinal |].
  split; [exact Hstatus |].
  split.
  - rewrite Hworld. vm_compute. reflexivity.
  - rewrite Hlogs. apply in_app_iff. right. by left.
Defined.



